(** * World Music Lab: the audio analysis core of [src/index.js]

    A shallow embedding of the analysis pipeline of [src/index.js]
    ([analyzeAudioFile], [displayMusicalInsights], [analyzeSpectrum],
    [performFFT], [calculateSpectralCentroid], [calculateSpectralRolloff])
    and the properties the specification states about it.  The model
    then follows the code around the pipeline: the note names, the live
    pitch history, the composer, the teacher dashboard, the quizzes, the
    words of the insights and of the report, the recorder, the pitch
    panel and dark mode; their properties come after those of the
    specification.

    Numbers.  A JavaScript number is modelled by [jsnum]: [NaN], the two
    infinities, or a finite value carried as the rational it denotes.
    Rounding of finite doubles and the sign of zero are not modelled.
    Integer-valued quantities (scores, indices, lengths) are exact.
    [calculateSpectralRolloff] compares a running sum with a rounded
    threshold, so that its result can turn on the rounding: it is defined
    over the arithmetic as a parameter ([Numbers]), with two instances,
    the exact one and the binary64 doubles of IEEE 754 ([double]).

    Strings.  A string is a [string] of bytes; [toLowerCase] acts on the
    letters [A]..[Z] and [parseInt] skips the ASCII white space.

    Effects.  [analyzeAudioFile] is an [async] function.  It is modelled
    as a function on a [World] (the module-level variables and the page);
    a click on the cancel button can arrive at each [await].  The analyzer
    object ([audioAnalyzer.js]), the culture table ([culturesData.js])
    and the chart library (Chart.js) are parameters of the run: a call
    into them returns or throws.

    The file has three parts: the model, the vocabulary of the
    specification, and the properties. *)

From Stdlib Require Import ZArith QArith Qround Qabs List String Ascii Bool Lia Lqa.
From Stdlib Require Import Sorted SpecFloat.
From Stdlib Require DecimalString DecimalNat.
Import ListNotations.

Local Open Scope Z_scope.

(* ===================================================================== *)
(** ** JavaScript numbers *)
(* ===================================================================== *)

Module JsNum.

Inductive jsnum : Type :=
| NaN
| PInf
| NInf
| Fin (q : Q).

Arguments Fin q%_Q.

Definition Qsgn (q : Q) : Z := Z.sgn (Qnum q).

Definition inf_of_sign (s : Z) : jsnum :=
  match s with
  | Z0 => NaN
  | Zpos _ => PInf
  | Zneg _ => NInf
  end.

Definition jneg (x : jsnum) : jsnum :=
  match x with
  | NaN => NaN
  | PInf => NInf
  | NInf => PInf
  | Fin q => Fin (- q)
  end.

(** [x + y] *)
Definition jadd (x y : jsnum) : jsnum :=
  match x, y with
  | NaN, _ | _, NaN => NaN
  | PInf, NInf | NInf, PInf => NaN
  | PInf, _ | _, PInf => PInf
  | NInf, _ | _, NInf => NInf
  | Fin a, Fin b => Fin (a + b)
  end.

(** [x - y] *)
Definition jsub (x y : jsnum) : jsnum := jadd x (jneg y).

(** [x * y] *)
Definition jmul (x y : jsnum) : jsnum :=
  match x, y with
  | NaN, _ | _, NaN => NaN
  | Fin a, Fin b => Fin (a * b)
  | PInf, Fin b | Fin b, PInf => inf_of_sign (Qsgn b)
  | NInf, Fin b | Fin b, NInf => inf_of_sign (- Qsgn b)
  | PInf, PInf | NInf, NInf => PInf
  | PInf, NInf | NInf, PInf => NInf
  end.

(** [x / y]; a finite zero divisor counts as [+0]. *)
Definition jdiv (x y : jsnum) : jsnum :=
  match x, y with
  | NaN, _ | _, NaN => NaN
  | Fin a, Fin b => if Qeq_bool b 0 then inf_of_sign (Qsgn a) else Fin (a / b)
  | Fin _, PInf | Fin _, NInf => Fin 0
  | PInf, PInf | PInf, NInf | NInf, PInf | NInf, NInf => NaN
  | PInf, Fin b => if Qsgn b <? 0 then NInf else PInf
  | NInf, Fin b => if Qsgn b <? 0 then PInf else NInf
  end.

(** [Math.abs(x)] *)
Definition jabs (x : jsnum) : jsnum :=
  match x with
  | NaN => NaN
  | PInf | NInf => PInf
  | Fin q => Fin (Qabs q)
  end.

(** [x <= y]; every comparison with [NaN] is false. *)
Definition jle (x y : jsnum) : bool :=
  match x, y with
  | NaN, _ | _, NaN => false
  | NInf, _ => true
  | _, PInf => true
  | PInf, _ => false
  | _, NInf => false
  | Fin a, Fin b => Qle_bool a b
  end.

(** [x < y] *)
Definition jlt (x y : jsnum) : bool :=
  match x, y with
  | NaN, _ | _, NaN => false
  | PInf, _ => false
  | _, NInf => false
  | NInf, _ => true
  | _, PInf => true
  | Fin a, Fin b => negb (Qle_bool b a)
  end.

(** [x > y] and [x >= y] *)
Definition jgt (x y : jsnum) : bool := jlt y x.
Definition jge (x y : jsnum) : bool := jle y x.

(** [Math.floor(x)] *)
Definition jfloor (x : jsnum) : jsnum :=
  match x with
  | Fin q => Fin (inject_Z (Qfloor q))
  | other => other
  end.

(** [Math.min(x, y)] *)
Definition jmin (x y : jsnum) : jsnum :=
  match x, y with
  | NaN, _ | _, NaN => NaN
  | _, _ => if jle x y then x else y
  end.

(** A number taken from an integer (an array length, a loop index). *)
Definition ofZ (z : Z) : jsnum := Fin (inject_Z z).

(** [x === y] on numbers: numerical equality, false on [NaN]. *)
Definition jeq (x y : jsnum) : Prop :=
  match x, y with
  | Fin a, Fin b => a == b
  | PInf, PInf | NInf, NInf => True
  | _, _ => False
  end.

(** The number is one of the finite values. *)
Definition finite (x : jsnum) : Prop :=
  match x with
  | Fin _ => True
  | _ => False
  end.

End JsNum.

Export JsNum.

Infix "~=" := jeq (at level 70, no associativity).

(* ===================================================================== *)
(** ** The arithmetic as a parameter *)
(* ===================================================================== *)

Module Arithmetic.

(** The operations on numbers that [calculateSpectralRolloff] uses. *)
Class Numbers (num : Type) : Type := {
  numZero : num;                    (* the literal [0] *)
  num085 : num;                     (* the literal [0.85] *)
  numOfNat : nat -> num;            (* an index or a length, as a number *)
  numAdd : num -> num -> num;       (* [x + y] *)
  numMul : num -> num -> num;       (* [x * y] *)
  numDiv : num -> num -> num;       (* [x / y] *)
  numGe : num -> num -> bool        (* [x >= y] *)
}.

(** The exact arithmetic of [jsnum]. *)
#[global] Instance exact : Numbers jsnum := {
  numZero := Fin 0;
  num085 := Fin (85 # 100);
  numOfNat := fun n => ofZ (Z.of_nat n);
  numAdd := jadd;
  numMul := jmul;
  numDiv := jdiv;
  numGe := jge
}.

(** The doubles of the engine: binary64 of IEEE 754, every operation
    rounded to the nearest value, ties to even. *)
Definition double : Type := spec_float.

Definition prec : Z := 53.
Definition emax : Z := 1024.

(** An integer below [2^53] is a double. *)
Definition doubleOfZ (z : Z) : double := binary_normalize prec emax z 0 false.

(** The double nearest to [85/100]: the value of the literal [0.85]. *)
Definition double085 : double :=
  Eval vm_compute in SFdiv prec emax (doubleOfZ 85) (doubleOfZ 100).

#[global] Instance binary64 : Numbers double := {
  numZero := S754_zero false;
  num085 := double085;
  numOfNat := fun n => doubleOfZ (Z.of_nat n);
  numAdd := SFadd prec emax;
  numMul := SFmul prec emax;
  numDiv := SFdiv prec emax;
  numGe := fun x y => SFleb y x
}.

End Arithmetic.

Export Arithmetic.

(* ===================================================================== *)
(** ** JavaScript strings and arrays *)
(* ===================================================================== *)

Module JsString.

Local Open Scope string_scope.

Definition between (lo hi : nat) (c : ascii) : bool :=
  let n := nat_of_ascii c in (Nat.leb lo n && Nat.leb n hi)%bool.

(** One character of [String.prototype.toLowerCase]: [A]..[Z] move to
    [a]..[z]; every other byte is left as it is. *)
Definition lowerChar (c : ascii) : ascii :=
  if between 65 90 c then ascii_of_nat (nat_of_ascii c + 32) else c.

Fixpoint toLowerCase (s : string) : string :=
  match s with
  | EmptyString => EmptyString
  | String c rest => String (lowerChar c) (toLowerCase rest)
  end.

(** [s.includes(sub)] *)
Fixpoint includes (s sub : string) : bool :=
  (prefix sub s
   || match s with
      | EmptyString => false
      | String _ rest => includes rest sub
      end)%bool.

(** [s.split(sep)] for a separator of one character. *)
Fixpoint split (sep : ascii) (s : string) : list string :=
  match s with
  | EmptyString => [EmptyString]
  | String c rest =>
      if Ascii.eqb c sep then EmptyString :: split sep rest
      else match split sep rest with
           | piece :: pieces => String c piece :: pieces
           | [] => [String c EmptyString]
           end
  end.

(** White space skipped by [parseInt]: tab, line feed, vertical tab, form
    feed, carriage return and space. *)
Definition isSpace (c : ascii) : bool :=
  (between 9 13 c || Nat.eqb (nat_of_ascii c) 32)%bool.

Fixpoint skipSpaces (s : string) : string :=
  match s with
  | String c rest => if isSpace c then skipSpaces rest else s
  | EmptyString => s
  end.

(** The value of a character as a digit, up to radix 36. *)
Definition digitVal (c : ascii) : option Z :=
  let n := nat_of_ascii c in
  if between 48 57 c then Some (Z.of_nat (n - 48))
  else if between 97 122 c then Some (Z.of_nat (n - 97 + 10))
  else if between 65 90 c then Some (Z.of_nat (n - 65 + 10))
  else None.

(** The longest prefix of digits of the radix, read left to right;
    [None] when the first character is no digit. *)
Fixpoint parseDigits (radix : Z) (acc : option Z) (s : string) : option Z :=
  match s with
  | EmptyString => acc
  | String c rest =>
      match digitVal c with
      | Some d =>
          if (d <? radix)%Z
          then parseDigits radix
                 (Some (match acc with Some a => (a * radix + d)%Z | None => d end))
                 rest
          else acc
      | None => acc
      end
  end.

(** [parseInt(s)] with no radix argument: white space, a sign, an optional
    [0x] prefix, then digits.  The value is the exact integer, which is
    the number the code returns as long as it is below [2^53]; the white
    space is the ASCII one. *)
Definition parseInt (s : string) : jsnum :=
  let s1 := skipSpaces s in
  let '(sign, s2) :=
    match s1 with
    | String c rest =>
        if Ascii.eqb c "-" then ((-1)%Z, rest)
        else if Ascii.eqb c "+" then (1%Z, rest)
        else (1%Z, s1)
    | EmptyString => (1%Z, s1)
    end in
  let '(radix, s3) :=
    match s2 with
    | String c0 (String c1 rest) =>
        if (Ascii.eqb c0 "0" && (Ascii.eqb c1 "x" || Ascii.eqb c1 "X"))%bool
        then (16%Z, rest)
        else (10%Z, s2)
    | _ => (10%Z, s2)
    end in
  match parseDigits radix None s3 with
  | Some n => ofZ (sign * n)%Z
  | None => NaN
  end.

(** [a[i]] used as a number: an index past the end reads [undefined],
    which arithmetic turns into [NaN]. *)
Definition numAt (a : list jsnum) (i : nat) : jsnum := nth i a NaN.

End JsString.

Export JsString.

(** [a.slice(start, end)] of arrays and typed arrays: the bounds are
    truncated to integers ([NaN] is 0), a negative bound counts from the
    end, both are clamped to the length. *)
Module JsArray.

Definition relativeIndex (len : Z) (x : jsnum) : Z :=
  match x with
  | NaN => 0
  | PInf => len
  | NInf => 0
  | Fin q =>
      let k := if Qle_bool 0 q then Qfloor q else Qceiling q in
      if k <? 0 then Z.max (len + k) 0 else Z.min k len
  end.

Definition slice {A : Type} (a : list A) (start stop : jsnum) : list A :=
  let len := Z.of_nat (List.length a) in
  let k := relativeIndex len start in
  let final := relativeIndex len stop in
  firstn (Z.to_nat (Z.max (final - k) 0)) (skipn (Z.to_nat k) a).

End JsArray.

Export JsArray.

(* ===================================================================== *)
(** ** Cultural matching: the scoring loop of [displayMusicalInsights] *)
(* ===================================================================== *)

(** The fields of the analysis objects that the pipeline reads. *)
Module RhythmAnalysis.
Record t : Type := mk {
  tempo : jsnum;
  peakCount : jsnum;
  regularity : jsnum;
  intervals : option (list jsnum);
  temporalComplexity : jsnum;
  entropy : jsnum;
  polyrhythmic : bool;
  polyrhythmRatio : string;
  percussiveness : jsnum
}.
End RhythmAnalysis.

Module ScaleAnalysis.
Record t : Type := mk {
  scale : string;
  confidence : jsnum
}.
End ScaleAnalysis.

Module Characteristics.
Record t : Type := mk {
  tempo : string;
  rhythm : string;
  scales : string
}.
End Characteristics.

Module Culture.
Record t : Type := mk {
  name : string;
  emoji : string;
  characteristics : Characteristics.t
}.
End Culture.

Module Cultural.

(** An element of [culturalMatches]: [{ culture, score }]. *)
Record Match : Type := mkMatch {
  culture : Culture.t;
  score : Z
}.

(** The score one culture gets in the [forEach] body. *)
Definition cultureScore (rhythmAnalysis : RhythmAnalysis.t)
    (scaleAnalysis : ScaleAnalysis.t) (culture : Culture.t) : Z :=
  let score := 0 in
  let characteristics := Culture.characteristics culture in
  (* Compare tempo *)
  let tempoRange :=
    map parseInt (split "-" (Characteristics.tempo characteristics)) in
  let avgTempo := jdiv (jadd (numAt tempoRange 0) (numAt tempoRange 1)) (Fin 2) in
  let tempoDiff := jabs (jsub (RhythmAnalysis.tempo rhythmAnalysis) avgTempo) in
  let score := if jlt tempoDiff (Fin 15) then score + 3
               else if jlt tempoDiff (Fin 30) then score + 2
               else if jlt tempoDiff (Fin 50) then score + 1
               else score in
  (* Compare rhythm characteristics *)
  let regularity := RhythmAnalysis.regularity rhythmAnalysis in
  let polyrhythmic := RhythmAnalysis.polyrhythmic rhythmAnalysis in
  let rhythm := toLowerCase (Characteristics.rhythm characteristics) in
  let score := if jgt regularity (Fin (7 # 10)) && includes rhythm "steady"
               then score + 2 else score in
  let score := if jgt regularity (Fin (7 # 10)) && includes rhythm "regular"
               then score + 2 else score in
  let score := if polyrhythmic && includes rhythm "complex"
               then score + 3 else score in
  let score := if polyrhythmic && includes rhythm "polyrhythmic"
               then score + 3 else score in
  (* Compare scale types *)
  let scale := ScaleAnalysis.scale scaleAnalysis in
  let scales := toLowerCase (Characteristics.scales characteristics) in
  let score := if includes scale "Pentatonic" && includes scales "pentatonic"
               then score + 3 else score in
  let score := if includes scale "Minor" && includes scales "minor"
               then score + 2 else score in
  let score := if includes scale "Major" && includes scales "major"
               then score + 2 else score in
  score.

(** [allCultures.forEach(culture => { ... if (score > 0) push })] *)
Definition culturalMatches (rhythmAnalysis : RhythmAnalysis.t)
    (scaleAnalysis : ScaleAnalysis.t) (allCultures : list Culture.t) : list Match :=
  fold_left
    (fun matches culture =>
       let score := cultureScore rhythmAnalysis scaleAnalysis culture in
       if 0 <? score then matches ++ [mkMatch culture score] else matches)
    allCultures [].

(** The comparator [(a, b) => b.score - a.score]. *)
Definition byScoreDesc (a b : Match) : Z := score b - score a.

(** [Array.prototype.sort(cmp)] as a stable insertion sort: an element is
    placed before the first element of the sorted rest that the comparator
    does not put before it. *)
Section Sort.
Context {A : Type} (cmp : A -> A -> Z).

Fixpoint insertBy (x : A) (sorted : list A) : list A :=
  match sorted with
  | [] => [x]
  | y :: rest => if cmp x y <=? 0 then x :: y :: rest
                 else y :: insertBy x rest
  end.

Fixpoint sortBy (a : list A) : list A :=
  match a with
  | [] => []
  | x :: rest => insertBy x (sortBy rest)
  end.
End Sort.

(** [culturalMatches.sort(...)] followed by [slice(0, 5)]. *)
Definition topMatches (rhythmAnalysis : RhythmAnalysis.t)
    (scaleAnalysis : ScaleAnalysis.t) (allCultures : list Culture.t) : list Match :=
  slice (sortBy byScoreDesc (culturalMatches rhythmAnalysis scaleAnalysis allCultures))
        (ofZ 0) (ofZ 5).

(** The text [${match.score}/10] shown for a match. *)
Definition matchScoreText (m : Match) : string :=
  String.append (DecimalString.NilZero.string_of_int (Z.to_int (score m))) "/10".

End Cultural.

Export Cultural.

(* ===================================================================== *)
(** ** Spectral analysis: [analyzeSpectrum] and its helpers *)
(* ===================================================================== *)

Module Spectral.

Record SpectralAnalysis : Type := mkSpectral {
  spectrum : list jsnum;
  centroid : jsnum;
  rolloff : jsnum;
  brightness : jsnum
}.

Definition fftSize : Z := 2048.
Definition maxWindows : nat := 50.

Definition ofNat (n : nat) : jsnum := ofZ (Z.of_nat n).

(** [performFFT]: the loop runs while [i < data.length / 2], so it reads
    the first half of the data, rounded up. *)
Definition performFFT (data : list jsnum) : list jsnum :=
  map jabs (firstn (Nat.div2 (List.length data + 1)) data).

(** The window loop of [analyzeSpectrum].  [remaining] is
    [maxWindows - windows]: the loop stops when it reaches 0 (the [break])
    or when the offset [i] passes [channelData.length - fftSize]. *)
Fixpoint windowLoop (remaining : nat) (channelData : list jsnum) (i : Z)
    (spectrum : list (list jsnum)) : list (list jsnum) :=
  match remaining with
  | O => spectrum
  | S remaining' =>
      if i <? Z.of_nat (List.length channelData) - fftSize then
        let window := slice channelData (ofZ i) (ofZ (i + fftSize)) in
        let fft := performFFT window in
        windowLoop remaining' channelData (i + fftSize * 32) (spectrum ++ [fft])
      else spectrum
  end.

(** [for (i < spec.length) avgSpectrum[i] += spec[i]]: a write past the end
    of [avgSpectrum] extends it, and [undefined + x] is [NaN]. *)
Fixpoint accumulate (avgSpectrum spec : list jsnum) : list jsnum :=
  match avgSpectrum, spec with
  | a :: avgSpectrum', x :: spec' => jadd a x :: accumulate avgSpectrum' spec'
  | [], _ :: spec' => NaN :: accumulate [] spec'
  | _, [] => avgSpectrum
  end.

Definition averageSpectrum (spectrum : list (list jsnum)) : list jsnum :=
  let avgSpectrum := repeat (Fin 0) (Z.to_nat (fftSize / 2)) in
  let avgSpectrum := fold_left accumulate spectrum avgSpectrum in
  map (fun val => jdiv val (ofNat (List.length spectrum))) avgSpectrum.

(** The frequency of bin [i] of a spectrum of [n] bins:
    [(i * sampleRate) / (spectrum.length * 2)]. *)
Definition binFreq (n : nat) (sampleRate : jsnum) (i : nat) : jsnum :=
  jdiv (jmul (ofNat i) sampleRate) (ofNat (n * 2)).

Fixpoint centroidLoop (n : nat) (sampleRate : jsnum) (i : nat)
    (rest : list jsnum) (weightedSum sum : jsnum) : jsnum * jsnum :=
  match rest with
  | [] => (weightedSum, sum)
  | x :: rest' =>
      let freq := binFreq n sampleRate i in
      centroidLoop n sampleRate (S i) rest'
        (jadd weightedSum (jmul freq x)) (jadd sum x)
  end.

Definition calculateSpectralCentroid (spectrum : list jsnum)
    (sampleRate : jsnum) : jsnum :=
  let '(weightedSum, sum) :=
    centroidLoop (List.length spectrum) sampleRate 0 spectrum (Fin 0) (Fin 0) in
  if jgt sum (Fin 0) then jdiv weightedSum sum else Fin 0.

Section Rolloff.

Context {num : Type} {arithmetic : Numbers num}.

(** The loop of [calculateSpectralRolloff]: [rest] holds the bins from
    [i] on, of a spectrum of [n] bins. *)
Fixpoint rolloffLoop (n : nat) (sampleRate threshold : num) (i : nat)
    (rest : list num) (cumulativeEnergy : num) : num :=
  match rest with
  | [] => numZero
  | x :: rest' =>
      let cumulativeEnergy := numAdd cumulativeEnergy x in
      if numGe cumulativeEnergy threshold
      then numDiv (numMul (numOfNat i) sampleRate) (numOfNat (n * 2))
      else rolloffLoop n sampleRate threshold (S i) rest' cumulativeEnergy
  end.

Definition calculateSpectralRolloff (spectrum : list num)
    (sampleRate : num) : num :=
  let totalEnergy := fold_left numAdd spectrum numZero in
  let threshold := numMul totalEnergy num085 in
  rolloffLoop (List.length spectrum) sampleRate threshold 0 spectrum numZero.

End Rolloff.

Definition analyzeSpectrum (channelData : list jsnum) (sampleRate : jsnum)
    : SpectralAnalysis :=
  let spectrum := windowLoop maxWindows channelData 0 [] in
  let avgSpectrum := averageSpectrum spectrum in
  let spectralCentroid := calculateSpectralCentroid avgSpectrum sampleRate in
  let spectralRolloff := calculateSpectralRolloff avgSpectrum sampleRate in
  let brightness := jdiv spectralCentroid (jdiv sampleRate (Fin 2)) in
  mkSpectral avgSpectrum spectralCentroid spectralRolloff brightness.

End Spectral.

Export Spectral.

(* ===================================================================== *)
(** ** The analysis run: [analyzeAudioFile] *)
(* ===================================================================== *)

Module Orchestrator.

(** What [#analysis-results] shows. *)
Inductive Panel : Type :=
| Hidden
| Processing
| AnalyzingRhythm
| AnalyzingPitch
| AnalyzingSpectrum
| ResultsGrid
| AnalysisFailed (message : string).

Record AudioBuffer : Type := mkAudioBuffer {
  channel0 : list jsnum;      (* getChannelData(0) *)
  sampleRate : jsnum;
  duration : jsnum
}.

(** The object stored in [currentAnalysisData]. *)
Record AnalysisData : Type := mkAnalysisData {
  d_filename : string;
  d_duration : jsnum;
  d_sampleRate : jsnum;
  d_rhythm : RhythmAnalysis.t;
  d_pitches : list jsnum;
  d_timestamps : list jsnum;
  d_spectral : SpectralAnalysis;
  d_analyzedAt : string
}.

(** The charts of the results grid, each drawn on its canvas. *)
Inductive Chart : Type :=
| PitchChart
| RhythmChart
| SpectralChart.

(** The module-level variables and the parts of the page that the run
    writes.  [suspensions] counts the [await]s passed so far.
    [#cultural-insights] is an element of the results grid, inside
    [#analysis-results]: [culturalInsights] is the list it shows, and
    [None] when the panel holds no such list. *)
Record World : Type := mkWorld {
  analysisCancelled : bool;
  cancelBtnShown : bool;
  analysisResults : Panel;
  currentAnalysisData : option AnalysisData;
  culturalInsights : option (list Match);
  suspensions : nat
}.

(** A computation that reads and writes the world and either returns a
    value or throws an [Error] with a message.  Writes made before a throw
    stay. *)
Definition M (A : Type) : Type := World -> World * (string + A).

Definition ret {A} (a : A) : M A := fun w => (w, inr a).

Definition bind {A B} (m : M A) (k : A -> M B) : M B :=
  fun w => match m w with
           | (w', inr a) => k a w'
           | (w', inl e) => (w', inl e)
           end.

Definition throw {A} (message : string) : M A := fun w => (w, inl message).

Definition modify (f : World -> World) : M unit := fun w => (f w, inr tt).

(** The result of a call into code that may throw. *)
Definition call {A} (r : string + A) : M A := fun w => (w, r).

Notation "x <- m ;; k" := (bind m (fun x => k))
  (at level 61, m at next level, right associativity).
Notation "m ;; k" := (bind m (fun _ => k))
  (at level 61, right associativity).

Definition setCancelled (b : bool) : M unit :=
  modify (fun w => mkWorld b (cancelBtnShown w) (analysisResults w)
                     (currentAnalysisData w) (culturalInsights w) (suspensions w)).

Definition setCancelBtn (b : bool) : M unit :=
  modify (fun w => mkWorld (analysisCancelled w) b (analysisResults w)
                     (currentAnalysisData w) (culturalInsights w) (suspensions w)).

(** [analysisResults.innerHTML = ...]: the new content replaces all that
    the panel held, the list of similar cultures included. *)
Definition setPanel (p : Panel) : M unit :=
  modify (fun w => mkWorld (analysisCancelled w) (cancelBtnShown w) p
                     (currentAnalysisData w) None (suspensions w)).

Definition setAnalysisData (d : AnalysisData) : M unit :=
  modify (fun w => mkWorld (analysisCancelled w) (cancelBtnShown w) (analysisResults w)
                     (Some d) (culturalInsights w) (suspensions w)).

Definition setInsights (l : list Match) : M unit :=
  modify (fun w => mkWorld (analysisCancelled w) (cancelBtnShown w) (analysisResults w)
                     (currentAnalysisData w) (Some l) (suspensions w)).

Definition sampleSize : Z := 4096.
Definition maxFrames : nat := 20.
Definition maxDurationSec : jsnum := Fin 15.

(** Lines 927-931: the first [maxDurationSec] seconds of channel 0. *)
Definition trimmedSamples (audioBuffer : AudioBuffer) : jsnum :=
  jmin (ofNat (List.length (channel0 audioBuffer)))
       (jfloor (jmul (sampleRate audioBuffer) maxDurationSec)).

Definition trimmedChannel (audioBuffer : AudioBuffer) : list jsnum :=
  slice (channel0 audioBuffer) (ofZ 0) (trimmedSamples audioBuffer).

Section Run.

(** The page and the user: whether [#cancel-analysis] exists, and during
    which suspensions of the run the user clicks it. *)
Variable hasCancelBtn : bool.
Variable clicks : nat -> bool.

(** The analyzer object, the culture table and the clock, which live
    outside [index.js].  A call either returns or throws. *)
Variable analyzeRhythm : list jsnum -> string + RhythmAnalysis.t.
Variable calculateTemporalFeatures : list jsnum -> string + (jsnum * jsnum).
Variable detectPolyrhythm : list jsnum -> string + (bool * string).
Variable calculateZCR : list jsnum -> string + jsnum.
Variable detectPitch : list jsnum -> string + jsnum.
Variable identifyScale : list jsnum -> string + ScaleAnalysis.t.
Variable getAllCultures : list Culture.t.
Variable now : string.

(** Chart.js and the analyzer's note names, as the display functions use
    them: [chart.destroy()] on the chart an earlier run drew,
    [new Chart(ctx, ...)] on a canvas of the grid, and
    [frequencyToMidiNote] with [midiToNoteName], first for the labels of
    the pitch chart and then for the summary under it.  [undefinedSlice]
    is the message of the [TypeError] that the engine throws for
    [undefined.slice]. *)
Variable destroyChart : Chart -> string + unit.
Variable newChart : Chart -> string + unit.
Variable pitchLabels : list jsnum -> string + unit.
Variable pitchSummary : list jsnum -> string + unit.
Variable undefinedSlice : string.

(** [await new Promise(resolve => setTimeout(resolve, ...))]: the run is
    suspended, and a click on the cancel button during the suspension
    runs [onCancel]. *)
Definition await : M unit :=
  modify (fun w =>
    mkWorld (analysisCancelled w || (hasCancelBtn && clicks (suspensions w)))
            (cancelBtnShown w) (analysisResults w)
            (currentAnalysisData w) (culturalInsights w) (S (suspensions w))).

(** [if (analysisCancelled) throw new Error('Analysis cancelled')] *)
Definition checkCancelled : M unit :=
  fun w => if analysisCancelled w then (w, inl "Analysis cancelled"%string)
           else (w, inr tt).

(** Lines 941-952: the rhythm analysis and the features added to it. *)
Definition rhythmStage (samples : list jsnum) : M RhythmAnalysis.t :=
  rhythmAnalysis <- call (analyzeRhythm samples) ;;
  let intervals := match RhythmAnalysis.intervals rhythmAnalysis with
                   | Some l => l
                   | None => []
                   end in
  temporalFeatures <- call (calculateTemporalFeatures intervals) ;;
  polyrhythm <- call (detectPolyrhythm intervals) ;;
  zcr <- call (calculateZCR samples) ;;
  ret (RhythmAnalysis.mk
         (RhythmAnalysis.tempo rhythmAnalysis)
         (RhythmAnalysis.peakCount rhythmAnalysis)
         (RhythmAnalysis.regularity rhythmAnalysis)
         (RhythmAnalysis.intervals rhythmAnalysis)
         (fst temporalFeatures) (snd temporalFeatures)
         (fst polyrhythm) (snd polyrhythm) zcr).

(** The state of the pitch loop's variables. *)
Record PitchState : Type := mkPitchState {
  pitches : list jsnum;
  timestamps : list jsnum;
  frames : nat
}.

(** Lines 971-987.  [remaining] is [maxFrames - frames]: the loop ends
    when it reaches 0 (the [break]) or when the offset [i] passes
    [trimmedChannel.length - sampleSize]. *)
Fixpoint pitchLoop (remaining : nat) (samples : list jsnum) (rate : jsnum)
    (i : Z) (st : PitchState) : M PitchState :=
  match remaining with
  | O => ret st
  | S remaining' =>
      if i <? Z.of_nat (List.length samples) - sampleSize then
        checkCancelled ;;
        let sample := slice samples (ofZ i) (ofZ (i + sampleSize)) in
        pitch <- call (detectPitch sample) ;;
        let st :=
          if jgt pitch (Fin 0) && jlt pitch (Fin 2000)
          then mkPitchState (pitches st ++ [pitch])
                            (timestamps st ++ [jdiv (ofZ i) rate])
                            (S (frames st))
          else mkPitchState (pitches st) (timestamps st) (S (frames st)) in
        (if Nat.eqb (Nat.modulo (frames st) 5) 0 then await else ret tt) ;;
        pitchLoop remaining' samples rate (i + sampleSize * 64) st
      else ret st
  end.

(** [displayPitchAnalysis], lines 1070-1139: the calls that can throw, in
    the order of the code. *)
Definition displayPitchAnalysis (pitches timestamps : list jsnum) : M unit :=
  call (destroyChart PitchChart) ;;
  call (pitchLabels pitches) ;;
  call (newChart PitchChart) ;;
  call (pitchSummary pitches).

(** [displayRhythmAnalysis], lines 1141-1212.  The labels of the chart are
    [rhythmAnalysis.intervals.slice(0, 30)], evaluated before the call of
    [new Chart]: when the analyzer returned no [intervals] this throws a
    [TypeError]. *)
Definition displayRhythmAnalysis (rhythmAnalysis : RhythmAnalysis.t)
    : M unit :=
  call (destroyChart RhythmChart) ;;
  match RhythmAnalysis.intervals rhythmAnalysis with
  | None => throw undefinedSlice
  | Some _ => call (newChart RhythmChart)
  end.

(** [displaySpectralAnalysis], lines 1521-1586. *)
Definition displaySpectralAnalysis (spectralAnalysis : SpectralAnalysis)
    : M unit :=
  call (destroyChart SpectralChart) ;;
  call (newChart SpectralChart).

(** [setupDownloadButtons], lines 1591-1609: one click listener on the
    document, added by the first call. *)
Definition setupDownloadButtons : M unit := ret tt.

(** [displayMusicalInsights], as far as the list of similar cultures. *)
Definition displayMusicalInsights (rhythmAnalysis : RhythmAnalysis.t)
    (scaleAnalysis : ScaleAnalysis.t) (spectralAnalysis : SpectralAnalysis)
    : M unit :=
  setInsights (topMatches rhythmAnalysis scaleAnalysis getAllCultures).

(** The body of the [try] block. *)
Definition analysisBody (audioBuffer : AudioBuffer) (filename : string)
    : M unit :=
  setCancelled false ;;
  (if hasCancelBtn then setCancelBtn true else ret tt) ;;
  setPanel Processing ;;
  let samples := trimmedChannel audioBuffer in
  let rate := sampleRate audioBuffer in
  setPanel AnalyzingRhythm ;;
  await ;;
  (* Analyze rhythm *)
  checkCancelled ;;
  rhythmAnalysis <- rhythmStage samples ;;
  await ;;
  (* Analyze pitch *)
  checkCancelled ;;
  setPanel AnalyzingPitch ;;
  await ;;
  pitchResult <- pitchLoop maxFrames samples rate 0 (mkPitchState [] [] 0) ;;
  await ;;
  (* Spectral analysis *)
  checkCancelled ;;
  setPanel AnalyzingSpectrum ;;
  await ;;
  let spectralAnalysis := analyzeSpectrum samples rate in
  setPanel ResultsGrid ;;
  setAnalysisData
    (mkAnalysisData filename (duration audioBuffer) rate rhythmAnalysis
       (pitches pitchResult) (timestamps pitchResult) spectralAnalysis now) ;;
  displayPitchAnalysis (pitches pitchResult) (timestamps pitchResult) ;;
  displayRhythmAnalysis rhythmAnalysis ;;
  displaySpectralAnalysis spectralAnalysis ;;
  (* Identify scale *)
  scaleAnalysis <- call (identifyScale (pitches pitchResult)) ;;
  displayMusicalInsights rhythmAnalysis scaleAnalysis spectralAnalysis ;;
  setupDownloadButtons ;;
  (if hasCancelBtn then setCancelBtn false else ret tt).

(** [try { ... } catch (error) { ... }]: the handler hides the cancel
    button and shows the failure panel with [error.message]. *)
Definition analyzeAudioFile (audioBuffer : AudioBuffer) (filename : string)
    (w : World) : World :=
  match analysisBody audioBuffer filename w with
  | (w', inr tt) => w'
  | (w', inl message) =>
      fst (((if hasCancelBtn then setCancelBtn false else ret tt) ;;
            setPanel (AnalysisFailed message)) w')
  end.

End Run.

End Orchestrator.

Export Orchestrator.

(* ===================================================================== *)
(** ** Note names: [noteToFrequency] and [frequencyToNote] *)
(* ===================================================================== *)

Module Notes.

Local Open Scope string_scope.

(** A frequency in Hz.  [noteToFrequency] returns either the literal 440
    or [a4 * Math.pow(2, semitones / 12)] with [a4 = 440]; the power is
    irrational for most exponents, so it is carried by its exponent. *)
Inductive frequency : Type :=
| Hertz (x : jsnum)
| A4Pow2 (exponent : jsnum).

(** The [noteMap] object. *)
Definition noteMap : list (string * Z) :=
  [("C", 0); ("C#", 1); ("Db", 1); ("D", 2); ("D#", 3); ("Eb", 3);
   ("E", 4); ("F", 5); ("F#", 6); ("Gb", 6); ("G", 7); ("G#", 8);
   ("Ab", 8); ("A", 9); ("A#", 10); ("Bb", 10); ("B", 11)].

(** [object[key]] used as a number: a missing key reads [undefined],
    which arithmetic turns into [NaN]. *)
Fixpoint numProp (object : list (string * Z)) (key : string) : jsnum :=
  match object with
  | [] => NaN
  | (k, v) :: rest => if String.eqb k key then ofZ v else numProp rest key
  end.

(** The character classes of the pattern [/([A-G][b#]?)(\d)/]. *)
Definition isNoteLetter (c : ascii) : bool := between 65 71 c.
Definition isAccidental (c : ascii) : bool :=
  (Ascii.eqb c "b" || Ascii.eqb c "#")%bool.
Definition isDigit (c : ascii) : bool := between 48 57 c.

(** The match of the pattern at the start of [s], as its two groups.  The
    optional accidental is taken when a digit follows it; otherwise the
    digit has to follow the letter. *)
Definition matchHere (s : string) : option (string * ascii) :=
  match s with
  | String c rest =>
      if isNoteLetter c then
        match rest with
        | String a (String d _) =>
            if (isAccidental a && isDigit d)%bool
            then Some (String c (String a EmptyString), d)
            else if isDigit a then Some (String c EmptyString, a)
            else None
        | String a EmptyString =>
            if isDigit a then Some (String c EmptyString, a) else None
        | EmptyString => None
        end
      else None
  | EmptyString => None
  end.

(** [note.match(/([A-G][b#]?)(\d)/)]: the leftmost match. *)
Fixpoint matchNote (s : string) : option (string * ascii) :=
  match matchHere s with
  | Some groups => Some groups
  | None =>
      match s with
      | String _ rest => matchNote rest
      | EmptyString => None
      end
  end.

Definition noteToFrequency (note : string) : frequency :=
  match matchNote note with
  | None => Hertz (Fin 440)
  | Some (noteName, digit) =>
      let octave := parseInt (String digit EmptyString) in
      let noteNumber := numProp noteMap noteName in
      let semitones :=
        jsub (jadd (jmul (jsub octave (Fin 4)) (Fin 12)) noteNumber) (Fin 9) in
      A4Pow2 (jdiv semitones (Fin 12))
  end.

(** The [noteNames] array of [frequencyToNote]. *)
Definition noteNames : list string :=
  ["C"; "C#"; "D"; "D#"; "E"; "F"; "F#"; "G"; "G#"; "A"; "A#"; "B"].

(** [array[i]] for a whole number [i]: the element, or [undefined]
    ([None]) when [i] is no index of the array. *)
Definition elementAt (array : list string) (i : Z) : option string :=
  if (i <? 0)%Z then None else nth_error array (Z.to_nat i).

(** A whole number as text. *)
Definition showZ (z : Z) : string :=
  DecimalString.NilZero.string_of_int (Z.to_int z).

(** [frequencyToNote] from the line after
    [halfSteps = Math.round(12 * Math.log2(freq / a4))]: the octave is the
    floor of [(halfSteps + 57) / 12], and [%] keeps the sign of its left
    operand.  [noteNames[noteIndex] + octave] is the name followed by the
    octave when the element is there; [undefined + octave] is the number
    [NaN].  The result is the text that the template of the display shows
    for it. *)
Definition noteOfHalfSteps (halfSteps : Z) : string :=
  let octave := ((halfSteps + 57) / 12)%Z in
  let noteIndex := Z.rem (halfSteps + 57) 12 in
  match elementAt noteNames noteIndex with
  | Some name => String.append name (showZ octave)
  | None => "NaN"
  end.

End Notes.

Export Notes.

(* ===================================================================== *)
(** ** Live pitch: the history kept by [detectPitchLoop] *)
(* ===================================================================== *)

Module LivePitch.

(** One pass of [detectPitchLoop] over [pitchHistory], for the reading
    [pitch] of the detector: an accepted reading is pushed, and the oldest
    one is shifted out when the history grows past 100. *)
Definition detectPitchLoop (pitchHistory : list jsnum) (pitch : jsnum)
    : list jsnum :=
  if jgt pitch (Fin 0) && jlt pitch (Fin 2000) then
    let pitchHistory := pitchHistory ++ [pitch] in
    if (100 <? List.length pitchHistory)%nat then tl pitchHistory
    else pitchHistory
  else pitchHistory.

(** The history after the passes that follow a click on Start, which
    empties it. *)
Definition historyAfter (readings : list jsnum) : list jsnum :=
  fold_left detectPitchLoop readings [].

End LivePitch.

Export LivePitch.

(* ===================================================================== *)
(** ** Composer: the notes of the canvas *)
(* ===================================================================== *)

Module Composer.

(** [Math.max(x, y)] and [Math.ceil(x)] *)
Definition jmax (x y : jsnum) : jsnum :=
  match x, y with
  | NaN, _ | _, NaN => NaN
  | _, _ => if jle x y then y else x
  end.

Definition jceil (x : jsnum) : jsnum :=
  match x with
  | Fin q => Fin (inject_Z (Qceiling q))
  | other => other
  end.

(** [Math.max(...values)]: [-Infinity] for no argument. *)
Definition mathMax (values : list jsnum) : jsnum := fold_left jmax values NInf.

(** A note of the canvas: the position of the click. *)
Record Note : Type := mkNote {
  x : jsnum;
  y : jsnum
}.

Record Canvas : Type := mkCanvas {
  width : jsnum;
  height : jsnum
}.



(** [Math.max(0, ...notes.map(n => (n.x / canvas.width) * 4 + 0.3))] *)
Definition totalDuration (canvas : Canvas) (notes : list Note) : jsnum :=
  mathMax (Fin 0 ::
           map (fun n => jadd (jmul (jdiv (x n) (width canvas)) (Fin 4))
                              (Fin (3 # 10)))
               notes).

(** The delay of the timer that re-enables the play button, in ms, in
    exact arithmetic.  The doubles of the code round each step, which
    can move the delay to the next whole number (621 for 620 at
    [x = 54] on a canvas 800 wide). *)
Definition reenableDelay (canvas : Canvas) (notes : list Note) : jsnum :=
  jadd (jceil (jmul (totalDuration canvas notes) (Fin 1000))) (Fin 50).

End Composer.

(* ===================================================================== *)
(** ** Teacher dashboard: the session and its counters *)
(* ===================================================================== *)

Module Dashboard.

Local Open Scope string_scope.

Record Activities : Type := mkActivities {
  tracksAnalyzed : Z;
  gamesPlayed : Z;
  quizzesTaken : Z;
  totalTimeSeconds : Z
}.

(** An element of [events]: [{ type, timestamp }]. *)
Record Event : Type := mkEvent {
  type : string;
  timestamp : string
}.

Record Session : Type := mkSession {
  className : string;
  studentCount : jsnum;
  startTime : string;
  activities : Activities;
  events : list Event
}.

(** The module variables [dashboardSession] and [dashboardTimer] (whether
    an interval is set), and the item [teacherDashboard] of the local
    storage, held as the session that its JSON text encodes. *)
Record Page : Type := mkPage {
  dashboardSession : option Session;
  dashboardTimer : bool;
  teacherDashboard : option Session
}.

(** The page as the script finds it before [loadDashboardSession]. *)
Definition loaded (stored : option Session) : Page := mkPage None false stored.

Definition saveDashboardSession (p : Page) : Page :=
  match dashboardSession p with
  | Some s => mkPage (dashboardSession p) (dashboardTimer p) (Some s)
  | None => p
  end.


(** [text || fallback] and [number || fallback]: the empty string, 0 and
    [NaN] are falsy. *)
Definition textOr (value : option string) (fallback : string) : string :=
  match value with
  | Some EmptyString | None => fallback
  | Some text => text
  end.

Definition numberOr (value fallback : jsnum) : jsnum :=
  match value with
  | NaN => fallback
  | Fin q => if Qeq_bool q 0 then fallback else value
  | _ => value
  end.

(** [parseInt(input?.value)]: a missing element gives [undefined], which
    [parseInt] reads as the text [undefined]. *)
Definition parseIntOf (value : option string) : jsnum :=
  match value with
  | Some text => parseInt text
  | None => NaN
  end.

(** The click handler of the start button, for the values of the two
    inputs (when the elements exist) and the time of the click. *)
Definition startSession (classNameInput studentCountInput : option string)
    (now : string) (p : Page) : Page :=
  let className := textOr classNameInput "Untitled Class" in
  let studentCount := numberOr (parseIntOf studentCountInput) (Fin 25) in
  let session :=
    mkSession className studentCount now (mkActivities 0 0 0 0) [] in
  let p := mkPage (Some session) (dashboardTimer p) (teacherDashboard p) in
  let p := saveDashboardSession p in
  mkPage (dashboardSession p) true (teacherDashboard p).

(** One run of the interval callback, when an interval is set. *)
Definition timerTick (p : Page) : Page :=
  if dashboardTimer p then
    match dashboardSession p with
    | None => mkPage None false (teacherDashboard p)
    | Some s =>
        let a := activities s in
        let a := mkActivities (tracksAnalyzed a) (gamesPlayed a)
                              (quizzesTaken a) (totalTimeSeconds a + 1) in
        mkPage (Some (mkSession (className s) (studentCount s) (startTime s)
                                a (events s)))
               true (teacherDashboard p)
    end
  else p.



Definition trackDashboardActivity (type now : string) (p : Page) : Page :=
  match dashboardSession p with
  | None => p
  | Some s =>
      let a := activities s in
      let a :=
        if String.eqb type "analyze" then
          mkActivities (tracksAnalyzed a + 1) (gamesPlayed a)
                       (quizzesTaken a) (totalTimeSeconds a)
        else if String.eqb type "game" then
          mkActivities (tracksAnalyzed a) (gamesPlayed a + 1)
                       (quizzesTaken a) (totalTimeSeconds a)
        else if String.eqb type "quiz" then
          mkActivities (tracksAnalyzed a) (gamesPlayed a)
                       (quizzesTaken a + 1) (totalTimeSeconds a)
        else a in
      let s := mkSession (className s) (studentCount s) (startTime s) a
                         (events s ++ [mkEvent type now]) in
      saveDashboardSession
        (mkPage (Some s) (dashboardTimer p) (teacherDashboard p))
  end.

(** The text of [#session-duration] in [updateDashboardDisplay]. *)
Definition durationParts (totalSec : Z) : Z * Z * Z :=
  let hours := totalSec / 3600 in
  let mins := Z.rem totalSec 3600 / 60 in
  let secs := Z.rem totalSec 60 in
  (hours, mins, secs).

Definition durationText (totalSec : Z) : string :=
  let '(hours, mins, secs) := durationParts totalSec in
  String.append (showZ hours)
    (String.append "h "
       (String.append (showZ mins)
          (String.append "m " (String.append (showZ secs) "s")))).

(** The text of [#avg-time-on-task]: minutes and seconds per activity, or
    a dash when no activity was counted. *)
Definition avgTimeOnTask (a : Activities) : option (Z * Z) :=
  let totalSec := totalTimeSeconds a in
  let totalActivities := tracksAnalyzed a + gamesPlayed a + quizzesTaken a in
  if (0 <? totalActivities)%Z then
    let avgSec := totalSec / totalActivities in
    let avgMin := avgSec / 60 in
    let avgSecRem := Z.rem avgSec 60 in
    Some (avgMin, avgSecRem)
  else None.

(** What happens on the page while a session runs: the interval fires, or
    the user starts the rhythm game, the quiz or the extended quiz, whose
    handlers call [trackDashboardActivity] ([now] is the time of the
    click). *)
Inductive PageEvent : Type :=
| Tick
| StartRhythmGame (now : string)
| StartQuiz (now : string)
| StartExtendedQuiz (now : string).

Definition handle (p : Page) (e : PageEvent) : Page :=
  match e with
  | Tick => timerTick p
  | StartRhythmGame now => trackDashboardActivity "game" now p
  | StartQuiz now => trackDashboardActivity "quiz" now p
  | StartExtendedQuiz now => trackDashboardActivity "quiz" now p
  end.

End Dashboard.

(* ===================================================================== *)
(** ** The quiz of the games tab: [initializeQuiz] *)
(* ===================================================================== *)

Module Quiz.

Local Open Scope string_scope.

Record Question : Type := mkQuestion {
  question : string;
  options : list string;
  correct : Z
}.

Definition questions : list Question :=
  [mkQuestion "Which instrument is central to Indian classical music?"
              ["Sitar"; "Guitar"; "Piano"; "Trumpet"] 0;
   mkQuestion "What is a pentatonic scale?"
              ["3 notes"; "5 notes"; "7 notes"; "12 notes"] 1;
   mkQuestion "The kora is from which region?"
              ["East Asia"; "West Africa"; "Europe"; "South America"] 1].

(** What [#quiz-container] shows: nothing yet, the buttons of a question,
    or the closing line [Quiz Complete! Score: score/total]. *)
Inductive Screen : Type :=
| NotStarted
| Asking (q : Question)
| Complete (score : Z) (total : nat).

(** The variables of the closure, the screen, and the number of
    [setTimeout] callbacks that have not run yet. *)
Record State : Type := mkState {
  currentQuestion : nat;
  score : Z;
  screen : Screen;
  timers : nat
}.

Definition initial : State := mkState 0 0 NotStarted 0.

Section Events.

Variable questions : list Question.

Definition showQuestion (st : State) : State :=
  match nth_error questions (currentQuestion st) with
  | None =>
      mkState (currentQuestion st) (score st)
              (Complete (score st) (List.length questions)) (timers st)
  | Some q => mkState (currentQuestion st) (score st) (Asking q) (timers st)
  end.

(** The events of the quiz: a click on the start button (shown until its
    first click), a click on the option button [answer] of the question on
    screen, and the run of a pending timer. *)
Inductive Event : Type :=
| Start
| Answer (answer : nat)
| Timeout.

Definition step (st : State) (e : Event) : State :=
  match e with
  | Start =>
      match screen st with
      | NotStarted => showQuestion st
      | _ => st
      end
  | Answer answer =>
      match screen st with
      | Asking q =>
          if (answer <? List.length (options q))%nat then
            let score := if (Z.of_nat answer =? correct q)%Z
                         then (score st + 1)%Z else score st in
            mkState (currentQuestion st) score (screen st) (S (timers st))
          else st
      | _ => st
      end
  | Timeout =>
      match timers st with
      | O => st
      | S pending =>
          showQuestion
            (mkState (S (currentQuestion st)) (score st) (screen st) pending)
      end
  end.

Definition run (es : list Event) : State := fold_left step es initial.

End Events.

End Quiz.

(* ===================================================================== *)
(** ** The extended quiz: [initializeExtendedQuiz] *)
(* ===================================================================== *)

Module ExtendedQuiz.

Local Open Scope string_scope.

(** A question of [getRandomQuestions]. *)
Record Question : Type := mkQuestion {
  question : string;
  difficulty : string;
  options : list string;
  correct : Z
}.

(** The container shows the option buttons of a question, enabled or
    disabled, or the closing lines. *)
Inductive Screen : Type :=
| NotStarted
| Asking (q : Question) (disabled : bool)
| Complete (score : Z) (total : nat).

(** The variables of the closure, the screen, the pending timers, and the
    calls made to the progress tracker: the arguments of [addXP] and of
    [addAchievement], oldest first. *)
Record State : Type := mkState {
  currentQ : nat;
  score : Z;
  screen : Screen;
  timers : nat;
  addXP : list Z;
  addAchievement : list string
}.

Definition initial : State := mkState 0 0 NotStarted 0 [] [].

Section Events.

(** The result of [getRandomQuestions(10)]. *)
Variable questions : list Question.

Definition showQuestion (st : State) : State :=
  match nth_error questions (currentQ st) with
  | None =>
      let total := List.length questions in
      mkState (currentQ st) (score st) (Complete (score st) total) (timers st)
              (addXP st ++ [(score st * 10)%Z])
              (if (score st =? Z.of_nat total)%Z
               then addAchievement st ++ ["perfect_quiz"]
               else addAchievement st)
  | Some q =>
      mkState (currentQ st) (score st) (Asking q false) (timers st)
              (addXP st) (addAchievement st)
  end.

Inductive Event : Type :=
| Start
| Answer (answer : nat)
| Timeout.

(** [q.correct] is the index of one of the option buttons. *)
Definition hasCorrectButton (q : Question) : bool :=
  ((0 <=? correct q)%Z && (correct q <? Z.of_nat (List.length (options q)))%Z)%bool.

Definition step (st : State) (e : Event) : State :=
  match e with
  | Start =>
      match screen st with
      | NotStarted => showQuestion st
      | _ => st
      end
  | Answer answer =>
      match screen st with
      | Asking q false =>
          if (answer <? List.length (options q))%nat then
            if (Z.of_nat answer =? correct q)%Z then
              mkState (currentQ st) (score st + 1)%Z (Asking q true)
                      (S (timers st)) (addXP st) (addAchievement st)
            else if hasCorrectButton q then
              mkState (currentQ st) (score st) (Asking q true)
                      (S (timers st)) (addXP st) (addAchievement st)
            else
              (* querySelectorAll(...)[q.correct] is undefined: the
                 handler throws before it disables the buttons and sets
                 the timer *)
              st
          else st
      | _ => st
      end
  | Timeout =>
      match timers st with
      | O => st
      | S pending =>
          showQuestion
            (mkState (S (currentQ st)) (score st) (screen st) pending
                     (addXP st) (addAchievement st))
      end
  end.

Definition run (es : list Event) : State := fold_left step es initial.

End Events.

End ExtendedQuiz.

(* ===================================================================== *)
(** ** The words of the insights, the spectral panel and the report *)
(* ===================================================================== *)

Module Insights.

Local Open Scope string_scope.

(** [array.push(element)] *)
Definition push {A : Type} (array : list A) (element : A) : list A :=
  (array ++ [element])%list.


Definition timbreCategory (spectralAnalysis : SpectralAnalysis) : string :=
  if jgt (brightness spectralAnalysis) (Fin (6 # 10)) then "Bright/Shimmering"
  else if jgt (brightness spectralAnalysis) (Fin (4 # 10)) then "Balanced"
  else "Dark/Warm".

Definition energyLevel (spectralAnalysis : SpectralAnalysis) : string :=
  if jgt (rolloff spectralAnalysis) (Fin 3000) then "High Energy"
  else if jgt (rolloff spectralAnalysis) (Fin 1500) then "Moderate Energy"
  else "Low Energy".

(** The array [suggestions] of [getSuggestedMusicalUses], which the
    function returns as the items of a list. *)
Definition getSuggestedMusicalUses (rhythmAnalysis : RhythmAnalysis.t)
    (scaleAnalysis : ScaleAnalysis.t) (spectralAnalysis : SpectralAnalysis)
    : list string :=
  let suggestions := [] in
  (* Tempo-based suggestions *)
  let tempo := RhythmAnalysis.tempo rhythmAnalysis in
  let suggestions :=
    if jlt tempo (Fin 70)
    then push suggestions "Ballads, meditative music, ambient soundscapes"
    else if jlt tempo (Fin 100)
    then push suggestions "Folk songs, blues, soul, downtempo"
    else if jlt tempo (Fin 130)
    then push suggestions "Pop, rock, funk, moderate dance music"
    else push suggestions "Uptempo dance, electronic music, fast folk traditions" in
  (* Scale-based suggestions *)
  let scale := ScaleAnalysis.scale scaleAnalysis in
  let suggestions :=
    if includes scale "Pentatonic"
    then push suggestions "Improvisation-friendly, common in blues, rock, and traditional music worldwide"
    else if includes scale "Blues"
    then push suggestions "Blues, jazz, rock, gospel music"
    else if (includes scale "Dorian" || includes scale "Mixolydian")%bool
    then push suggestions "Jazz, fusion, modal jazz, contemporary folk"
    else if includes scale "Phrygian"
    then push suggestions "Flamenco, metal, Mediterranean-influenced music"
    else if includes scale "Minor"
    then push suggestions "Classical compositions, emotional/dramatic music, film scores"
    else suggestions in
  (* Rhythm-based suggestions *)
  let suggestions :=
    if RhythmAnalysis.polyrhythmic rhythmAnalysis
    then push suggestions "Complex rhythmic music, progressive styles, polyrhythmic traditions"
    else if jgt (RhythmAnalysis.regularity rhythmAnalysis) (Fin (8 # 10))
    then push suggestions "Dance music, marching music, metronomic compositions"
    else if jlt (RhythmAnalysis.regularity rhythmAnalysis) (Fin (5 # 10))
    then push suggestions "Free-form jazz, rubato classical pieces, expressive performances"
    else suggestions in
  (* Timbre-based suggestions *)
  let suggestions :=
    if jgt (brightness spectralAnalysis) (Fin (6 # 10))
    then push suggestions "Bright instrumentation (cymbals, strings, synths)"
    else push suggestions "Warm instrumentation (bass, woodwinds, mellow tones)" in
  suggestions.

(** [displaySpectralAnalysis]: the timbre character and the sentence of
    analysis under the chart. *)
Definition spectralTimbre (spectralAnalysis : SpectralAnalysis) : string :=
  if jgt (brightness spectralAnalysis) (Fin (6 # 10)) then "Bright"
  else if jgt (brightness spectralAnalysis) (Fin (4 # 10)) then "Balanced"
  else "Dark".

Definition spectralSentence (spectralAnalysis : SpectralAnalysis) : string :=
  if jgt (brightness spectralAnalysis) (Fin (5 # 10))
  then "High-frequency content suggests presence of cymbals, strings, or bright instruments"
  else "Low-frequency dominant, suggests drums, bass, or darker timbres".

(** [generateAnalysisReport]: the line [Timbre:] of the report, for the
    stored analysis. *)
Definition reportTimbre (data : AnalysisData) : string :=
  if jgt (brightness (d_spectral data)) (Fin (6 # 10)) then "Bright"
  else if jgt (brightness (d_spectral data)) (Fin (4 # 10)) then "Balanced"
  else "Dark".

(** [displaySpectralAnalysis]: the points of the chart.  The loop takes
    every eighth bin, labelled with [i * 22050 / spectrum.length] (the
    number that [toFixed(0)] then rounds); [remaining] is the count of
    bins, which bounds the passes of the loop. *)
Fixpoint downsample (remaining : nat) (spectrum : list jsnum) (i : nat)
    (labels data : list jsnum) : list jsnum * list jsnum :=
  match remaining with
  | O => (labels, data)
  | S remaining' =>
      if (i <? List.length spectrum)%nat then
        downsample remaining' spectrum (i + 8)
          (push labels (jdiv (jmul (ofNat i) (Fin 22050))
                             (ofNat (List.length spectrum))))
          (push data (numAt spectrum i))
      else (labels, data)
  end.

(** The chart's [labels.slice(0, 50)] and [data.slice(0, 50)]. *)
Definition chartPoints (spectralAnalysis : SpectralAnalysis)
    : list jsnum * list jsnum :=
  let '(labels, data) :=
    downsample (List.length (spectrum spectralAnalysis))
               (spectrum spectralAnalysis) 0 [] [] in
  (slice labels (ofZ 0) (ofZ 50), slice data (ofZ 0) (ofZ 50)).

End Insights.

Export Insights.

(* ===================================================================== *)
(** ** The recorder: the similar cultures of [analyzeRecording] *)
(* ===================================================================== *)

Module Recording.

(** The object used when [analyzeRhythm] is missing or throws:
    [{ tempo: 0, peakCount: 0, regularity: 0, intervals: [] }]; the other
    fields are [undefined]. *)
Definition defaultRhythm : RhythmAnalysis.t :=
  RhythmAnalysis.mk (Fin 0) (Fin 0) (Fin 0) (Some []) NaN NaN false
                    EmptyString NaN.

(** The [try] around [audioAnalyzer.analyzeRhythm(channelData)]. *)
Definition rhythmOf (result : string + RhythmAnalysis.t) : RhythmAnalysis.t :=
  match result with
  | inr rhythmAnalysis => rhythmAnalysis
  | inl _ => defaultRhythm
  end.

(** The score one culture gets in the [forEach] body. *)
Definition recordingScore (rhythmAnalysis : RhythmAnalysis.t)
    (culture : Culture.t) : Z :=
  let score := 0 in
  let characteristics := Culture.characteristics culture in
  let tempoRange :=
    map parseInt (split "-" (Characteristics.tempo characteristics)) in
  let avgTempo := jdiv (jadd (numAt tempoRange 0) (numAt tempoRange 1)) (Fin 2) in
  let tempoDiff := jabs (jsub (RhythmAnalysis.tempo rhythmAnalysis) avgTempo) in
  let score := if jlt tempoDiff (Fin 20) then score + 3
               else if jlt tempoDiff (Fin 40) then score + 2
               else if jlt tempoDiff (Fin 60) then score + 1
               else score in
  let regularity := RhythmAnalysis.regularity rhythmAnalysis in
  let rhythm := Characteristics.rhythm characteristics in
  let score := if jgt regularity (Fin (7 # 10)) && includes rhythm "regular"
               then score + 2 else score in
  let score := if jlt regularity (Fin (5 # 10)) && includes rhythm "complex"
               then score + 2 else score in
  score.

(** [allCultures.forEach(culture => { ... if (score > 0) push })] *)
Definition matches (rhythmAnalysis : RhythmAnalysis.t)
    (allCultures : list Culture.t) : list Match :=
  fold_left
    (fun matches culture =>
       let score := recordingScore rhythmAnalysis culture in
       if 0 <? score then matches ++ [mkMatch culture score] else matches)
    allCultures [].

(** [matches.sort((a, b) => b.score - a.score)] and [slice(0, 3)]. *)
Definition topMatches (rhythmAnalysis : RhythmAnalysis.t)
    (allCultures : list Culture.t) : list Match :=
  slice (sortBy byScoreDesc (matches rhythmAnalysis allCultures))
        (ofZ 0) (ofZ 3).

(** The text [${match.score}/7] shown for a match. *)
Definition matchScoreText (m : Match) : string :=
  String.append (showZ (score m)) "/7".

End Recording.

(* ===================================================================== *)
(** ** The pitch panel: [displayPitchAnalysis] *)
(* ===================================================================== *)

Module PitchDisplay.

(** The object [histogram]: its properties in the order of their
    creation, each a MIDI note with its count.  The notes are whole
    numbers, as [frequencyToMidiNote] rounds them. *)
Definition Histogram : Type := list (Z * Z).

(** [histogram[note] = (histogram[note] || 0) + 1] *)
Fixpoint bump (histogram : Histogram) (note : Z) : Histogram :=
  match histogram with
  | [] => [(note, 1)]
  | (key, count) :: rest =>
      if key =? note then (key, count + 1) :: rest
      else (key, count) :: bump rest note
  end.

(** A property key that is an array index: a whole number from 0 to
    [2^32 - 2]. *)
Definition isArrayIndex (key : Z) : bool :=
  (0 <=? key) && (key <? 4294967295).

(** The order of the index keys of an object: ascending. *)
Definition byKeyAsc (a b : Z * Z) : Z := fst a - fst b.

(** [Object.entries(histogram)]: the index keys in ascending order, then
    the other keys in the order of their creation. *)
Definition entries (histogram : Histogram) : list (Z * Z) :=
  sortBy byKeyAsc (filter (fun e => isArrayIndex (fst e)) histogram)
  ++ filter (fun e => negb (isArrayIndex (fst e))) histogram.

(** The comparator [(a, b) => b[1] - a[1]]. *)
Definition byCountDesc (a b : Z * Z) : Z := snd b - snd a.

Section Display.

(** [audioAnalyzer.frequencyToMidiNote] *)
Variable frequencyToMidiNote : jsnum -> Z.

Definition midiNotes (pitches : list jsnum) : list Z :=
  map frequencyToMidiNote pitches.

Definition histogramOf (pitches : list jsnum) : Histogram :=
  fold_left bump (midiNotes pitches) [].

(** The bars of the chart: the twelve most frequent notes. *)
Definition sortedNotes (pitches : list jsnum) : list (Z * Z) :=
  slice (sortBy byCountDesc (entries (histogramOf pitches))) (ofZ 0) (ofZ 12).

(** The note shown as the most common one; [None] stands for [N/A]. *)
Definition mostCommonNote (pitches : list jsnum) : option Z :=
  match sortedNotes pitches with
  | [] => None
  | (note, _) :: _ => Some note
  end.

(** [pitches.reduce((a, b) => a + b, 0) / pitches.length] *)
Definition avgPitch (pitches : list jsnum) : jsnum :=
  jdiv (fold_left jadd pitches (Fin 0)) (ofNat (List.length pitches)).

(** [Math.min(...pitches)] and [Math.max(...pitches)]: [Infinity] and
    [-Infinity] for no pitch. *)
Definition pitchRange (pitches : list jsnum) : jsnum * jsnum :=
  (fold_left jmin pitches PInf, Composer.mathMax pitches).

End Display.

End PitchDisplay.

Export PitchDisplay.


(* ===================================================================== *)
(** ** Dark mode: [initializeDarkMode] *)
(* ===================================================================== *)

Module DarkMode.

Local Open Scope string_scope.

(** The module variable [isDarkMode], whether [document.body] carries the
    class [dark-mode], whether the button shows the sun, and the item
    [darkMode] of the local storage. *)
Record Page : Type := mkPage {
  isDarkMode : bool;
  bodyClass : bool;
  showsSun : bool;
  darkMode : option string
}.

(** The page as the script finds it: the variable is [false] and the body
    has no class. *)
Definition loaded (stored : option string) : Page :=
  mkPage false false false stored.

(** [String(b)], as [localStorage.setItem] stores a boolean. *)
Definition ofBool (b : bool) : string := if b then "true" else "false".

(** [savedMode === 'true'] *)
Definition isTrue (saved : option string) : bool :=
  match saved with
  | Some text => String.eqb text "true"
  | None => false
  end.

(** The body of [initializeDarkMode] before the listener is added, on a
    page that has the button or not. *)
Definition initializeDarkMode (hasButton : bool) (p : Page) : Page :=
  if hasButton then
    if isTrue (darkMode p) then mkPage true true true (darkMode p) else p
  else p.

(** The click listener of the button. *)
Definition click (p : Page) : Page :=
  let isDarkMode := negb (isDarkMode p) in
  mkPage isDarkMode (negb (bodyClass p)) isDarkMode (Some (ofBool isDarkMode)).

(** A visit: the page is loaded with what the storage holds, and the
    button is clicked [clicks] times. *)
Definition visit (stored : option string) (clicks : nat) : Page :=
  Nat.iter clicks click (initializeDarkMode true (loaded stored)).

End DarkMode.

(* ===================================================================== *)
(** * Vocabulary of the specification *)
(* ===================================================================== *)

(** ** Cultural matching *)

(** The midpoint of a record's tempo range, as the scoring reads it: the
    first two pieces of the tempo string, split at the hyphen and read by
    [parseInt], averaged. *)
Definition avgTempo (characteristics : Characteristics.t) : jsnum :=
  let tempoRange :=
    map parseInt (split "-" (Characteristics.tempo characteristics)) in
  jdiv (jadd (numAt tempoRange 0) (numAt tempoRange 1)) (Fin 2).

(** The distance between the detected tempo and that midpoint. *)
Definition tempoDiff (rhythmAnalysis : RhythmAnalysis.t)
    (characteristics : Characteristics.t) : jsnum :=
  jabs (jsub (RhythmAnalysis.tempo rhythmAnalysis) (avgTempo characteristics)).

(** The tempo-proximity part of a score. *)
Definition tempoPoints (rhythmAnalysis : RhythmAnalysis.t)
    (characteristics : Characteristics.t) : Z :=
  let d := tempoDiff rhythmAnalysis characteristics in
  if jlt d (Fin 15) then 3
  else if jlt d (Fin 30) then 2
  else if jlt d (Fin 50) then 1
  else 0.

(** The points [cultureScore] adds after the tempo comparison. *)
Definition descriptorPoints (rhythmAnalysis : RhythmAnalysis.t)
  (scaleAnalysis : ScaleAnalysis.t) (culture : Culture.t) : Z :=
  let characteristics := Culture.characteristics culture in
  let regularity := RhythmAnalysis.regularity rhythmAnalysis in
  let polyrhythmic := RhythmAnalysis.polyrhythmic rhythmAnalysis in
  let rhythm := toLowerCase (Characteristics.rhythm characteristics) in
  let scales := toLowerCase (Characteristics.scales characteristics) in
  let scale := ScaleAnalysis.scale scaleAnalysis in
  (if jgt regularity (Fin (7 # 10)) && includes rhythm "steady" then 2 else 0)
  + (if jgt regularity (Fin (7 # 10)) && includes rhythm "regular" then 2 else 0)
  + (if polyrhythmic && includes rhythm "complex" then 3 else 0)
  + (if polyrhythmic && includes rhythm "polyrhythmic" then 3 else 0)
  + (if includes scale "Pentatonic" && includes scales "pentatonic" then 3 else 0)
  + (if includes scale "Minor" && includes scales "minor" then 2 else 0)
  + (if includes scale "Major" && includes scales "major" then 2 else 0).

(** What [Array.prototype.sort] promises for the comparator
    [byScoreDesc]: the output is ordered by the comparator, and the elements
    that compare equal to any given one appear as in the input, in the
    same order (the sort is stable and loses or adds nothing). *)
Definition SortContract (input output : list Match) : Prop :=
  StronglySorted (fun a b => byScoreDesc a b <= 0) output
  /\ forall v : Z,
       filter (fun a => score a =? v) output
       = filter (fun a => score a =? v) input.

(** A run of the matching step on an engine that keeps the contract. *)
Definition matchCulturesRun (rhythmAnalysis : RhythmAnalysis.t)
    (scaleAnalysis : ScaleAnalysis.t) (allCultures : list Culture.t)
    (result : list Match) : Prop :=
  exists sorted,
    SortContract (culturalMatches rhythmAnalysis scaleAnalysis allCultures) sorted
    /\ result = slice sorted (ofZ 0) (ofZ 5).

(** A match tagged with the position of its culture in the table; an
    earlier entry of the result is ranked before a later one. *)
Definition rankedBefore (x y : nat * Match) : Prop :=
  score (snd x) > score (snd y)
  \/ (score (snd x) = score (snd y) /\ (fst x < fst y)%nat).

(** The matches together with the table positions they come from. *)
Definition taggedMatches (rhythmAnalysis : RhythmAnalysis.t)
    (scaleAnalysis : ScaleAnalysis.t) (start : nat)
    (allCultures : list Culture.t) : list (nat * Match) :=
  let scoreOf := cultureScore rhythmAnalysis scaleAnalysis in
  map (fun ic => (fst ic, mkMatch (snd ic) (scoreOf (snd ic))))
      (filter (fun ic => 0 <? scoreOf (snd ic))
              (combine (seq start (List.length allCultures)) allCultures)).

(** A tempo range as the culture table writes it: two decimal numbers
    joined by a hyphen. *)
Definition decimal (n : nat) : string :=
  DecimalString.NilZero.string_of_uint (Nat.to_uint n).

Definition rangeText (lo hi : nat) : string :=
  String.append (decimal lo) (String "-" (decimal hi)).

(** ** Spectral analysis *)

(** The sum of a list of rationals. *)
Definition Qsum (l : list Q) : Q := fold_right Qplus 0%Q l.

(** The magnitude-weighted sum of the bin frequencies of a spectrum of [n]
    bins, from bin [i] on. *)
Fixpoint weightedFreqSum (n : nat) (r : Q) (i : nat) (mags : list Q) : Q :=
  match mags with
  | [] => 0%Q
  | m :: rest =>
      (inject_Z (Z.of_nat i) * r / inject_Z (Z.of_nat (n * 2)) * m
       + weightedFreqSum n r (S i) rest)%Q
  end.

(** The test of the loop of [calculateSpectralRolloff] at bin [i]: the
    cumulative energy of the bins [0..i] against the threshold, both as
    the code computes them. *)
Definition reachesThreshold {num : Type} {arithmetic : Numbers num}
    (spectrum : list num) (i : nat) : bool :=
  numGe (fold_left numAdd (firstn (S i) spectrum) numZero)
        (numMul (fold_left numAdd spectrum numZero) num085).

(** A double that is a number and not an infinity. *)
Definition finiteDouble (x : double) : Prop :=
  match x with
  | S754_zero _ | S754_finite _ _ _ => True
  | _ => False
  end.

(** A finite magnitude: not negative. *)
Definition magnitude (x : jsnum) : Prop :=
  match x with
  | Fin q => (0 <= q)%Q
  | _ => False
  end.

(** A frame of the spectrum list: 1024 finite magnitudes. *)
Definition frameOk (fft : list jsnum) : Prop :=
  Forall magnitude fft /\ List.length fft = 1024%nat.

(** ** The analysis run *)

(** The offsets of the first [count] frames of the walk that starts at
    [i]: one frame every [sampleSize * 64] samples. *)
Fixpoint frameOffsets (i : Z) (count : nat) : list Z :=
  match count with
  | O => []
  | S count' => i :: frameOffsets (i + sampleSize * 64) count'
  end.

(** The test [pitch > 0 && pitch < 2000]. *)
Definition accepted (pitch : jsnum) : bool :=
  jgt pitch (Fin 0) && jlt pitch (Fin 2000).

(** What the loop leaves in [pitches] and [timestamps] after examining the
    frames at [offsets], on which [detectPitch] returned [detected]. *)
Definition keptPitches (detected : list jsnum) : list jsnum :=
  filter accepted detected.

Definition keptTimestamps (rate : jsnum) (offsets : list Z)
    (detected : list jsnum) : list jsnum :=
  map (fun op => jdiv (ofZ (fst op)) rate)
      (filter (fun op => accepted (snd op)) (combine offsets detected)).

(** Frame [off] lies within the samples and [detectPitch] returned [p]
    on it. *)
Definition examinedFrame (detectPitch : list jsnum -> string + jsnum)
    (samples : list jsnum) (off : Z) (p : jsnum) : Prop :=
  0 <= off < Z.of_nat (List.length samples) - sampleSize
  /\ detectPitch (slice samples (ofZ off) (ofZ (off + sampleSize))) = inr p.

(** The page shows the failure panel. *)
Definition reportsFailure (w : World) : Prop :=
  exists message, analysisResults w = AnalysisFailed message.

(** ** Sample data for concrete runs *)

Definition sampleRhythm : RhythmAnalysis.t :=
  RhythmAnalysis.mk (Fin 110) (Fin 12) (Fin (9 # 10)) None (Fin 0) (Fin 0)
                    true "3:2" (Fin 0).

Definition sampleScale : ScaleAnalysis.t :=
  ScaleAnalysis.mk "Pentatonic Minor" (Fin 1).

Definition sampleCulture : Culture.t :=
  Culture.mk "Sample tradition" "*"
    (Characteristics.mk "100-120"
       "Steady, regular pulse under complex polyrhythmic layers"
       "Pentatonic and minor modes").

Definition slowCulture : Culture.t :=
  Culture.mk "Slow tradition" "*"
    (Characteristics.mk "40-60" "Free" "Minor").

Definition demoBuffer : AudioBuffer :=
  mkAudioBuffer (repeat (Fin (1 # 2)) 40) (Fin 2) (Fin 20).

Definition freshPage : World := mkWorld false false Hidden None None 0.

(** The rhythm analysis of the sample, with the intervals between its
    beats. *)
Definition beatRhythm : RhythmAnalysis.t :=
  RhythmAnalysis.mk (Fin 110) (Fin 12) (Fin (9 # 10))
                    (Some [Fin 545; Fin 545]) (Fin 0) (Fin 0)
                    true "3:2" (Fin 0).

Definition sliceOfUndefined : string :=
  "Cannot read properties of undefined (reading 'slice')".

(** A run, from page [w], in which every call into the analyzer and into
    Chart.js returns, [analyzeRhythm] returns [rhythm], and the user
    clicks the cancel button during the suspensions selected by
    [clicks]. *)
Definition runWith (rhythm : RhythmAnalysis.t) (clicks : nat -> bool)
    (w : World) : World :=
  analyzeAudioFile true clicks
    (fun _ => inr rhythm) (fun _ => inr (Fin 0, Fin 0))
    (fun _ => inr (false, EmptyString)) (fun _ => inr (Fin 0))
    (fun _ => inr (Fin 440)) (fun _ => inr sampleScale)
    [sampleCulture] "2026-01-01"
    (fun _ => inr tt) (fun _ => inr tt) (fun _ => inr tt) (fun _ => inr tt)
    sliceOfUndefined demoBuffer "clip.wav" w.

Definition demoRun (clicks : nat -> bool) : World :=
  runWith beatRhythm clicks freshPage.

(** The page that a completed run leaves: the results grid, with the
    stored analysis and the list of similar cultures. *)
Definition usedPage : World := demoRun (fun _ => false).

(** The same run with no click, in which [analyzeRhythm] throws. *)
Definition faultRun (message : string) : World :=
  analyzeAudioFile true (fun _ => false)
    (fun _ => inl message) (fun _ => inr (Fin 0, Fin 0))
    (fun _ => inr (false, EmptyString)) (fun _ => inr (Fin 0))
    (fun _ => inr (Fin 440)) (fun _ => inr sampleScale)
    [sampleCulture] "2026-01-01"
    (fun _ => inr tt) (fun _ => inr tt) (fun _ => inr tt) (fun _ => inr tt)
    sliceOfUndefined demoBuffer "clip.wav" freshPage.

(** ** Further vocabulary *)

(** The samples [analyzeSpectrum] reads: sample [j] of window [k], where
    a window starts every [fftSize * 32] samples. *)
Definition spectrumSample (k j : nat) : nat :=
  Z.to_nat (fftSize * 32 * Z.of_nat k + Z.of_nat j).

(** Six seconds of sound at 44100 Hz: room for two frames of the pitch
    loop. *)
Definition longBuffer : AudioBuffer :=
  mkAudioBuffer (repeat (Fin (1 # 2)) (Z.to_nat 270000)) (Fin 44100) (Fin 6).

(** ** Note names *)

(** The frequency [halfSteps] semitones above A4: [440 * 2^(halfSteps/12)]. *)
Definition toneOf (halfSteps : Z) : frequency :=
  A4Pow2 (Fin (inject_Z halfSteps / 12)).

(** Two frequencies are the same number. *)
Definition sameFrequency (f g : frequency) : Prop :=
  match f, g with
  | Hertz x, Hertz y => x ~= y
  | A4Pow2 a, A4Pow2 b => a ~= b
  | _, _ => False
  end.

Definition sameFrequencyb (f g : frequency) : bool :=
  match f, g with
  | Hertz (Fin x), Hertz (Fin y) => Qeq_bool x y
  | A4Pow2 (Fin a), A4Pow2 (Fin b) => Qeq_bool a b
  | _, _ => false
  end.

(** Some character of the string satisfies the test. *)
Fixpoint anyChar (test : ascii -> bool) (s : string) : bool :=
  match s with
  | EmptyString => false
  | String c rest => (test c || anyChar test rest)%bool
  end.

(** The whole numbers from [lo], [count] of them. *)
Definition rangeZ (lo : Z) (count : nat) : list Z :=
  map (fun k => lo + Z.of_nat k) (seq 0 count).

(** ** Live pitch and composer *)

(** The last [n] elements of a list. *)
Definition lastn {A : Type} (n : nat) (l : list A) : list A :=
  skipn (List.length l - n) l.


(** ** Teacher dashboard *)

(** How many of the page events are interval ticks, game starts and quiz
    starts. *)
Definition tickCount (es : list Dashboard.PageEvent) : Z :=
  Z.of_nat (List.length
              (filter (fun e => match e with Dashboard.Tick => true | _ => false end)
                      es)).

Definition gameCount (es : list Dashboard.PageEvent) : Z :=
  Z.of_nat (List.length
              (filter (fun e => match e with
                                | Dashboard.StartRhythmGame _ => true
                                | _ => false
                                end) es)).

Definition quizCount (es : list Dashboard.PageEvent) : Z :=
  Z.of_nat (List.length
              (filter (fun e => match e with
                                | Dashboard.StartQuiz _
                                | Dashboard.StartExtendedQuiz _ => true
                                | _ => false
                                end) es)).

(** A page with a session, whose interval is on or off. *)
Definition sessionOn (p : Dashboard.Page) (s : Dashboard.Session)
    (interval : bool) : Prop :=
  Dashboard.dashboardSession p = Some s
  /\ Dashboard.dashboardTimer p = interval.

(** A text of at most 15 characters, all of them ASCII.  What [parseInt]
    reads of such a text is below [2^53], so that the double holds it
    exactly, and the white space before it is the ASCII one. *)
Definition shortAscii (text : string) : Prop :=
  (String.length text <= 15)%nat
  /\ anyChar (fun c => Nat.leb 128 (nat_of_ascii c)) text = false.

(** The value of the student-count input, when the element exists, is
    such a text. *)
Definition plainCount (value : option string) : Prop :=
  match value with
  | Some text => shortAscii text
  | None => True
  end.

(** ** The quizzes *)

(** The user answers a question once: no option button is clicked while a
    timer is pending. *)
Fixpoint answersOnce (questions : list Quiz.Question) (st : Quiz.State)
    (es : list Quiz.Event) : bool :=
  match es with
  | [] => true
  | e :: rest =>
      (match e with
       | Quiz.Answer _ => Nat.eqb (Quiz.timers st) 0
       | _ => true
       end
       && answersOnce questions (Quiz.step questions st e) rest)%bool
  end.

(** The user clicks the first option [clicks] times within the second
    before the next question appears; then the timers run. *)
Definition hastyClicks (clicks : nat) : list Quiz.Event :=
  Quiz.Start :: repeat (Quiz.Answer 0) clicks ++ repeat Quiz.Timeout clicks.

(** What holds of the quiz as long as each question is answered once. *)
Definition quizInvariant (questions : list Quiz.Question) (st : Quiz.State)
    : Prop :=
  let total := List.length questions in
  (Quiz.timers st <= 1)%nat
  /\ (Quiz.currentQuestion st + Quiz.timers st <= total)%nat
  /\ 0 <= Quiz.score st
     <= Z.of_nat (Quiz.currentQuestion st + Quiz.timers st)
  /\ match Quiz.screen st with
     | Quiz.NotStarted => Quiz.currentQuestion st = 0%nat
     | Quiz.Asking q =>
         nth_error questions (Quiz.currentQuestion st) = Some q
     | Quiz.Complete s t => s = Quiz.score st /\ t = total
     end.

(** What holds of the extended quiz after any events. *)
Definition extendedQuizInvariant (questions : list ExtendedQuiz.Question)
    (st : ExtendedQuiz.State) : Prop :=
  let total := List.length questions in
  (ExtendedQuiz.currentQ st + ExtendedQuiz.timers st <= total)%nat
  /\ 0 <= ExtendedQuiz.score st
     <= Z.of_nat (ExtendedQuiz.currentQ st + ExtendedQuiz.timers st)
  /\ match ExtendedQuiz.screen st with
     | ExtendedQuiz.NotStarted =>
         ExtendedQuiz.currentQ st = 0%nat /\ ExtendedQuiz.timers st = 0%nat
         /\ ExtendedQuiz.addXP st = [] /\ ExtendedQuiz.addAchievement st = []
     | ExtendedQuiz.Asking q disabled =>
         nth_error questions (ExtendedQuiz.currentQ st) = Some q
         /\ ExtendedQuiz.timers st = (if disabled then 1 else 0)%nat
         /\ ExtendedQuiz.addXP st = [] /\ ExtendedQuiz.addAchievement st = []
     | ExtendedQuiz.Complete s t =>
         s = ExtendedQuiz.score st /\ t = total
         /\ ExtendedQuiz.timers st = 0%nat
         /\ ExtendedQuiz.addXP st = [s * 10]
         /\ ExtendedQuiz.addAchievement st
            = (if s =? Z.of_nat total then ["perfect_quiz"%string] else [])
     end.

(** ** The words of the insights *)

(** The last element of the array of suggestions. *)
Definition lastSuggestion (suggestions : list string) : string :=
  last suggestions EmptyString.

(** The bins drawn by the spectral chart: every eighth bin, [count] of
    them from bin [8 * first]. *)
Definition chartBins (first count : nat) : list nat :=
  map (fun k => (8 * k)%nat) (seq first count).

(** The number shown as the label of bin [i] of [n] bins. *)
Definition chartLabel (n i : nat) : jsnum :=
  jdiv (jmul (ofNat i) (Fin 22050)) (ofNat n).

(** ** The pitch panel *)

(** The count the histogram holds for a note, 0 when it has none. *)
Fixpoint countIn (histogram : PitchDisplay.Histogram) (note : Z) : Z :=
  match histogram with
  | [] => 0
  | (key, count) :: rest =>
      if key =? note then count else countIn rest note
  end.

(** How often a note occurs in a list of notes. *)
Definition occurrences (notes : list Z) (note : Z) : Z :=
  Z.of_nat (count_occ Z.eq_dec notes note).

(** A well-formed histogram: no key twice, every count positive. *)
Definition tidy (h : PitchDisplay.Histogram) : Prop :=
  NoDup (map fst h) /\ Forall (fun e => 0 < snd e) h.

(* ===================================================================== *)
(** * Properties *)
(* ===================================================================== *)

(** ** Facts about numbers and arrays *)

Lemma jlt_Fin (a b : Q) : jlt (Fin a) (Fin b) = true <-> (a < b)%Q.
Proof.
  simpl. rewrite negb_true_iff. split; intro H.
  - apply Qnot_le_lt. intro Hle. apply Qle_bool_iff in Hle. congruence.
  - destruct (Qle_bool b a) eqn:E; [|reflexivity].
    apply Qle_bool_iff in E. exfalso. apply (Qlt_not_le _ _ H E).
Qed.

Lemma jlt_Fin_false (a b : Q) : jlt (Fin a) (Fin b) = false <-> (b <= a)%Q.
Proof.
  simpl. rewrite negb_false_iff. apply Qle_bool_iff.
Qed.

Lemma jle_Fin (a b : Q) : jle (Fin a) (Fin b) = true <-> (a <= b)%Q.
Proof. simpl. apply Qle_bool_iff. Qed.

Lemma jle_Fin_false (a b : Q) : jle (Fin a) (Fin b) = false <-> (b < a)%Q.
Proof.
  simpl. split; intro H.
  - apply Qnot_le_lt. intro Hle. apply Qle_bool_iff in Hle. congruence.
  - destruct (Qle_bool a b) eqn:E; [|reflexivity].
    apply Qle_bool_iff in E. exfalso. apply (Qlt_not_le _ _ H E).
Qed.

Lemma slice_prefix {A : Type} (a : list A) (k : Z) :
  0 <= k -> slice a (ofZ 0) (ofZ k) = firstn (Z.to_nat k) a.
Proof.
  intro Hk. unfold slice, ofZ, relativeIndex.
  assert (H0 : Qle_bool 0 (inject_Z 0) = true) by reflexivity.
  assert (Hq : Qle_bool 0 (inject_Z k) = true).
  { apply Qle_bool_iff. change 0%Q with (inject_Z 0). now rewrite <- Zle_Qle. }
  rewrite H0, Hq, !Qfloor_Z.
  replace (0 <? 0) with false by reflexivity.
  destruct (k <? 0) eqn:E; [apply Z.ltb_lt in E; lia|].
  set (len := Z.of_nat (List.length a)).
  assert (Hlen : 0 <= len) by (unfold len; lia).
  replace (Z.min 0 len) with 0 by lia.
  rewrite Z.sub_0_r. cbn [Z.to_nat skipn].
  rewrite Z.max_l by lia.
  destruct (Z.le_ge_cases k len) as [Hle | Hge].
  - now rewrite Z.min_l by assumption.
  - rewrite Z.min_r by assumption.
    unfold len. rewrite Nat2Z.id.
    rewrite firstn_all. symmetry. apply firstn_all2. lia.
Qed.

(* ===================================================================== *)
(** ** Cultural matching *)
(* ===================================================================== *)

Lemma cultureScore_split (rhythmAnalysis : RhythmAnalysis.t)
    (scaleAnalysis : ScaleAnalysis.t) (culture : Culture.t) :
  cultureScore rhythmAnalysis scaleAnalysis culture
  = tempoPoints rhythmAnalysis (Culture.characteristics culture)
    + descriptorPoints rhythmAnalysis scaleAnalysis culture.
Proof.
  unfold cultureScore, descriptorPoints, tempoPoints, tempoDiff, avgTempo.
  cbv zeta.
  repeat match goal with
         | |- context [if ?b then _ else _] => destruct b
         end; lia.
Qed.

Lemma tempoPoints_range (rhythmAnalysis : RhythmAnalysis.t)
    (characteristics : Characteristics.t) :
  0 <= tempoPoints rhythmAnalysis characteristics <= 3.
Proof.
  unfold tempoPoints. cbv zeta.
  repeat match goal with
         | |- context [if ?b then _ else _] => destruct b
         end; lia.
Qed.

Lemma descriptorPoints_range (rhythmAnalysis : RhythmAnalysis.t)
    (scaleAnalysis : ScaleAnalysis.t) (culture : Culture.t) :
  0 <= descriptorPoints rhythmAnalysis scaleAnalysis culture <= 17.
Proof.
  unfold descriptorPoints. cbv zeta.
  repeat match goal with
         | |- context [if ?b then _ else _] => destruct b
         end; lia.
Qed.

(** A score lies between 0 and 20. *)
Lemma cultureScore_range (rhythmAnalysis : RhythmAnalysis.t)
    (scaleAnalysis : ScaleAnalysis.t) (culture : Culture.t) :
  0 <= cultureScore rhythmAnalysis scaleAnalysis culture <= 20.
Proof.
  rewrite cultureScore_split.
  pose proof (tempoPoints_range rhythmAnalysis
                (Culture.characteristics culture)).
  pose proof (descriptorPoints_range rhythmAnalysis scaleAnalysis culture).
  lia.
Qed.

(** The [if / else if] chain, read on the distance to the midpoint. *)
Lemma tempoPoints_tiers (rhythmAnalysis : RhythmAnalysis.t)
    (characteristics : Characteristics.t) (t m : Q) :
  RhythmAnalysis.tempo rhythmAnalysis = Fin t ->
  avgTempo characteristics = Fin m ->
  let points := tempoPoints rhythmAnalysis characteristics in
  ((Qabs (t - m) < 15)%Q -> points = 3)
  /\ ((15 <= Qabs (t - m))%Q -> (Qabs (t - m) < 30)%Q -> points = 2)
  /\ ((30 <= Qabs (t - m))%Q -> (Qabs (t - m) < 50)%Q -> points = 1)
  /\ ((50 <= Qabs (t - m))%Q -> points = 0).
Proof.
  intros Ht Hm points.
  assert (Hd : tempoDiff rhythmAnalysis characteristics = Fin (Qabs (t - m))).
  { unfold tempoDiff. rewrite Ht, Hm. reflexivity. }
  subst points. unfold tempoPoints. rewrite Hd. cbv zeta.
  set (d := Qabs (t - m)).
  destruct (jlt (Fin d) (Fin 15)) eqn:E15;
    [apply jlt_Fin in E15 | apply jlt_Fin_false in E15];
  (destruct (jlt (Fin d) (Fin 30)) eqn:E30;
    [apply jlt_Fin in E30 | apply jlt_Fin_false in E30]);
  (destruct (jlt (Fin d) (Fin 50)) eqn:E50;
    [apply jlt_Fin in E50 | apply jlt_Fin_false in E50]);
  repeat split; intros; try reflexivity; exfalso; lra.
Qed.

(** C3.  The tempo part of a culture's score is tiered on the distance
    between the detected tempo and [avgTempo], the midpoint of the
    record's tempo range: 3 points below 15, else 2 below 30, else 1
    below 50, else none; the score is this part plus the descriptor
    points. *)
Theorem tempo_points_tiered (rhythmAnalysis : RhythmAnalysis.t)
    (scaleAnalysis : ScaleAnalysis.t) (culture : Culture.t) (t m : Q) :
  RhythmAnalysis.tempo rhythmAnalysis = Fin t ->
  avgTempo (Culture.characteristics culture) = Fin m ->
  let points := tempoPoints rhythmAnalysis (Culture.characteristics culture) in
  cultureScore rhythmAnalysis scaleAnalysis culture
    = points + descriptorPoints rhythmAnalysis scaleAnalysis culture
  /\ ((Qabs (t - m) < 15)%Q -> points = 3)
  /\ ((15 <= Qabs (t - m))%Q -> (Qabs (t - m) < 30)%Q -> points = 2)
  /\ ((30 <= Qabs (t - m))%Q -> (Qabs (t - m) < 50)%Q -> points = 1)
  /\ ((50 <= Qabs (t - m))%Q -> points = 0).
Proof.
  intros Ht Hm points. split; [apply cultureScore_split|].
  now apply tempoPoints_tiers.
Qed.

(** A tempo range that [parseInt] cannot read, or a tempo that is not a
    number, gives no tempo points. *)
Lemma tempoPoints_unreadable (rhythmAnalysis : RhythmAnalysis.t)
    (characteristics : Characteristics.t) :
  avgTempo characteristics = NaN \/ RhythmAnalysis.tempo rhythmAnalysis = NaN ->
  tempoPoints rhythmAnalysis characteristics = 0.
Proof.
  intro H. unfold tempoPoints, tempoDiff.
  destruct H as [-> | ->]; [|reflexivity].
  destruct (RhythmAnalysis.tempo rhythmAnalysis); reflexivity.
Qed.

(** *** Reading a tempo range *)

Lemma parseDigits_uint (d : Decimal.uint) (acc : nat) :
  parseDigits 10 (Some (Z.of_nat acc)) (DecimalString.NilEmpty.string_of_uint d)
  = Some (Z.of_nat (Nat.of_uint_acc d acc)).
Proof.
  revert acc.
  induction d as [| d IH | d IH | d IH | d IH | d IH | d IH | d IH | d IH
                  | d IH | d IH]; intro acc; [reflexivity | ..];
    cbn [DecimalString.NilEmpty.string_of_uint parseDigits Nat.of_uint_acc];
    match goal with
    | |- context [digitVal ?c] =>
        let v := eval vm_compute in (digitVal c) in
        change (digitVal c) with v
    end;
    cbv iota;
    match goal with
    | |- context [(?x <? 10)] => change (x <? 10) with true
    end;
    cbv iota; rewrite <- IH; do 2 f_equal;
    rewrite Nat.tail_mul_spec; lia.
Qed.

Lemma parseDigits_uint_start (d : Decimal.uint) :
  d <> Decimal.Nil ->
  parseDigits 10 None (DecimalString.NilEmpty.string_of_uint d)
  = Some (Z.of_nat (Nat.of_uint d)).
Proof.
  intro Hd. unfold Nat.of_uint.
  destruct d; [contradiction | ..];
    cbn [DecimalString.NilEmpty.string_of_uint parseDigits Nat.of_uint_acc];
    match goal with
    | |- context [digitVal ?c] =>
        let v := eval vm_compute in (digitVal c) in
        change (digitVal c) with v
    end;
    cbv iota;
    match goal with
    | |- context [(?x <? 10)] => change (x <? 10) with true
    end;
    cbv iota;
    match goal with
    | |- parseDigits 10 (Some ?z) _ = _ =>
        exact (parseDigits_uint d (Z.to_nat z))
    end.
Qed.

(** A string that starts with neither white space, a sign nor [0x] is
    read as decimal digits. *)
Lemma parseInt_plain (c : ascii) (rest : string) :
  isSpace c = false ->
  Ascii.eqb c "-" = false -> Ascii.eqb c "+" = false ->
  (forall c1 tail, rest = String c1 tail ->
     (Ascii.eqb c "0" && (Ascii.eqb c1 "x" || Ascii.eqb c1 "X"))%bool = false) ->
  parseInt (String c rest)
  = match parseDigits 10 None (String c rest) with
    | Some n => ofZ (1 * n)
    | None => NaN
    end.
Proof.
  intros Hspace Hminus Hplus Hhex. unfold parseInt.
  cbn [skipSpaces]. rewrite Hspace, Hminus, Hplus.
  destruct rest as [| c1 tail]; [reflexivity|].
  now rewrite (Hhex c1 tail eq_refl).
Qed.

Lemma parseInt_uint (d : Decimal.uint) :
  d <> Decimal.Nil ->
  parseInt (DecimalString.NilEmpty.string_of_uint d)
  = ofZ (Z.of_nat (Nat.of_uint d)).
Proof.
  intro Hd.
  assert (H : parseInt (DecimalString.NilEmpty.string_of_uint d)
              = match parseDigits 10 None
                        (DecimalString.NilEmpty.string_of_uint d) with
                | Some n => ofZ (1 * n)
                | None => NaN
                end).
  { destruct d as [| d | d | d | d | d | d | d | d | d | d];
      [contradiction | ..];
      cbn [DecimalString.NilEmpty.string_of_uint];
      (apply parseInt_plain;
       [ reflexivity | reflexivity | reflexivity
       | intros c1 tail Heq; destruct d; try discriminate Heq;
         injection Heq as <- _; reflexivity ]). }
  rewrite H, parseDigits_uint_start by assumption.
  now rewrite Z.mul_1_l.
Qed.

Lemma parseInt_decimal (n : nat) : parseInt (decimal n) = ofZ (Z.of_nat n).
Proof.
  unfold decimal.
  rewrite <- (DecimalNat.Unsigned.of_to n) at 2.
  destruct (Nat.to_uint n) as [| d | d | d | d | d | d | d | d | d | d] eqn:E;
    [reflexivity | ..];
    apply parseInt_uint; discriminate.
Qed.

(** Decimal digits hold no hyphen, so a range splits at its hyphen. *)
Lemma split_uint (d : Decimal.uint) (rest : string) :
  split "-" (String.append (DecimalString.NilEmpty.string_of_uint d) rest)
  = match split "-" rest with
    | piece :: pieces =>
        String.append (DecimalString.NilEmpty.string_of_uint d) piece :: pieces
    | [] => [DecimalString.NilEmpty.string_of_uint d]
    end.
Proof.
  induction d as [| d IH | d IH | d IH | d IH | d IH | d IH | d IH | d IH
                  | d IH | d IH];
    cbn [DecimalString.NilEmpty.string_of_uint String.append split].
  - destruct (split "-" rest) eqn:E; [|reflexivity].
    destruct rest; cbn in E; try discriminate.
    destruct (Ascii.eqb a "-"); [discriminate|].
    destruct (split "-" rest); discriminate.
  - change (Ascii.eqb "0" "-") with false. cbv iota. rewrite IH.
    destruct (split "-" rest); reflexivity.
  - change (Ascii.eqb "1" "-") with false. cbv iota. rewrite IH.
    destruct (split "-" rest); reflexivity.
  - change (Ascii.eqb "2" "-") with false. cbv iota. rewrite IH.
    destruct (split "-" rest); reflexivity.
  - change (Ascii.eqb "3" "-") with false. cbv iota. rewrite IH.
    destruct (split "-" rest); reflexivity.
  - change (Ascii.eqb "4" "-") with false. cbv iota. rewrite IH.
    destruct (split "-" rest); reflexivity.
  - change (Ascii.eqb "5" "-") with false. cbv iota. rewrite IH.
    destruct (split "-" rest); reflexivity.
  - change (Ascii.eqb "6" "-") with false. cbv iota. rewrite IH.
    destruct (split "-" rest); reflexivity.
  - change (Ascii.eqb "7" "-") with false. cbv iota. rewrite IH.
    destruct (split "-" rest); reflexivity.
  - change (Ascii.eqb "8" "-") with false. cbv iota. rewrite IH.
    destruct (split "-" rest); reflexivity.
  - change (Ascii.eqb "9" "-") with false. cbv iota. rewrite IH.
    destruct (split "-" rest); reflexivity.
Qed.

Lemma decimal_uint (n : nat) :
  exists d, d <> Decimal.Nil
            /\ decimal n = DecimalString.NilEmpty.string_of_uint d
            /\ Nat.of_uint d = n.
Proof.
  unfold decimal. pose proof (DecimalNat.Unsigned.of_to n) as Hn.
  destruct (Nat.to_uint n) as [| d | d | d | d | d | d | d | d | d | d] eqn:E.
  - exists (Decimal.D0 Decimal.Nil). repeat split; [discriminate | exact Hn].
  - eexists; repeat split; [discriminate | exact Hn].
  - eexists; repeat split; [discriminate | exact Hn].
  - eexists; repeat split; [discriminate | exact Hn].
  - eexists; repeat split; [discriminate | exact Hn].
  - eexists; repeat split; [discriminate | exact Hn].
  - eexists; repeat split; [discriminate | exact Hn].
  - eexists; repeat split; [discriminate | exact Hn].
  - eexists; repeat split; [discriminate | exact Hn].
  - eexists; repeat split; [discriminate | exact Hn].
  - eexists; repeat split; [discriminate | exact Hn].
Qed.

Lemma append_empty_r (s : string) : String.append s EmptyString = s.
Proof.
  induction s as [| c s IH]; [reflexivity|]. cbn. now rewrite IH.
Qed.

Lemma split_rangeText (lo hi : nat) :
  split "-" (rangeText lo hi) = [decimal lo; decimal hi].
Proof.
  unfold rangeText.
  destruct (decimal_uint lo) as (dl & _ & -> & _).
  destruct (decimal_uint hi) as (dh & _ & -> & _).
  rewrite split_uint. cbn [split]. change (Ascii.eqb "-" "-") with true.
  cbv iota.
  pose proof (split_uint dh EmptyString) as Hhi.
  rewrite append_empty_r in Hhi. cbn [split] in Hhi.
  rewrite append_empty_r in Hhi.
  now rewrite Hhi, append_empty_r.
Qed.

(** For a range written [lo-hi], [avgTempo] is the midpoint
    [(lo + hi) / 2]. *)
Lemma avgTempo_midpoint (lo hi : nat) (rhythm scales : string) :
  avgTempo (Characteristics.mk (rangeText lo hi) rhythm scales)
  = Fin ((inject_Z (Z.of_nat lo) + inject_Z (Z.of_nat hi)) / 2).
Proof.
  unfold avgTempo. cbn [Characteristics.tempo].
  rewrite split_rangeText. cbn [map numAt nth].
  rewrite !parseInt_decimal. reflexivity.
Qed.

(** The tiers for a record whose range is written [lo-hi]: the distance
    is taken to [(lo + hi) / 2]. *)
Lemma tempoPoints_declared_range (rhythmAnalysis : RhythmAnalysis.t)
    (lo hi : nat) (rhythm scales : string) (t : Q) :
  RhythmAnalysis.tempo rhythmAnalysis = Fin t ->
  let m := ((inject_Z (Z.of_nat lo) + inject_Z (Z.of_nat hi)) / 2)%Q in
  let points := tempoPoints rhythmAnalysis
                  (Characteristics.mk (rangeText lo hi) rhythm scales) in
  ((Qabs (t - m) < 15)%Q -> points = 3)
  /\ ((15 <= Qabs (t - m))%Q -> (Qabs (t - m) < 30)%Q -> points = 2)
  /\ ((30 <= Qabs (t - m))%Q -> (Qabs (t - m) < 50)%Q -> points = 1)
  /\ ((50 <= Qabs (t - m))%Q -> points = 0).
Proof.
  intros Ht m points.
  apply tempoPoints_tiers; [exact Ht | apply avgTempo_midpoint].
Qed.

Example avgTempo_60_120 :
  avgTempo (Characteristics.mk "60-120" "Steady" "Major") ~= Fin 90.
Proof. reflexivity. Qed.

Example avgTempo_with_unit :
  avgTempo (Characteristics.mk "80-140 BPM" "Steady" "Major") ~= Fin 110.
Proof. reflexivity. Qed.

Example avgTempo_no_range :
  avgTempo (Characteristics.mk "Variable" "Free" "Modal") = NaN.
Proof. reflexivity. Qed.

(** *** The sort *)

Section SortFacts.

Context {A : Type} (key : A -> Z).

Let cmp (a b : A) : Z := key b - key a.

Lemma insertBy_In (x y : A) (l : list A) :
  In y (insertBy cmp x l) <-> y = x \/ In y l.
Proof.
  induction l as [| z l IH]; simpl.
  - intuition.
  - destruct (cmp x z <=? 0); simpl; [intuition|].
    rewrite IH. intuition.
Qed.

Lemma sortBy_In (y : A) (l : list A) : In y (sortBy cmp l) <-> In y l.
Proof.
  induction l as [| x l IH]; simpl; [tauto|].
  rewrite insertBy_In, IH. intuition.
Qed.

Lemma insertBy_length (x : A) (l : list A) :
  List.length (insertBy cmp x l) = S (List.length l).
Proof.
  induction l as [| z l IH]; simpl; [reflexivity|].
  destruct (cmp x z <=? 0); simpl; [reflexivity|]. now rewrite IH.
Qed.

Lemma sortBy_length (l : list A) :
  List.length (sortBy cmp l) = List.length l.
Proof.
  induction l as [| x l IH]; simpl; [reflexivity|].
  now rewrite insertBy_length, IH.
Qed.

(** Inserting keeps a list ordered by descending key. *)
Lemma insertBy_sorted (x : A) (l : list A) :
  StronglySorted (fun a b => key b <= key a) l ->
  StronglySorted (fun a b => key b <= key a) (insertBy cmp x l).
Proof.
  induction l as [| z l IH]; simpl; intro Hs.
  - constructor; constructor.
  - apply StronglySorted_inv in Hs. destruct Hs as [Hl Hz].
    destruct (cmp x z <=? 0) eqn:E.
    + apply Z.leb_le in E. unfold cmp in E.
      constructor; [constructor; assumption|].
      constructor; [lia|].
      rewrite Forall_forall in *. intros b Hb. specialize (Hz b Hb). lia.
    + apply Z.leb_gt in E. unfold cmp in E.
      constructor; [apply IH; assumption|].
      rewrite Forall_forall in *. intros b Hb.
      apply insertBy_In in Hb. destruct Hb as [-> | Hb]; [lia | auto].
Qed.

Lemma sortBy_sorted (l : list A) :
  StronglySorted (fun a b => key b <= key a) (sortBy cmp l).
Proof.
  induction l as [| x l IH]; simpl; [constructor|].
  now apply insertBy_sorted.
Qed.

(** Inserting [x] puts it at the head of the elements with its key and
    leaves the elements with any other key as they were. *)
Lemma insertBy_filter (x : A) (l : list A) (v : Z) :
  StronglySorted (fun a b => key b <= key a) l ->
  filter (fun a => key a =? v) (insertBy cmp x l)
  = filter (fun a => key a =? v) (x :: l).
Proof.
  induction l as [| z l IH]; intro Hs; [reflexivity|].
  apply StronglySorted_inv in Hs. destruct Hs as [Hl Hz].
  cbn [insertBy]. destruct (cmp x z <=? 0) eqn:E; [reflexivity|].
  apply Z.leb_gt in E. unfold cmp in E.
  cbn [filter]. rewrite (IH Hl). cbn [filter].
  destruct (key x =? v) eqn:Ex, (key z =? v) eqn:Ez; try reflexivity.
  apply Z.eqb_eq in Ex, Ez. lia.
Qed.

Lemma sortBy_filter (l : list A) (v : Z) :
  filter (fun a => key a =? v) (sortBy cmp l)
  = filter (fun a => key a =? v) l.
Proof.
  induction l as [| x l IH]; [reflexivity|].
  cbn [sortBy]. rewrite insertBy_filter by apply sortBy_sorted.
  cbn [filter]. now rewrite IH.
Qed.

(** Two lists ordered by descending key whose elements of each key
    agree are the same list. *)
Lemma sorted_classes_unique (l1 l2 : list A) :
  StronglySorted (fun a b => key b <= key a) l1 ->
  StronglySorted (fun a b => key b <= key a) l2 ->
  (forall v, filter (fun a => key a =? v) l1
             = filter (fun a => key a =? v) l2) ->
  l1 = l2.
Proof.
  revert l2. induction l1 as [| x l1 IH]; intros l2 Hs1 Hs2 Hf.
  - destruct l2 as [| y l2]; [reflexivity|].
    specialize (Hf (key y)). cbn [filter] in Hf.
    rewrite Z.eqb_refl in Hf. discriminate.
  - destruct l2 as [| y l2].
    + specialize (Hf (key x)). cbn [filter] in Hf.
      rewrite Z.eqb_refl in Hf. discriminate.
    + apply StronglySorted_inv in Hs1, Hs2.
      destruct Hs1 as [Hs1 Hx], Hs2 as [Hs2 Hy].
      rewrite Forall_forall in Hx, Hy.
      assert (Hin : forall (l l' : list A) a,
                 (forall v, filter (fun a => key a =? v) l
                            = filter (fun a => key a =? v) l') ->
                 In a l -> In a l').
      { intros l l' a H Ha.
        assert (Hfa : In a (filter (fun b => key b =? key a) l)).
        { apply filter_In. split; [assumption | apply Z.eqb_refl]. }
        rewrite H in Hfa. now apply filter_In in Hfa. }
      assert (Hxy : key x = key y).
      { assert (H1 : In x (y :: l2)) by (apply (Hin _ _ _ Hf); now left).
        assert (H2 : In y (x :: l1)).
        { apply (Hin (y :: l2) (x :: l1));
            [intro v; symmetry; apply Hf | now left]. }
        destruct H1 as [-> | H1]; [reflexivity|].
        destruct H2 as [<- | H2]; [reflexivity|].
        specialize (Hx _ H2). specialize (Hy _ H1). lia. }
      assert (Heq : x = y).
      { specialize (Hf (key x)). cbn [filter] in Hf.
        rewrite <- Hxy, Z.eqb_refl in Hf. congruence. }
      subst y. f_equal. apply IH; try assumption.
      intro v. specialize (Hf v). cbn [filter] in Hf.
      destruct (key x =? v); congruence.
Qed.

End SortFacts.

Lemma firstn_subset {A : Type} (n : nat) (l : list A) (a : A) :
  In a (firstn n l) -> In a l.
Proof.
  revert l. induction n as [| n IH]; intros [| x l]; simpl; try tauto.
  intros [-> | H]; [now left | right; now apply IH].
Qed.

Lemma firstn_StronglySorted {A : Type} (R : A -> A -> Prop) (n : nat)
    (l : list A) :
  StronglySorted R l -> StronglySorted R (firstn n l).
Proof.
  revert l. induction n as [| n IH]; intros [| x l] Hs; simpl;
    try constructor.
  - apply IH. now apply StronglySorted_inv in Hs.
  - apply StronglySorted_inv in Hs. destruct Hs as [_ Hx].
    rewrite Forall_forall in *. intros b Hb. apply Hx.
    now apply firstn_subset in Hb.
Qed.

Lemma StronglySorted_weaken {A : Type} (R R' : A -> A -> Prop) (l : list A) :
  (forall a b, R a b -> R' a b) ->
  StronglySorted R l -> StronglySorted R' l.
Proof.
  intros Himp Hs. induction Hs as [| a l Hs IH Ha]; constructor; auto.
  eapply Forall_impl; [| exact Ha]. intros b. apply Himp.
Qed.

(** Sorting commutes with a projection the comparator factors through. *)
Lemma sortBy_map {A B : Type} (f : B -> A) (cmp : A -> A -> Z) (l : list B) :
  map f (sortBy (fun x y => cmp (f x) (f y)) l) = sortBy cmp (map f l).
Proof.
  induction l as [| x l IH]; [reflexivity|].
  cbn [sortBy map]. rewrite <- IH.
  generalize (sortBy (fun x y => cmp (f x) (f y)) l). intro s.
  induction s as [| z s IHs]; [reflexivity|].
  cbn [insertBy map]. destruct (cmp (f x) (f z) <=? 0); [reflexivity|].
  cbn [map]. now rewrite IHs.
Qed.

Section Ranking.

Let key (x : nat * Match) : Z := score (snd x).
Let cmpTagged (x y : nat * Match) : Z := key y - key x.

(** Inserting an element whose table position precedes every position
    in a ranked list keeps the list ranked. *)
Lemma insertBy_ranked (x : nat * Match) (l : list (nat * Match)) :
  StronglySorted rankedBefore l ->
  Forall (fun z => (fst x < fst z)%nat) l ->
  StronglySorted rankedBefore (insertBy cmpTagged x l).
Proof.
  induction l as [| z l IH]; intros Hs Hpos.
  - constructor; constructor.
  - apply StronglySorted_inv in Hs. destruct Hs as [Hl Hz].
    inversion Hpos as [| ? ? Hxz Hxl]; subst.
    cbn [insertBy]. destruct (cmpTagged x z <=? 0) eqn:E.
    + apply Z.leb_le in E. unfold cmpTagged, key in E.
      constructor; [constructor; assumption|].
      constructor.
      * unfold rankedBefore. lia.
      * rewrite Forall_forall in *. intros b Hb.
        specialize (Hz b Hb). specialize (Hxl b Hb).
        unfold rankedBefore in *. lia.
    + apply Z.leb_gt in E. unfold cmpTagged, key in E.
      constructor; [now apply IH|].
      rewrite Forall_forall in *. intros b Hb.
      apply (insertBy_In key) in Hb. destruct Hb as [-> | Hb]; [|auto].
      unfold rankedBefore. lia.
Qed.

Lemma sortBy_ranked (l : list (nat * Match)) :
  StronglySorted lt (map fst l) ->
  StronglySorted rankedBefore (sortBy cmpTagged l).
Proof.
  induction l as [| x l IH]; intro Hs; [constructor|].
  cbn [map] in Hs. apply StronglySorted_inv in Hs. destruct Hs as [Hl Hx].
  cbn [sortBy]. apply insertBy_ranked; [now apply IH|].
  rewrite Forall_forall in *. intros z Hz.
  apply (proj1 (sortBy_In key z l)) in Hz. apply Hx. now apply in_map.
Qed.

End Ranking.

(** The [forEach] loop keeps, in table order, the cultures with a
    positive score. *)
Lemma culturalMatches_filter (rhythmAnalysis : RhythmAnalysis.t)
    (scaleAnalysis : ScaleAnalysis.t) (allCultures : list Culture.t) :
  let scoreOf := cultureScore rhythmAnalysis scaleAnalysis in
  culturalMatches rhythmAnalysis scaleAnalysis allCultures
  = map (fun c => mkMatch c (scoreOf c))
        (filter (fun c => 0 <? scoreOf c) allCultures).
Proof.
  intro scoreOf. unfold culturalMatches.
  assert (H : forall acc,
    fold_left
      (fun matches culture =>
         let score := cultureScore rhythmAnalysis scaleAnalysis culture in
         if 0 <? score then matches ++ [mkMatch culture score] else matches)
      allCultures acc
    = acc ++ map (fun c => mkMatch c (scoreOf c))
                 (filter (fun c => 0 <? scoreOf c) allCultures)).
  { induction allCultures as [| c rest IH]; intro acc; cbn [fold_left filter].
    - now rewrite app_nil_r.
    - rewrite IH. cbv zeta. fold (scoreOf c).
      destruct (0 <? scoreOf c); [|reflexivity].
      cbn [map]. now rewrite <- app_assoc. }
  apply (H []).
Qed.

Lemma taggedMatches_forget (rhythmAnalysis : RhythmAnalysis.t)
    (scaleAnalysis : ScaleAnalysis.t) (start : nat)
    (allCultures : list Culture.t) :
  map snd (taggedMatches rhythmAnalysis scaleAnalysis start allCultures)
  = culturalMatches rhythmAnalysis scaleAnalysis allCultures.
Proof.
  rewrite culturalMatches_filter. unfold taggedMatches. cbv zeta.
  set (scoreOf := cultureScore rhythmAnalysis scaleAnalysis).
  revert start. induction allCultures as [| c rest IH]; intro start;
    [reflexivity|].
  cbn [List.length seq combine filter snd].
  destruct (0 <? scoreOf c); cbn [map snd]; now rewrite IH.
Qed.

Lemma taggedMatches_spec (rhythmAnalysis : RhythmAnalysis.t)
    (scaleAnalysis : ScaleAnalysis.t) (start : nat)
    (allCultures : list Culture.t) (i : nat) (m : Match) :
  In (i, m) (taggedMatches rhythmAnalysis scaleAnalysis start allCultures) ->
  (start <= i)%nat
  /\ nth_error allCultures (i - start) = Some (culture m)
  /\ score m = cultureScore rhythmAnalysis scaleAnalysis (culture m)
  /\ 0 < score m.
Proof.
  unfold taggedMatches. cbv zeta.
  set (scoreOf := cultureScore rhythmAnalysis scaleAnalysis).
  revert start. induction allCultures as [| c rest IH]; intro start;
    [intros []|].
  cbn [List.length seq combine filter snd].
  destruct (0 <? scoreOf c) eqn:E; cbn [map In fst snd].
  - intros [Heq | Hin].
    + inversion Heq; subst. rewrite Nat.sub_diag. cbn.
      apply Z.ltb_lt in E. auto.
    + destruct (IH _ Hin) as (Hle & Hnth & Hs & Hpos).
      replace (i - start)%nat with (S (i - S start)) by lia.
      cbn. repeat split; auto; lia.
  - intro Hin. destruct (IH _ Hin) as (Hle & Hnth & Hs & Hpos).
    replace (i - start)%nat with (S (i - S start)) by lia.
    cbn. repeat split; auto; lia.
Qed.

Lemma taggedMatches_increasing (rhythmAnalysis : RhythmAnalysis.t)
    (scaleAnalysis : ScaleAnalysis.t) (start : nat)
    (allCultures : list Culture.t) :
  StronglySorted lt
    (map fst (taggedMatches rhythmAnalysis scaleAnalysis start allCultures)).
Proof.
  revert start. induction allCultures as [| c rest IH]; intro start;
    [constructor|].
  assert (Htail : forall j,
            In j (map fst (taggedMatches rhythmAnalysis scaleAnalysis
                             (S start) rest)) ->
            (start < j)%nat).
  { intros j Hj. apply in_map_iff in Hj. destruct Hj as ([i m] & <- & Hin).
    apply taggedMatches_spec in Hin. cbn. lia. }
  unfold taggedMatches in *. cbv zeta in *.
  cbn [List.length seq combine filter snd].
  destruct (0 <? cultureScore rhythmAnalysis scaleAnalysis c);
    cbn [map fst]; [|apply IH].
  constructor; [apply IH|]. rewrite Forall_forall. exact Htail.
Qed.

Lemma topMatches_firstn (rhythmAnalysis : RhythmAnalysis.t)
    (scaleAnalysis : ScaleAnalysis.t) (allCultures : list Culture.t) :
  topMatches rhythmAnalysis scaleAnalysis allCultures
  = firstn 5 (sortBy byScoreDesc
                (culturalMatches rhythmAnalysis scaleAnalysis allCultures)).
Proof. unfold topMatches. now rewrite slice_prefix by lia. Qed.

(** C1.  The result of the matching step holds only entries with a score
    above 0, has at most 5 entries, is in descending order of score, and
    entries of equal score stand in the order of their cultures in the
    table: the entries can be tagged with distinct table positions so that
    each earlier entry has a higher score than a later one, or the same
    score and an earlier position. *)
Theorem topMatches_invariant (rhythmAnalysis : RhythmAnalysis.t)
    (scaleAnalysis : ScaleAnalysis.t) (allCultures : list Culture.t) :
  let result := topMatches rhythmAnalysis scaleAnalysis allCultures in
  Forall (fun m => 0 < score m) result
  /\ (List.length result <= 5)%nat
  /\ StronglySorted (fun a b => score b <= score a) result
  /\ exists tagged : list (nat * Match),
       map snd tagged = result
       /\ (forall i m, In (i, m) tagged ->
             nth_error allCultures i = Some (culture m)
             /\ score m = cultureScore rhythmAnalysis scaleAnalysis (culture m))
       /\ StronglySorted rankedBefore tagged.
Proof.
  intro result. subst result. rewrite topMatches_firstn.
  set (matches := culturalMatches rhythmAnalysis scaleAnalysis allCultures).
  set (tm := taggedMatches rhythmAnalysis scaleAnalysis 0 allCultures).
  assert (Hpos : forall m, In m matches -> 0 < score m).
  { intros m Hm. unfold matches in Hm.
    rewrite <- (taggedMatches_forget _ _ 0) in Hm.
    apply in_map_iff in Hm. destruct Hm as ([i m'] & <- & Hin).
    now apply taggedMatches_spec in Hin. }
  repeat split.
  - rewrite Forall_forall. intros m Hm. apply Hpos.
    apply firstn_subset in Hm. now apply (proj1 (sortBy_In score _ _)) in Hm.
  - apply firstn_le_length.
  - apply firstn_StronglySorted. apply (sortBy_sorted score).
  - exists (firstn 5 (sortBy (fun x y => byScoreDesc (snd x) (snd y)) tm)).
    repeat split.
    + rewrite <- firstn_map, sortBy_map. unfold tm.
      now rewrite taggedMatches_forget.
    + apply firstn_subset in H.
      apply (proj1 (sortBy_In (fun x : nat * Match => score (snd x)) _ _)) in H.
      apply taggedMatches_spec in H. rewrite Nat.sub_0_r in H. tauto.
    + apply firstn_subset in H.
      apply (proj1 (sortBy_In (fun x : nat * Match => score (snd x)) _ _)) in H.
      apply taggedMatches_spec in H. tauto.
    + apply firstn_StronglySorted. apply sortBy_ranked.
      apply taggedMatches_increasing.
Qed.

(** The executable model keeps the contract of the sort. *)
Lemma sortBy_contract (input : list Match) :
  SortContract input (sortBy byScoreDesc input).
Proof.
  split.
  - eapply StronglySorted_weaken; [| apply (sortBy_sorted score)].
    intros a b H. unfold byScoreDesc. cbn beta in H. lia.
  - intro v. apply (sortBy_filter score).
Qed.

Lemma SortContract_unique (input out1 out2 : list Match) :
  SortContract input out1 -> SortContract input out2 -> out1 = out2.
Proof.
  intros [Hs1 Hf1] [Hs2 Hf2].
  apply (sorted_classes_unique score).
  - eapply StronglySorted_weaken; [| exact Hs1].
    intros a b H. unfold byScoreDesc in H. cbn beta in *. lia.
  - eapply StronglySorted_weaken; [| exact Hs2].
    intros a b H. unfold byScoreDesc in H. cbn beta in *. lia.
  - intro v. now rewrite Hf1, Hf2.
Qed.

Lemma topMatches_run (rhythmAnalysis : RhythmAnalysis.t)
    (scaleAnalysis : ScaleAnalysis.t) (allCultures : list Culture.t) :
  matchCulturesRun rhythmAnalysis scaleAnalysis allCultures
    (topMatches rhythmAnalysis scaleAnalysis allCultures).
Proof.
  eexists. split; [apply sortBy_contract | reflexivity].
Qed.

(** C7.  Two runs of the matching step on identical rhythm analysis,
    scale analysis and culture table produce the same ordered result,
    whatever sort the engine uses within the contract of
    [Array.prototype.sort]; that result is [topMatches]. *)
Theorem matching_deterministic
    (rhythm1 rhythm2 : RhythmAnalysis.t) (scale1 scale2 : ScaleAnalysis.t)
    (table1 table2 : list Culture.t) (result1 result2 : list Match) :
  rhythm1 = rhythm2 -> scale1 = scale2 -> table1 = table2 ->
  matchCulturesRun rhythm1 scale1 table1 result1 ->
  matchCulturesRun rhythm2 scale2 table2 result2 ->
  result1 = result2 /\ result1 = topMatches rhythm1 scale1 table1.
Proof.
  intros <- <- <- (s1 & Hc1 & ->) (s2 & Hc2 & ->).
  rewrite (SortContract_unique _ _ _ Hc1 Hc2).
  split; [reflexivity|].
  unfold topMatches.
  now rewrite (SortContract_unique _ _ _ Hc2 (sortBy_contract _)).
Qed.

(** *** Concrete runs *)

Example sampleCulture_score :
  cultureScore sampleRhythm sampleScale sampleCulture = 18.
Proof. reflexivity. Qed.

Example topMatches_ties_in_table_order :
  map (fun m => (Culture.name (culture m), score m))
      (topMatches sampleRhythm sampleScale
         [slowCulture; sampleCulture; slowCulture; sampleCulture])
  = [("Sample tradition"%string, 18); ("Sample tradition"%string, 18);
     ("Slow tradition"%string, 2); ("Slow tradition"%string, 2)].
Proof. reflexivity. Qed.

Lemma tempo_points_tiered_witness :
  RhythmAnalysis.tempo sampleRhythm = Fin 110
  /\ avgTempo (Culture.characteristics sampleCulture) = Fin (220 # 2)
  /\ tempoPoints sampleRhythm (Culture.characteristics sampleCulture) = 3.
Proof.
  split; [reflexivity|]. split; [reflexivity|].
  apply (tempo_points_tiered sampleRhythm sampleScale sampleCulture
           110 (220 # 2) eq_refl eq_refl).
  reflexivity.
Defined.

Lemma matching_deterministic_witness :
  topMatches sampleRhythm sampleScale [slowCulture; sampleCulture]
  = topMatches sampleRhythm sampleScale [slowCulture; sampleCulture].
Proof.
  apply (matching_deterministic sampleRhythm sampleRhythm
           sampleScale sampleScale
           [slowCulture; sampleCulture] [slowCulture; sampleCulture]
           _ _ eq_refl eq_refl eq_refl
           (topMatches_run _ _ _) (topMatches_run _ _ _)).
Defined.

(** C10.  Some inputs give a culture a score above 10, although the score
    is shown as a score out of 10: a scale name with both [Pentatonic] and
    [Minor] earns both scale bonuses, and a rhythm that is regular above
    0.7 and polyrhythmic earns the descriptor bonuses together. *)
Theorem score_can_exceed_ten :
  exists (rhythmAnalysis : RhythmAnalysis.t) (scaleAnalysis : ScaleAnalysis.t)
         (culture : Culture.t),
    includes (ScaleAnalysis.scale scaleAnalysis) "Pentatonic" = true
    /\ includes (ScaleAnalysis.scale scaleAnalysis) "Minor" = true
    /\ jgt (RhythmAnalysis.regularity rhythmAnalysis) (Fin (7 # 10)) = true
    /\ RhythmAnalysis.polyrhythmic rhythmAnalysis = true
    /\ 10 < cultureScore rhythmAnalysis scaleAnalysis culture
    /\ exists m,
         topMatches rhythmAnalysis scaleAnalysis [culture] = [m]
         /\ score m = cultureScore rhythmAnalysis scaleAnalysis culture
         /\ matchScoreText m = "18/10"%string.
Proof.
  exists sampleRhythm, sampleScale, sampleCulture.
  repeat split.
  exists (mkMatch sampleCulture 18). repeat split.
Qed.

(* ===================================================================== *)
(** ** Spectral analysis *)
(* ===================================================================== *)

Section SpectralFacts.

Lemma windowLoop_short (remaining : nat) (channelData : list jsnum)
    (acc : list (list jsnum)) :
  (List.length channelData <= 2048)%nat ->
  windowLoop remaining channelData 0 acc = acc.
Proof.
  intro Hlen. destruct remaining as [| k]; [reflexivity|].
  cbn [windowLoop]. unfold fftSize.
  destruct (0 <? Z.of_nat (List.length channelData) - 2048) eqn:E;
    [apply Z.ltb_lt in E; lia | reflexivity].
Qed.

Lemma averageSpectrum_empty :
  averageSpectrum [] = repeat NaN 1024.
Proof. reflexivity. Qed.

(** Over a spectrum of [NaN]s both sums of the centroid loop are [NaN],
    or still at their start when the spectrum is empty. *)
Lemma centroidLoop_nan (n : nat) (sampleRate : jsnum) (k i : nat)
    (weightedSum sum : jsnum) :
  sum = NaN \/ sum = Fin 0 ->
  let '(_, s) := centroidLoop n sampleRate i (repeat NaN k) weightedSum sum in
  s = NaN \/ s = Fin 0.
Proof.
  revert i weightedSum sum. induction k as [| k IH]; intros i w s Hs.
  - exact Hs.
  - cbn [repeat centroidLoop]. apply IH. left.
    destruct Hs as [-> | ->]; reflexivity.
Qed.

Lemma centroid_nan (k : nat) (sampleRate : jsnum) :
  calculateSpectralCentroid (repeat NaN k) sampleRate = Fin 0.
Proof.
  unfold calculateSpectralCentroid.
  pose proof (centroidLoop_nan (List.length (repeat NaN k)) sampleRate k 0
                (Fin 0) (Fin 0) (or_intror eq_refl)) as H.
  destruct (centroidLoop _ _ _ _ _ _) as [w s].
  destruct H as [-> | ->]; reflexivity.
Qed.

Lemma rolloffLoop_nan (n : nat) (sampleRate threshold : jsnum) (k i : nat)
    (cumulativeEnergy : jsnum) :
  rolloffLoop n sampleRate threshold i (repeat NaN k) cumulativeEnergy
  = Fin 0.
Proof.
  revert i cumulativeEnergy. induction k as [| k IH]; intros i c;
    [reflexivity|].
  cbn [repeat rolloffLoop numAdd numGe exact].
  replace (jadd c NaN) with NaN by (destruct c; reflexivity).
  replace (jge NaN threshold) with false by (destruct threshold; reflexivity).
  apply IH.
Qed.

Lemma rolloff_nan (k : nat) (sampleRate : jsnum) :
  calculateSpectralRolloff (repeat NaN k) sampleRate = Fin 0.
Proof. unfold calculateSpectralRolloff. apply rolloffLoop_nan. Qed.

Lemma zero_over_half_rate (sampleRate : jsnum) :
  jlt (Fin 0) sampleRate = true ->
  jdiv (Fin 0) (jdiv sampleRate (Fin 2)) ~= Fin 0.
Proof.
  destruct sampleRate as [| | | r]; cbn [jlt]; try discriminate.
  - intros _. reflexivity.
  - intro H. apply (jlt_Fin 0 r) in H.
    cbn [jdiv]. replace (Qeq_bool 2 0) with false by reflexivity.
    destruct (Qeq_bool (r / 2) 0) eqn:E.
    + apply Qeq_bool_iff in E. exfalso.
      assert (Hr : (r == r / 2 * 2)%Q) by field. lra.
    + cbn [jeq]. unfold Qdiv. apply Qmult_0_l.
Qed.

End SpectralFacts.

(** C9.  On a window of at most 2048 samples no spectral frame fits;
    [analyzeSpectrum] then returns centroid 0 and rolloff 0, and for a
    positive sample rate brightness 0.  The function has no throwing
    step: it is total. *)
Theorem analyzeSpectrum_short_window (channelData : list jsnum)
    (sampleRate : jsnum) :
  (List.length channelData <= 2048)%nat ->
  jlt (Fin 0) sampleRate = true ->
  let s := analyzeSpectrum channelData sampleRate in
  centroid s = Fin 0 /\ rolloff s = Fin 0 /\ brightness s ~= Fin 0.
Proof.
  intros Hlen Hrate. unfold analyzeSpectrum.
  rewrite windowLoop_short by assumption.
  rewrite averageSpectrum_empty. cbv zeta. cbn [centroid rolloff brightness].
  rewrite centroid_nan, rolloff_nan.
  repeat split. now apply zero_over_half_rate.
Qed.

Lemma analyzeSpectrum_short_window_witness :
  let s := analyzeSpectrum [Fin (1 # 2); Fin (-1 # 4); NaN] (Fin 44100) in
  centroid s = Fin 0 /\ rolloff s = Fin 0 /\ brightness s ~= Fin 0.
Proof.
  apply (analyzeSpectrum_short_window [Fin (1 # 2); Fin (-1 # 4); NaN]
           (Fin 44100)).
  - simpl. lia.
  - reflexivity.
Defined.

Section RolloffFacts.

Context {num : Type} {arithmetic : Numbers num}.

Variable n : nat.
Variables sampleRate threshold : num.

(** The loop returns at the first bin at which the running sum reaches
    the threshold. *)
Lemma rolloffLoop_first (rest : list num) (i : nat) (c : num) (k : nat) :
  (k < List.length rest)%nat ->
  numGe (fold_left numAdd (firstn (S k) rest) c) threshold = true ->
  (forall j, (j < k)%nat ->
     numGe (fold_left numAdd (firstn (S j) rest) c) threshold = false) ->
  rolloffLoop n sampleRate threshold i rest c
  = numDiv (numMul (numOfNat (i + k)) sampleRate) (numOfNat (n * 2)).
Proof.
  revert i c k. induction rest as [| x rest IH]; intros i c k Hk Hreach Hbelow.
  - cbn in Hk. lia.
  - cbn [rolloffLoop]. destruct k as [| k].
    + cbn [firstn fold_left] in Hreach. rewrite Hreach.
      now rewrite Nat.add_0_r.
    + pose proof (Hbelow 0%nat ltac:(lia)) as H0.
      cbn [firstn fold_left] in H0. rewrite H0.
      rewrite (IH (S i) (numAdd c x) k).
      * f_equal. f_equal. f_equal. lia.
      * cbn [List.length] in Hk. lia.
      * exact Hreach.
      * intros j Hj. apply (Hbelow (S j)). lia.
Qed.

(** When no bin reaches the threshold the loop runs to its end. *)
Lemma rolloffLoop_none (rest : list num) (i : nat) (c : num) :
  (forall j, (j < List.length rest)%nat ->
     numGe (fold_left numAdd (firstn (S j) rest) c) threshold = false) ->
  rolloffLoop n sampleRate threshold i rest c = numZero.
Proof.
  revert i c. induction rest as [| x rest IH]; intros i c Hbelow;
    [reflexivity|].
  cbn [rolloffLoop].
  pose proof (Hbelow 0%nat ltac:(cbn; lia)) as H0.
  cbn [firstn fold_left] in H0. rewrite H0.
  apply IH. intros j Hj. apply (Hbelow (S j)). cbn [List.length]. lia.
Qed.

End RolloffFacts.

(** Among the numbers below [n] that pass a test there is a first one. *)
Lemma first_passing (p : nat -> bool) (n : nat) :
  (exists i, (i < n)%nat /\ p i = true) ->
  exists i, (i < n)%nat /\ p i = true
    /\ forall j, (j < i)%nat -> p j = false.
Proof.
  induction n as [| n IH]; intros (i & Hi & Hp); [lia|].
  destruct (existsb p (seq 0 n)) eqn:E.
  - apply existsb_exists in E. destruct E as (k & Hk & Hpk).
    apply in_seq in Hk.
    destruct IH as (m & Hm & Hpm & Hleast); [exists k; split; [lia | exact Hpk]|].
    exists m. split; [lia|]. now split.
  - assert (Hnone : forall j, (j < n)%nat -> p j = false).
    { intros j Hj. destruct (p j) eqn:Ej; [|reflexivity].
      assert (existsb p (seq 0 n) = true); [|congruence].
      apply existsb_exists. exists j. split; [apply in_seq; lia | exact Ej]. }
    assert (i = n).
    { destruct (Nat.eq_dec i n) as [-> | Hne]; [reflexivity|].
      rewrite Hnone in Hp by lia. discriminate. }
    subst i. exists n. split; [lia|]. now split.
Qed.

Lemma fold_jadd_Fin (l : list Q) (a : Q) :
  fold_left jadd (map Fin l) (Fin a) = Fin (fold_left Qplus l a).
Proof.
  revert a. induction l as [| x l IH]; intro a; [reflexivity|].
  cbn [map fold_left jadd]. apply IH.
Qed.

Lemma fold_Qplus_sum (l : list Q) (a : Q) :
  (fold_left Qplus l a == a + Qsum l)%Q.
Proof.
  revert a. induction l as [| x l IH]; intro a; cbn [fold_left Qsum fold_right].
  - lra.
  - rewrite IH. fold (Qsum l). lra.
Qed.

Lemma Qsum_nonneg (l : list Q) :
  Forall (fun m => 0 <= m)%Q l -> (0 <= Qsum l)%Q.
Proof.
  induction 1 as [| x l Hx Hl IH]; cbn [Qsum fold_right]; [lra|].
  fold (Qsum l). lra.
Qed.

Lemma Qsum_zero (l : list Q) :
  Forall (fun m => m == 0)%Q l -> (Qsum l == 0)%Q.
Proof.
  induction 1 as [| x l Hx Hl IH]; cbn [Qsum fold_right]; [reflexivity|].
  fold (Qsum l). lra.
Qed.

Lemma binFreq_zero (n : nat) (r : Q) :
  (0 < n)%nat -> binFreq n (Fin r) 0 ~= Fin 0.
Proof.
  intro Hn. unfold binFreq, ofNat, ofZ. cbn [jmul jdiv].
  destruct (Qeq_bool (inject_Z (Z.of_nat (n * 2))) 0) eqn:E.
  - apply Qeq_bool_iff in E. exfalso.
    assert (H : (0 < inject_Z (Z.of_nat (n * 2)))%Q).
    { change 0%Q with (inject_Z 0). rewrite <- Zlt_Qlt. lia. }
    lra.
  - cbn [jeq]. unfold Qdiv.
    change (inject_Z (Z.of_nat 0)) with 0%Q.
    rewrite !Qmult_0_l. reflexivity.
Qed.

(** The test of the loop in the exact arithmetic. *)
Lemma reachesThreshold_exact (mags : list Q) (i : nat) :
  reachesThreshold (map Fin mags) i
  = Qle_bool (fold_left Qplus mags 0 * (85 # 100))%Q
             (fold_left Qplus (firstn (S i) mags) 0%Q).
Proof.
  unfold reachesThreshold. cbn [numGe numAdd numMul numZero num085 exact].
  rewrite firstn_map, !fold_jadd_Fin. reflexivity.
Qed.

(** In the exact arithmetic the last bin of a spectrum of magnitudes
    reaches the threshold: the loop finds a bin. *)
Lemma magnitudes_reach_threshold (mags : list Q) :
  mags <> [] -> Forall (fun m => 0 <= m)%Q mags ->
  reachesThreshold (map Fin mags) (List.length mags - 1) = true.
Proof.
  intros Hne Hpos. rewrite reachesThreshold_exact.
  replace (S (List.length mags - 1)) with (List.length mags)
    by (destruct mags; [contradiction | cbn; lia]).
  rewrite firstn_all. apply Qle_bool_iff.
  rewrite fold_Qplus_sum. pose proof (Qsum_nonneg mags Hpos). lra.
Qed.

(** In the exact arithmetic a silent spectrum has rolloff 0 at every
    finite sample rate. *)
Lemma silent_rolloff_exact (mags : list Q) (r : Q) :
  Forall (fun m => m == 0)%Q mags ->
  calculateSpectralRolloff (map Fin mags) (Fin r) ~= Fin 0.
Proof.
  intro Hzero. destruct mags as [| m rest]; [reflexivity|].
  unfold calculateSpectralRolloff.
  rewrite (rolloffLoop_first _ _ _ _ 0 _ 0).
  - rewrite length_map. apply (binFreq_zero (List.length (m :: rest)) r).
    cbn. lia.
  - cbn. lia.
  - change (reachesThreshold (map Fin (m :: rest)) 0 = true).
    rewrite reachesThreshold_exact. apply Qle_bool_iff.
    rewrite fold_Qplus_sum. pose proof (Qsum_zero _ Hzero) as Hs.
    inversion Hzero as [| ? ? Hm _]; subst.
    cbn [firstn fold_left]. lra.
  - intros j Hj. lia.
Qed.

Lemma digits2_pos_lower (p : positive) :
  2 ^ (Z.pos (digits2_pos p) - 1) <= Z.pos p.
Proof.
  induction p as [p IH | p IH |]; cbn [digits2_pos].
  - rewrite Pos2Z.inj_succ.
    replace (Z.succ (Z.pos (digits2_pos p)) - 1)
      with (Z.succ (Z.pos (digits2_pos p) - 1)) by lia.
    rewrite Z.pow_succ_r by lia. lia.
  - rewrite Pos2Z.inj_succ.
    replace (Z.succ (Z.pos (digits2_pos p)) - 1)
      with (Z.succ (Z.pos (digits2_pos p) - 1)) by lia.
    rewrite Z.pow_succ_r by lia. lia.
  - cbn. lia.
Qed.

Lemma digits2_pos_shift (p k : positive) :
  digits2_pos (Pos.iter xO p k) = (digits2_pos p + k)%positive.
Proof.
  induction k as [| k IH] using Pos.peano_ind.
  - cbn. lia.
  - rewrite Pos.iter_succ. cbn [digits2_pos]. rewrite IH. lia.
Qed.

(** A whole number from 1 to [2^53 - 1] is a double, and no zero. *)
Lemma doubleOfZ_positive (p : positive) :
  Z.pos p < 2 ^ 53 ->
  exists m e, doubleOfZ (Z.pos p) = S754_finite false m e.
Proof.
  intro Hp.
  pose proof (digits2_pos_lower p) as Hlow.
  remember (digits2_pos p) as d eqn:Hdp.
  assert (Hd : Z.pos d <= 53).
  { destruct (Z_le_gt_dec (Z.pos d) 53) as [H | H]; [exact H|].
    exfalso.
    assert (2 ^ 53 <= 2 ^ (Z.pos d - 1)) by (apply Z.pow_le_mono_r; lia).
    lia. }
  unfold doubleOfZ, binary_normalize, binary_round.
  rewrite <- Hdp. unfold fexp, emin, prec, emax.
  replace (Z.max (Z.pos d + 0 - 53) (3 - 1024 - 53)) with (Z.pos d - 53) by lia.
  unfold shl_align.
  destruct (Z.pos d - 53 - 0) as [| q | k] eqn:Ek; [| lia |].
  - (* 53 digits: no shift *)
    unfold binary_round_aux, shr_fexp, fexp, emin.
    cbn [Zdigits2 shr_record_of_loc]. rewrite <- Hdp.
    replace (Z.max (Z.pos d + 0 - 53) (3 - 1024 - 53) - 0) with 0 by lia.
    cbn [shr shr_m shr_r shr_s loc_of_shr_record round_nearest_even].
    cbn [Zdigits2 shr_record_of_loc]. rewrite <- Hdp.
    replace (Z.max (Z.pos d + 0 - 53) (3 - 1024 - 53) - 0) with 0 by lia.
    cbn [shr shr_m]. cbn. eauto.
  - assert (Hk : Z.pos k = 53 - Z.pos d) by lia.
    unfold binary_round_aux, shr_fexp, fexp, emin.
    cbn [Zdigits2 shr_record_of_loc]. rewrite digits2_pos_shift, <- Hdp.
    replace (Z.max (Z.pos (d + k) + (Z.pos d - 53) - 53) (3 - 1024 - 53)
             - (Z.pos d - 53)) with 0 by lia.
    cbn [shr shr_m shr_r shr_s loc_of_shr_record round_nearest_even].
    cbn [Zdigits2 shr_record_of_loc]. rewrite digits2_pos_shift, <- Hdp.
    replace (Z.max (Z.pos (d + k) + (Z.pos d - 53) - 53) (3 - 1024 - 53)
             - (Z.pos d - 53)) with 0 by lia.
    cbn [shr shr_m].
    destruct (Z.pos d - 53 <=? 1024 - 53) eqn:E; [eauto|].
    apply Z.leb_gt in E. lia.
Qed.

Lemma fold_double_zeros (n : nat) :
  fold_left (SFadd prec emax) (repeat (S754_zero false) n) (S754_zero false)
  = S754_zero false.
Proof. induction n as [| n IH]; [reflexivity | exact IH]. Qed.

(** In doubles a silent spectrum has rolloff 0 at every finite sample
    rate; an array has fewer than [2^32] elements. *)
Lemma silent_rolloff_double (n : nat) (r : double) :
  Z.of_nat n < 2 ^ 32 ->
  finiteDouble r ->
  SFeqb (calculateSpectralRolloff (repeat (S754_zero false) n) r)
        (S754_zero false) = true.
Proof.
  intros Hn Hr. destruct n as [| n]; [reflexivity|].
  unfold calculateSpectralRolloff.
  rewrite (rolloffLoop_first _ _ _ _ 0 _ 0).
  - rewrite repeat_length. cbn [numDiv numMul numOfNat binary64 Nat.add].
    destruct (Z.of_nat (S n * 2)) as [| p |] eqn:Ep; try lia.
    destruct (doubleOfZ_positive p) as (m & e & ->).
    + assert (2 ^ 32 * 2 < 2 ^ 53) by reflexivity. lia.
    + destruct r as [s | s | | s m' e']; try contradiction;
        destruct s; reflexivity.
  - rewrite repeat_length. lia.
  - cbn [repeat firstn fold_left numGe numAdd numMul numZero binary64].
    change (S754_zero false :: repeat (S754_zero false) n)
      with (repeat (S754_zero false) (S n)).
    rewrite fold_double_zeros. reflexivity.
  - intros j Hj. lia.
Qed.

Lemma reachesThreshold_Qsum (mags : list Q) (i : nat) :
  (reachesThreshold (map Fin mags) i = true
   <-> (Qsum mags * (85 # 100) <= Qsum (firstn (S i) mags))%Q)
  /\ (reachesThreshold (map Fin mags) i = false
      <-> (Qsum (firstn (S i) mags) < Qsum mags * (85 # 100))%Q).
Proof.
  rewrite reachesThreshold_exact.
  pose proof (fold_Qplus_sum mags 0%Q) as H1.
  pose proof (fold_Qplus_sum (firstn (S i) mags) 0%Q) as H2.
  split.
  - rewrite Qle_bool_iff. rewrite H1, H2. split; intro; lra.
  - split; intro H.
    + apply Qnot_le_lt. intro Hle.
      assert (Qle_bool (fold_left Qplus mags 0 * (85 # 100))%Q
                       (fold_left Qplus (firstn (S i) mags) 0%Q) = true);
        [|congruence].
      apply Qle_bool_iff. rewrite H1, H2. lra.
    + destruct (Qle_bool _ _) eqn:E; [|reflexivity].
      apply Qle_bool_iff in E. rewrite H1, H2 in E. lra.
Qed.

Lemma exact_bin_frequency (n i : nat) (r : Q) :
  (0 < n)%nat ->
  jdiv (jmul (ofZ (Z.of_nat i)) (Fin r)) (ofZ (Z.of_nat (n * 2)))
  = Fin (inject_Z (Z.of_nat i) * r / inject_Z (Z.of_nat (n * 2))).
Proof.
  intro Hn. unfold ofZ. cbn [jmul jdiv].
  destruct (Qeq_bool (inject_Z (Z.of_nat (n * 2))) 0) eqn:E; [|reflexivity].
  apply Qeq_bool_iff in E. exfalso.
  assert (H : (0 < inject_Z (Z.of_nat (n * 2)))%Q).
  { change 0%Q with (inject_Z 0). rewrite <- Zlt_Qlt. lia. }
  lra.
Qed.

Lemma rolloff_exact (mags : list Q) (r : Q) :
  mags <> [] -> Forall (fun m => 0 <= m)%Q mags ->
  let n := List.length mags in
  let threshold := (Qsum mags * (85 # 100))%Q in
  exists i, (i < n)%nat
    /\ (threshold <= Qsum (firstn (S i) mags))%Q
    /\ (forall j, (j < i)%nat -> (Qsum (firstn (S j) mags) < threshold)%Q)
    /\ calculateSpectralRolloff (map Fin mags) (Fin r)
       = Fin (inject_Z (Z.of_nat i) * r / inject_Z (Z.of_nat (n * 2))).
Proof.
  intros Hne Hpos n threshold.
  assert (Hn : (0 < n)%nat) by (subst n; destruct mags; [contradiction | cbn; lia]).
  destruct (first_passing (reachesThreshold (map Fin mags)) n)
    as (i & Hi & Hreach & Hbelow).
  { exists (n - 1)%nat. split; [lia|].
    now apply magnitudes_reach_threshold. }
  exists i. split; [exact Hi|]. split; [|split].
  - now apply reachesThreshold_Qsum.
  - intros j Hj. apply reachesThreshold_Qsum. now apply Hbelow.
  - unfold calculateSpectralRolloff.
    rewrite (rolloffLoop_first _ _ _ _ 0 _ i).
    + rewrite length_map. now apply exact_bin_frequency.
    + now rewrite length_map.
    + exact Hreach.
    + exact Hbelow.
Qed.

(** C4.  In the arithmetic of the code the rolloff is the frequency
    [(i * sampleRate) / (spectrum.length * 2)] of the lowest bin [i] at
    which the cumulative energy, summed from bin 0 in bin order, reaches
    the threshold [totalEnergy * 0.85]; among the bins that reach it there
    is a lowest one, and when no bin reaches it the rolloff is 0.  This
    holds in any arithmetic.  It is then spelled out in the exact
    arithmetic, where a spectrum of magnitudes always has such a bin, and
    in doubles, with the operations of IEEE 754 and the double nearest to
    0.85.  For a silent spectrum bin 0 is that bin and the rolloff is 0
    at every finite sample rate, in the exact arithmetic and in doubles
    (an array has fewer than [2^32] elements). *)
Theorem rolloff_lowest_bin :
  (forall (num : Type) (arithmetic : Numbers num) (spectrum : list num)
          (sampleRate : num),
     let n := List.length spectrum in
     let result := calculateSpectralRolloff spectrum sampleRate in
     (forall i, (i < n)%nat ->
        reachesThreshold spectrum i = true ->
        (forall j, (j < i)%nat -> reachesThreshold spectrum j = false) ->
        result = numDiv (numMul (numOfNat i) sampleRate) (numOfNat (n * 2)))
     /\ ((exists i, (i < n)%nat /\ reachesThreshold spectrum i = true) ->
         exists i, (i < n)%nat /\ reachesThreshold spectrum i = true
           /\ forall j, (j < i)%nat -> reachesThreshold spectrum j = false)
     /\ ((forall i, (i < n)%nat -> reachesThreshold spectrum i = false) ->
         result = numZero))
  /\ (forall (mags : list Q) (r : Q),
        mags <> [] -> Forall (fun m => 0 <= m)%Q mags ->
        let n := List.length mags in
        let threshold := (Qsum mags * (85 # 100))%Q in
        exists i, (i < n)%nat
          /\ (threshold <= Qsum (firstn (S i) mags))%Q
          /\ (forall j, (j < i)%nat ->
                (Qsum (firstn (S j) mags) < threshold)%Q)
          /\ calculateSpectralRolloff (map Fin mags) (Fin r)
             = Fin (inject_Z (Z.of_nat i) * r / inject_Z (Z.of_nat (n * 2))))
  /\ (forall (mags : list Q) (r : Q),
        Forall (fun m => m == 0)%Q mags ->
        calculateSpectralRolloff (map Fin mags) (Fin r) ~= Fin 0)
  /\ (forall (spectrum : list double) (sampleRate : double) (i : nat),
        let n := List.length spectrum in
        let energy := fun k =>
          fold_left (SFadd 53 1024) (firstn k spectrum) (S754_zero false) in
        let threshold :=
          SFmul 53 1024 (energy n) (S754_finite false 7656119366529843 (-53)) in
        (i < n)%nat ->
        SFleb threshold (energy (S i)) = true ->
        (forall j, (j < i)%nat -> SFleb threshold (energy (S j)) = false) ->
        calculateSpectralRolloff spectrum sampleRate
        = SFdiv 53 1024
            (SFmul 53 1024 (binary_normalize 53 1024 (Z.of_nat i) 0 false)
                   sampleRate)
            (binary_normalize 53 1024 (Z.of_nat (n * 2)) 0 false))
  /\ (forall (n : nat) (r : double),
        Z.of_nat n < 2 ^ 32 ->
        finiteDouble r ->
        SFeqb (calculateSpectralRolloff (repeat (S754_zero false) n) r)
              (S754_zero false) = true).
Proof.
  assert (Hany : forall (num : Type) (arithmetic : Numbers num)
            (spectrum : list num) (sampleRate : num) (i : nat),
            (i < List.length spectrum)%nat ->
            reachesThreshold spectrum i = true ->
            (forall j, (j < i)%nat -> reachesThreshold spectrum j = false) ->
            calculateSpectralRolloff spectrum sampleRate
            = numDiv (numMul (numOfNat i) sampleRate)
                     (numOfNat (List.length spectrum * 2))).
  { intros num arithmetic spectrum sampleRate i Hi Hreach Hbelow.
    unfold calculateSpectralRolloff.
    now rewrite (rolloffLoop_first _ _ _ _ 0 _ i Hi Hreach Hbelow). }
  split; [|split; [exact rolloff_exact|
            split; [exact silent_rolloff_exact|
            split; [|exact silent_rolloff_double]]]].
  - intros num arithmetic spectrum sampleRate n result. split; [|split].
    + now apply Hany.
    + apply first_passing.
    + intro Hnone. subst result. unfold calculateSpectralRolloff.
      now apply rolloffLoop_none.
  - intros spectrum sampleRate i n energy threshold Hi Hreach Hbelow.
    assert (Hall : energy n = fold_left (SFadd 53 1024) spectrum (S754_zero false)).
    { subst energy n. cbv beta. now rewrite firstn_all. }
    subst threshold.
    apply (Hany double binary64 spectrum sampleRate i Hi).
    + rewrite Hall in Hreach. exact Hreach.
    + intros j Hj. specialize (Hbelow j Hj). rewrite Hall in Hbelow.
      exact Hbelow.
Qed.

Example rolloff_run :
  calculateSpectralRolloff (map Fin [1; 2; 3; 4; 10; 0; 0; 1]%Q) (Fin 16)
  ~= Fin 4.
Proof. reflexivity. Qed.

(** The same spectrum in doubles: the sum is 21, the threshold 17.85, and
    bin 4, where the running sum is 20, is the first to reach it. *)
Example rolloff_run_double :
  calculateSpectralRolloff
    (map doubleOfZ [1; 2; 3; 4; 10; 0; 0; 1]%Z) (doubleOfZ 16)
  = doubleOfZ 4.
Proof. vm_compute. reflexivity. Qed.

(** The spectrum [[0.85, 1 - 0.85]] in doubles: the sum rounds to 1, the
    threshold to 0.85, and bin 0 reaches it.  On the exact values of the
    same two doubles the sum is above 1 and bin 1 is the first to reach
    the threshold. *)
Example rolloff_rounds_as_doubles :
  let rest := SFsub prec emax (doubleOfZ 1) double085 in
  double085 = S754_finite false 7656119366529843 (-53)
  /\ rest = S754_finite false 5404319552844596 (-55)
  /\ reachesThreshold [double085; rest] 0 = true
  /\ calculateSpectralRolloff [double085; rest] (doubleOfZ 48000)
     = S754_zero false
  /\ calculateSpectralRolloff
       [Fin (7656119366529843 # 9007199254740992);
        Fin (5404319552844596 # 36028797018963968)] (Fin 48000)
     ~= Fin 12000.
Proof. cbv zeta. repeat split; vm_compute; reflexivity. Qed.

Section WindowFacts.

Lemma relativeIndex_ofZ (len k : Z) :
  0 <= k -> relativeIndex len (ofZ k) = Z.min k len.
Proof.
  intro Hk. unfold relativeIndex, ofZ.
  assert (Hq : Qle_bool 0 (inject_Z k) = true).
  { apply Qle_bool_iff. change 0%Q with (inject_Z 0). now rewrite <- Zle_Qle. }
  rewrite Hq, Qfloor_Z.
  destruct (k <? 0) eqn:E; [apply Z.ltb_lt in E; lia | reflexivity].
Qed.

(** A slice that lies within the array is the run of elements from
    [i] of length [w]. *)
Lemma slice_window {A : Type} (a : list A) (i w : Z) :
  0 <= i -> 0 <= w -> i + w <= Z.of_nat (List.length a) ->
  slice a (ofZ i) (ofZ (i + w))
  = firstn (Z.to_nat w) (skipn (Z.to_nat i) a).
Proof.
  intros Hi Hw Hlen. unfold slice.
  rewrite !relativeIndex_ofZ by lia.
  rewrite !Z.min_l by lia.
  replace (Z.max (i + w - i) 0) with w by lia. reflexivity.
Qed.

Lemma slice_window_length {A : Type} (a : list A) (i w : Z) :
  0 <= i -> 0 <= w -> i + w <= Z.of_nat (List.length a) ->
  List.length (slice a (ofZ i) (ofZ (i + w))) = Z.to_nat w.
Proof.
  intros Hi Hw Hlen. rewrite slice_window by assumption.
  rewrite length_firstn, length_skipn. lia.
Qed.

Lemma skipn_subset {A : Type} (n : nat) (l : list A) (a : A) :
  In a (skipn n l) -> In a l.
Proof.
  revert l. induction n as [| n IH]; intros [| x l]; simpl; try tauto.
  intro H. right. now apply IH.
Qed.

Lemma slice_subset {A : Type} (a : list A) (start stop : jsnum) (x : A) :
  In x (slice a start stop) -> In x a.
Proof.
  unfold slice. intro H. apply firstn_subset in H.
  now apply skipn_subset in H.
Qed.

Lemma performFFT_magnitudes (data : list jsnum) :
  Forall finite data -> Forall magnitude (performFFT data).
Proof.
  intro H. unfold performFFT. rewrite Forall_forall in *.
  intros y Hy. apply in_map_iff in Hy. destruct Hy as (x & <- & Hx).
  apply firstn_subset in Hx. specialize (H x Hx).
  destruct x; cbn in *; try tauto. apply Qabs_nonneg.
Qed.

Lemma performFFT_length (data : list jsnum) :
  List.length (performFFT data) = Nat.div2 (List.length data + 1).
Proof.
  unfold performFFT. rewrite length_map, length_firstn.
  apply Nat.min_l.
  generalize (List.length data). intro n.
  induction n as [n IH] using lt_wf_ind.
  destruct n as [| [| n]]; cbn; try lia.
  specialize (IH n ltac:(lia)). cbn in IH.
  replace (n + 1)%nat with (S n) in * by lia. cbn in *. lia.
Qed.

Lemma windowLoop_frames (remaining : nat) (channelData : list jsnum)
    (i : Z) (acc : list (list jsnum)) :
  Forall finite channelData -> 0 <= i ->
  Forall frameOk acc ->
  Forall frameOk (windowLoop remaining channelData i acc).
Proof.
  intros Hfin. revert i acc.
  induction remaining as [| k IH]; intros i acc Hi Hacc; [exact Hacc|].
  cbn [windowLoop]. unfold fftSize.
  destruct (i <? Z.of_nat (List.length channelData) - 2048) eqn:E;
    [|exact Hacc].
  apply Z.ltb_lt in E. apply IH; [lia|].
  apply Forall_app. split; [exact Hacc|].
  constructor; [|constructor]. split.
  - apply performFFT_magnitudes. rewrite Forall_forall in *.
    intros x Hx. apply Hfin. now apply slice_subset in Hx.
  - rewrite performFFT_length, slice_window_length by lia. reflexivity.
Qed.

Lemma windowLoop_first (remaining : nat) (channelData : list jsnum)
    (i : Z) (acc : list (list jsnum)) :
  acc <> [] -> windowLoop remaining channelData i acc <> [].
Proof.
  revert i acc. induction remaining as [| k IH]; intros i acc Hacc;
    [exact Hacc|].
  cbn [windowLoop].
  destruct (i <? Z.of_nat (List.length channelData) - fftSize);
    [|exact Hacc].
  apply IH. destruct acc; discriminate.
Qed.

Lemma windowLoop_long (k : nat) (channelData : list jsnum) :
  (2048 < List.length channelData)%nat ->
  windowLoop (S k) channelData 0 [] <> [].
Proof.
  intro Hlen. cbn [windowLoop]. unfold fftSize.
  destruct (0 <? Z.of_nat (List.length channelData) - 2048) eqn:E;
    [|apply Z.ltb_ge in E; lia].
  apply windowLoop_first. discriminate.
Qed.

Lemma accumulate_magnitudes (avgSpectrum spec : list jsnum) :
  Forall magnitude avgSpectrum -> Forall magnitude spec ->
  (List.length spec <= List.length avgSpectrum)%nat ->
  Forall magnitude (accumulate avgSpectrum spec)
  /\ List.length (accumulate avgSpectrum spec) = List.length avgSpectrum.
Proof.
  intro Havg. revert spec.
  induction Havg as [| a avg Ha Havg IH]; intros spec Hspec Hlen.
  - destruct spec; [split; [constructor | reflexivity] | cbn in Hlen; lia].
  - destruct spec as [| x spec].
    + split; [now constructor | reflexivity].
    + inversion Hspec as [| ? ? Hx Hspec']; subst.
      cbn [accumulate List.length] in *.
      destruct (IH spec Hspec' ltac:(lia)) as [IH1 IH2].
      split; [|now rewrite IH2].
      constructor; [|exact IH1].
      destruct a, x; cbn in *; try tauto. lra.
Qed.

Lemma fold_accumulate_magnitudes (spectrum : list (list jsnum))
    (avgSpectrum : list jsnum) :
  Forall magnitude avgSpectrum -> List.length avgSpectrum = 1024%nat ->
  Forall frameOk spectrum ->
  Forall magnitude (fold_left accumulate spectrum avgSpectrum).
Proof.
  intros Havg Hlen Hframes. revert avgSpectrum Havg Hlen.
  induction Hframes as [| fft spectrum [Hm Hl] Hrest IH];
    intros avg Havg Hlen; [exact Havg|].
  cbn [fold_left].
  destruct (accumulate_magnitudes avg fft Havg Hm ltac:(lia)) as [H1 H2].
  apply IH; [exact H1 | now rewrite H2].
Qed.

Lemma jdiv_count_magnitude (x : jsnum) (count : nat) :
  magnitude x -> (0 < count)%nat -> magnitude (jdiv x (ofNat count)).
Proof.
  intros Hx Hc. destruct x as [| | | q]; cbn in Hx; try tauto.
  unfold ofNat, ofZ. cbn [jdiv].
  assert (H : (0 < inject_Z (Z.of_nat count))%Q).
  { change 0%Q with (inject_Z 0). rewrite <- Zlt_Qlt. lia. }
  destruct (Qeq_bool (inject_Z (Z.of_nat count)) 0) eqn:E.
  - apply Qeq_bool_iff in E. lra.
  - cbn. apply Qle_shift_div_l; [exact H | lra].
Qed.

Lemma averageSpectrum_magnitudes (spectrum : list (list jsnum)) :
  spectrum <> [] -> Forall frameOk spectrum ->
  Forall magnitude (averageSpectrum spectrum).
Proof.
  intros Hne Hframes. unfold averageSpectrum.
  assert (H : Forall magnitude
                (fold_left accumulate spectrum
                   (repeat (Fin 0) (Z.to_nat (fftSize / 2))))).
  { apply fold_accumulate_magnitudes; try assumption.
    - apply Forall_forall. intros x Hx. apply repeat_spec in Hx. subst.
      cbn. lra.
    - now rewrite repeat_length. }
  rewrite Forall_forall in *. intros y Hy.
  apply in_map_iff in Hy. destruct Hy as (x & <- & Hx).
  apply jdiv_count_magnitude; [now apply H|].
  destruct spectrum; [contradiction | cbn; lia].
Qed.

Lemma magnitudes_values (l : list jsnum) :
  Forall magnitude l ->
  exists mags, l = map Fin mags /\ Forall (fun m => 0 <= m)%Q mags.
Proof.
  induction 1 as [| x l Hx Hl (mags & -> & Hmags)].
  - exists []. split; [reflexivity | constructor].
  - destruct x as [| | | q]; cbn in Hx; try tauto.
    exists (q :: mags). split; [reflexivity | now constructor].
Qed.

End WindowFacts.

Lemma Qhalf_pos (r : Q) : (0 < r -> 0 < r / 2)%Q.
Proof. intro H. apply Qlt_shift_div_l; lra. Qed.

Lemma half_rate_bound (I r B : Q) :
  (0 <= I -> 0 < r -> 0 < B -> I * 2 <= B ->
   0 <= I * r / B /\ I * r / B <= r / 2)%Q.
Proof.
  intros H0 Hr Hb H2. split.
  - apply Qle_shift_div_l; [exact Hb|].
    assert (0 <= I * r)%Q by (apply Qmult_le_0_compat; lra). lra.
  - apply Qle_shift_div_r; [exact Hb|].
    assert (H : (0 <= r * (B - I * 2))%Q) by (apply Qmult_le_0_compat; lra).
    assert (Heq : (r / 2 * B == I * r + r * (B - I * 2) * (1 # 2))%Q) by field.
    rewrite Heq. clear Heq.
    generalize dependent (r * (B - I * 2))%Q. intros X HX.
    generalize (I * r)%Q. intro Y. lra.
Qed.

Section CentroidFacts.

Variable n : nat.
Variable r : Q.
Hypothesis n_pos : (0 < n)%nat.
Hypothesis r_pos : (0 < r)%Q.

Let bins : Q := inject_Z (Z.of_nat (n * 2)).

Lemma bins_pos : (0 < bins)%Q.
Proof.
  unfold bins. change 0%Q with (inject_Z 0). rewrite <- Zlt_Qlt. lia.
Qed.

Lemma binFreq_Fin (i : nat) :
  binFreq n (Fin r) i = Fin (inject_Z (Z.of_nat i) * r / bins).
Proof.
  unfold binFreq, ofNat, ofZ. cbn [jmul jdiv]. fold bins.
  destruct (Qeq_bool bins 0) eqn:E; [|reflexivity].
  apply Qeq_bool_iff in E. pose proof bins_pos. lra.
Qed.

(** A bin frequency lies between 0 and half the sample rate. *)
Lemma binFreq_bounds (i : nat) :
  (i <= n)%nat ->
  (0 <= inject_Z (Z.of_nat i) * r / bins
   /\ inject_Z (Z.of_nat i) * r / bins <= r / 2)%Q.
Proof.
  intro Hi. pose proof bins_pos as Hb.
  assert (H0 : (0 <= inject_Z (Z.of_nat i))%Q).
  { change 0%Q with (inject_Z 0). rewrite <- Zle_Qle. lia. }
  assert (H2 : (inject_Z (Z.of_nat i) * 2 <= bins)%Q).
  { unfold bins. change 2%Q with (inject_Z 2).
    rewrite <- inject_Z_mult, <- Zle_Qle. lia. }
  now apply half_rate_bound.
Qed.

(** The two sums of the centroid loop over finite magnitudes. *)
Lemma centroidLoop_sums (rest : list Q) (i : nat) (w s : Q) :
  exists w' s',
    centroidLoop n (Fin r) i (map Fin rest) (Fin w) (Fin s) = (Fin w', Fin s')
    /\ (w' == w + weightedFreqSum n r i rest)%Q
    /\ (s' == s + Qsum rest)%Q.
Proof.
  revert i w s. induction rest as [| m rest IH]; intros i w s.
  - exists w, s. cbn. repeat split; lra.
  - cbn [map centroidLoop]. rewrite binFreq_Fin. cbn [jmul jadd].
    destruct (IH (S i) (w + inject_Z (Z.of_nat i) * r / bins * m)%Q
                 (s + m)%Q) as (w' & s' & Heq & Hw & Hs).
    exists w', s'. split; [exact Heq|].
    cbn [weightedFreqSum Qsum fold_right]. fold (Qsum rest). fold bins.
    split; lra.
Qed.

(** The weighted sum is at most half the sample rate times the sum. *)
Lemma weightedFreqSum_bounds (rest : list Q) (i : nat) :
  Forall (fun m => 0 <= m)%Q rest ->
  (i + List.length rest <= n)%nat ->
  (0 <= weightedFreqSum n r i rest
   /\ weightedFreqSum n r i rest <= r / 2 * Qsum rest)%Q.
Proof.
  intro H. revert i. induction H as [| m rest Hm Hrest IH]; intros i Hi.
  - cbn. lra.
  - cbn [List.length] in Hi.
    destruct (IH (S i) ltac:(lia)) as [IH1 IH2].
    destruct (binFreq_bounds i ltac:(lia)) as [Hf1 Hf2].
    cbn [weightedFreqSum Qsum fold_right]. fold (Qsum rest). fold bins.
    set (f := (inject_Z (Z.of_nat i) * r / bins)%Q) in *.
    assert (H1 : (0 <= f * m)%Q) by (apply Qmult_le_0_compat; assumption).
    assert (H2 : (f * m <= r / 2 * m)%Q)
      by (apply Qmult_le_compat_r; assumption).
    split; lra.
Qed.

End CentroidFacts.

(** The centroid of a spectrum of finite magnitudes: the weighted mean of
    the bin frequencies, or 0 when the magnitudes sum to 0; it lies between
    0 and half the sample rate. *)
Lemma centroid_weighted_mean (mags : list Q) (r : Q) :
  Forall (fun m => 0 <= m)%Q mags -> (0 < r)%Q ->
  let c := calculateSpectralCentroid (map Fin mags) (Fin r) in
  ((0 < Qsum mags)%Q ->
     c ~= Fin (weightedFreqSum (List.length mags) r 0 mags / Qsum mags))
  /\ (Qsum mags == 0 -> c = Fin 0)%Q
  /\ exists q, c = Fin q /\ (0 <= q /\ q <= r / 2)%Q.
Proof.
  intros Hpos Hr c. subst c.
  pose proof (Qhalf_pos r Hr) as Hhalf.
  destruct mags as [| m0 rest0].
  { cbn. split; [intro; lra|]. split; [reflexivity|].
    exists 0%Q. split; [reflexivity | split; lra]. }
  set (mags := m0 :: rest0) in *.
  assert (Hn : (0 < List.length mags)%nat) by (cbn; lia).
  unfold calculateSpectralCentroid. rewrite length_map.
  destruct (centroidLoop_sums (List.length mags) r Hn mags 0 0 0)
    as (w & s & Heq & Hw & Hs).
  rewrite Heq.
  destruct (weightedFreqSum_bounds (List.length mags) r Hn Hr mags 0 Hpos
              ltac:(lia)) as [Hb1 Hb2].
  pose proof (Qsum_nonneg mags Hpos) as Hsum.
  unfold jgt.
  destruct (jlt (Fin 0) (Fin s)) eqn:E.
  - apply jlt_Fin in E. cbn [jdiv].
    destruct (Qeq_bool s 0) eqn:Es; [apply Qeq_bool_iff in Es; lra|].
    split; [| split].
    + intros _. cbn [jeq].
      assert (Hw' : (w == weightedFreqSum (List.length mags) r 0 mags)%Q) by lra.
      assert (Hs' : (s == Qsum mags)%Q) by lra.
      now rewrite Hw', Hs'.
    + intro Hz. lra.
    + exists (w / s)%Q. split; [reflexivity|]. split.
      * apply Qle_shift_div_l; lra.
      * apply Qle_shift_div_r; [lra|].
        assert (Hs' : (s == Qsum mags)%Q) by lra. rewrite Hs'. lra.
  - apply jlt_Fin_false in E.
    split; [intro; lra|]. split; [reflexivity|].
    exists 0%Q. split; [reflexivity | split; lra].
Qed.

Lemma brightness_unit_interval (q r : Q) :
  (0 < r)%Q -> (0 <= q)%Q -> (q <= r / 2)%Q ->
  exists b, jdiv (Fin q) (jdiv (Fin r) (Fin 2)) = Fin b /\ (0 <= b /\ b <= 1)%Q.
Proof.
  intros Hr Hq0 Hq1. cbn [jdiv].
  replace (Qeq_bool 2 0) with false by reflexivity.
  pose proof (Qhalf_pos r Hr) as Hh.
  destruct (Qeq_bool (r / 2) 0) eqn:E; [apply Qeq_bool_iff in E; lra|].
  exists (q / (r / 2))%Q. split; [reflexivity|]. split.
  - apply Qle_shift_div_l; lra.
  - apply Qle_shift_div_r; lra.
Qed.

(** C5.  For a window of finite samples and a positive sample rate, the
    brightness is the centroid divided by half the sample rate and lies
    between 0 and 1; the centroid is the magnitude-weighted mean of the bin
    frequencies of the averaged spectrum, and 0 when the magnitudes sum to
    0 or when no frame fits in the window. *)
Theorem brightness_in_unit_interval (channelData : list jsnum) (r : Q) :
  Forall finite channelData -> (0 < r)%Q ->
  let s := analyzeSpectrum channelData (Fin r) in
  brightness s = jdiv (centroid s) (jdiv (Fin r) (Fin 2))
  /\ (exists b, brightness s = Fin b /\ (0 <= b /\ b <= 1)%Q)
  /\ centroid s = calculateSpectralCentroid (spectrum s) (Fin r)
  /\ ((exists mags,
         spectrum s = map Fin mags
         /\ Forall (fun m => 0 <= m)%Q mags
         /\ ((0 < Qsum mags)%Q ->
               centroid s
               ~= Fin (weightedFreqSum (List.length mags) r 0 mags / Qsum mags))
         /\ ((Qsum mags == 0)%Q -> centroid s = Fin 0))
      \/ ((List.length channelData <= 2048)%nat /\ centroid s = Fin 0)).
Proof.
  intros Hfin Hr s.
  assert (Hcases : (exists mags, spectrum s = map Fin mags
                      /\ Forall (fun m => 0 <= m)%Q mags)
                   \/ ((List.length channelData <= 2048)%nat
                       /\ spectrum s = repeat NaN 1024)).
  { subst s. unfold analyzeSpectrum. cbv zeta. cbn [spectrum].
    destruct (Nat.le_gt_cases (List.length channelData) 2048) as [Hle | Hgt].
    - right. split; [exact Hle|].
      now rewrite windowLoop_short, averageSpectrum_empty.
    - left. apply magnitudes_values. apply averageSpectrum_magnitudes.
      + apply (windowLoop_long 49). exact Hgt.
      + apply windowLoop_frames; [exact Hfin | lia | constructor]. }
  assert (Hc : centroid s = calculateSpectralCentroid (spectrum s) (Fin r))
    by reflexivity.
  assert (Hb : brightness s = jdiv (centroid s) (jdiv (Fin r) (Fin 2)))
    by reflexivity.
  split; [exact Hb|].
  destruct Hcases as [(mags & Hs & Hpos) | [Hle Hs]].
  - destruct (centroid_weighted_mean mags r Hpos Hr)
      as (Hmean & Hzero & q & Hq & Hq0 & Hq1).
    rewrite <- Hs, <- Hc in Hmean, Hzero, Hq.
    split; [| split; [exact Hc|]].
    + rewrite Hb, Hq. now apply brightness_unit_interval.
    + left. exists mags. auto.
  - assert (Hz : centroid s = Fin 0) by (rewrite Hc, Hs; apply centroid_nan).
    split; [| split; [exact Hc|]].
    + rewrite Hb, Hz. pose proof (Qhalf_pos r Hr).
      apply brightness_unit_interval; lra.
    + right. auto.
Qed.

Lemma brightness_in_unit_interval_witness :
  exists b,
    brightness (analyzeSpectrum (repeat (Fin (1 # 2)) 2049) (Fin 44100)) = Fin b
    /\ (0 <= b /\ b <= 1)%Q.
Proof.
  assert (Hfin : Forall finite (repeat (Fin (1 # 2)) 2049)).
  { apply Forall_forall. intros x Hx. apply repeat_spec in Hx. subst x.
    exact I. }
  assert (Hr : (0 < 44100)%Q) by reflexivity.
  exact (proj1 (proj2 (brightness_in_unit_interval _ 44100 Hfin Hr))).
Defined.

(** C5, as stated for every input window, fails: one infinite sample, in
    a window long enough for a frame, makes the centroid and the
    brightness [NaN].  Bin 0 then holds [Infinity], which its frequency 0
    multiplies. *)
Lemma infinite_sample_brightness_nan :
  let s := analyzeSpectrum (PInf :: repeat (Fin (1 # 2)) 2048) (Fin 44100) in
  nth_error (spectrum s) 0 = Some PInf
  /\ centroid s = NaN
  /\ brightness s = NaN.
Proof. cbv zeta. repeat split; vm_compute; reflexivity. Qed.

(* ===================================================================== *)
(** ** The analysis run *)
(* ===================================================================== *)

Section TrimFacts.

Lemma jmin_ofZ (a b : Z) : jmin (ofZ a) (ofZ b) = ofZ (Z.min a b).
Proof.
  unfold jmin, ofZ. cbn [jle].
  destruct (Qle_bool (inject_Z a) (inject_Z b)) eqn:E.
  - apply Qle_bool_iff in E. rewrite <- Zle_Qle in E.
    now rewrite Z.min_l by assumption.
  - assert (H : ~ (a <= b)).
    { intro H. rewrite Zle_Qle in H. apply Qle_bool_iff in H. congruence. }
    now rewrite Z.min_r by lia.
Qed.

Lemma trimmedSamples_value (audioBuffer : AudioBuffer) (r : Q) :
  sampleRate audioBuffer = Fin r ->
  trimmedSamples audioBuffer
  = ofZ (Z.min (Z.of_nat (List.length (channel0 audioBuffer)))
               (Qfloor (r * 15))).
Proof.
  intro Hr. unfold trimmedSamples, maxDurationSec. rewrite Hr.
  cbn [jmul jfloor]. unfold ofNat. apply jmin_ofZ.
Qed.

End TrimFacts.

(** C6.  The preprocessing step keeps the first
    [min(totalSamples, floor(sampleRate * 15))] samples of the channel,
    unchanged and from offset 0; when [sampleRate * 15] is a whole number
    (any integer sample rate) the count is [min(totalSamples,
    sampleRate * 15)]. *)
Theorem trimmedChannel_prefix (audioBuffer : AudioBuffer) (r : Q) :
  sampleRate audioBuffer = Fin r -> (0 < r)%Q ->
  let channelData := channel0 audioBuffer in
  let totalSamples := Z.of_nat (List.length channelData) in
  let kept := Z.to_nat (Z.min totalSamples (Qfloor (r * 15))) in
  trimmedChannel audioBuffer = firstn kept channelData
  /\ List.length (trimmedChannel audioBuffer) = kept
  /\ (forall i, (i < kept)%nat ->
        nth_error (trimmedChannel audioBuffer) i = nth_error channelData i)
  /\ (forall z : Z, (r * 15 == inject_Z z)%Q ->
        Z.of_nat (List.length (trimmedChannel audioBuffer))
        = Z.min totalSamples z).
Proof.
  intros Hr Hpos channelData totalSamples kept.
  assert (Hfloor : 0 <= Qfloor (r * 15)).
  { change 0 with (Qfloor 0). apply Qfloor_resp_le. lra. }
  assert (Htrim : trimmedChannel audioBuffer = firstn kept channelData).
  { unfold trimmedChannel. rewrite (trimmedSamples_value _ r Hr).
    apply slice_prefix. lia. }
  assert (Hlen : List.length (trimmedChannel audioBuffer) = kept).
  { rewrite Htrim, length_firstn. subst kept totalSamples channelData. lia. }
  split; [exact Htrim|]. split; [exact Hlen|]. split.
  - intros i Hi. rewrite Htrim, nth_error_firstn.
    apply Nat.ltb_lt in Hi. now rewrite Hi.
  - intros z Hz. rewrite Hlen. subst kept.
    rewrite Hz, Qfloor_Z in *. lia.
Qed.

Lemma trimmedChannel_prefix_witness :
  trimmedChannel (mkAudioBuffer (repeat (Fin (1 # 2)) 40) (Fin 2) (Fin 20))
  = firstn 30 (repeat (Fin (1 # 2)) 40).
Proof.
  assert (Hr : (0 < 2)%Q) by reflexivity.
  exact (proj1 (trimmedChannel_prefix
                  (mkAudioBuffer (repeat (Fin (1 # 2)) 40) (Fin 2) (Fin 20))
                  2 eq_refl Hr)).
Defined.

Example trimmedChannel_short_clip :
  trimmedChannel (mkAudioBuffer [Fin 1; Fin (-1); Fin 0] (Fin 44100) (Fin 0))
  = [Fin 1; Fin (-1); Fin 0].
Proof. reflexivity. Qed.

(** *** The pitch loop *)

Lemma frameOffsets_nth (i : Z) (count k : nat) :
  (k < count)%nat ->
  nth_error (frameOffsets i count) k = Some (i + Z.of_nat k * 262144).
Proof.
  revert i k. induction count as [| c IH]; intros i k Hk; [lia|].
  destruct k as [| k]; cbn [frameOffsets nth_error].
  - f_equal. lia.
  - rewrite IH by lia. unfold sampleSize. f_equal. lia.
Qed.

Lemma frameOffsets_length (i : Z) (count : nat) :
  List.length (frameOffsets i count) = count.
Proof.
  revert i. induction count as [| c IH]; intro i; cbn; [reflexivity|].
  now rewrite IH.
Qed.

Lemma keptPitches_in_range (detected : list jsnum) :
  Forall (fun f => jlt (Fin 0) f = true /\ jlt f (Fin 2000) = true)
         (keptPitches detected).
Proof.
  apply Forall_forall. intros f Hf. apply filter_In in Hf.
  destruct Hf as [_ Hf]. unfold accepted, jgt in Hf.
  now apply andb_true_iff in Hf.
Qed.

Lemma kept_lengths (rate : jsnum) (offsets : list Z) (detected : list jsnum) :
  List.length offsets = List.length detected ->
  List.length (keptTimestamps rate offsets detected)
  = List.length (keptPitches detected).
Proof.
  unfold keptTimestamps, keptPitches. rewrite length_map.
  revert detected. induction offsets as [| o offsets IH];
    intros [| p detected] Hlen; try discriminate; [reflexivity|].
  cbn [combine filter snd]. injection Hlen as Hlen.
  destruct (accepted p); cbn [List.length]; now rewrite IH.
Qed.

Section PitchFacts.

Variable hasCancelBtn : bool.
Variable clicks : nat -> bool.
Variable detectPitch : list jsnum -> string + jsnum.
Variable samples : list jsnum.
Variable rate : jsnum.

Let loop := pitchLoop hasCancelBtn clicks detectPitch.
Let limit : Z := Z.of_nat (List.length samples) - sampleSize.

Lemma pitchLoop_spec (remaining : nat) (i : Z) (st st' : PitchState)
    (w w' : World) :
  0 <= i ->
  loop remaining samples rate i st w = (w', inr st') ->
  exists detected : list jsnum,
    let offsets := frameOffsets i (List.length detected) in
    (List.length detected <= remaining)%nat
    /\ frames st' = (frames st + List.length detected)%nat
    /\ Forall2 (examinedFrame detectPitch samples) offsets detected
    /\ pitches st' = pitches st ++ keptPitches detected
    /\ timestamps st' = timestamps st ++ keptTimestamps rate offsets detected
    /\ (List.length detected = remaining
        \/ ~ (i + Z.of_nat (List.length detected) * 262144 < limit)).
Proof.
  revert i st w. induction remaining as [| k IH]; intros i st w Hi Hrun.
  - cbn in Hrun. injection Hrun as _ <-. exists []. cbn.
    rewrite !app_nil_r, Nat.add_0_r. repeat split; auto.
  - unfold loop in Hrun. cbn [pitchLoop] in Hrun. fold limit in Hrun.
    destruct (i <? limit) eqn:E.
    + apply Z.ltb_lt in E.
      unfold bind at 1, checkCancelled in Hrun.
      destruct (analysisCancelled w); [discriminate|].
      unfold bind at 1, call in Hrun.
      destruct (detectPitch (slice samples (ofZ i) (ofZ (i + sampleSize))))
        as [e | pitch] eqn:Hdet; [discriminate|].
      unfold bind at 1 in Hrun.
      match type of Hrun with
      | context [(if ?c then await _ _ else ret tt) w] =>
          destruct ((if c then await hasCancelBtn clicks else ret tt) w)
            as [w1 [e | []]] eqn:Hyield
      end.
      { destruct (Nat.eqb _ 0); discriminate. }
      fold loop in Hrun. apply IH in Hrun; [|unfold sampleSize; lia].
      destruct Hrun as (detected & Hlen & Hframes & Hex & Hp & Ht & Hstop).
      exists (pitch :: detected). cbn [List.length frameOffsets].
      fold (accepted pitch) in *.
      split; [lia|]. split.
      { rewrite Hframes. destruct (accepted pitch); cbn [frames]; lia. }
      split.
      { constructor; [|exact Hex]. split; [lia | exact Hdet]. }
      split.
      { rewrite Hp. unfold keptPitches. cbn [filter].
        destruct (accepted pitch); cbn [pitches];
          [now rewrite <- app_assoc | reflexivity]. }
      split.
      { rewrite Ht. unfold keptTimestamps. cbn [combine filter snd].
        destruct (accepted pitch); cbn [timestamps map fst];
          [now rewrite <- app_assoc | reflexivity]. }
      destruct Hstop as [Hstop | Hstop]; [left; lia | right].
      unfold sampleSize in Hstop. lia.
    + apply Z.ltb_ge in E. injection Hrun as _ <-. exists []. cbn.
      rewrite !app_nil_r, Nat.add_0_r. repeat split; auto; lia.
Qed.

(** With no cancellation and a [detectPitch] that returns on every
    frame, the loop returns. *)
Lemma pitchLoop_returns (remaining : nat) (i : Z) (st : PitchState)
    (w : World) :
  (forall frame, exists p, detectPitch frame = inr p) ->
  (forall k, (hasCancelBtn && clicks k)%bool = false) ->
  analysisCancelled w = false ->
  exists w' st', loop remaining samples rate i st w = (w', inr st')
                 /\ analysisCancelled w' = false.
Proof.
  intros Htotal Hquiet. revert i st w.
  induction remaining as [| k IH]; intros i st w Hflag.
  - exists w, st. split; [reflexivity | exact Hflag].
  - unfold loop. cbn [pitchLoop].
    destruct (i <? Z.of_nat (List.length samples) - sampleSize);
      [| exists w, st; split; [reflexivity | exact Hflag]].
    unfold bind at 1, checkCancelled. rewrite Hflag.
    unfold bind at 1, call.
    destruct (Htotal (slice samples (ofZ i) (ofZ (i + sampleSize))))
      as [p ->].
    unfold bind at 1.
    match goal with
    | |- context [(if ?c then await _ _ else ret tt) w] =>
        destruct ((if c then await hasCancelBtn clicks else ret tt) w)
          as [w1 [e | []]] eqn:Hyield
    end.
    { destruct (Nat.eqb _ 0); discriminate. }
    apply IH.
    destruct (Nat.eqb _ 0).
    + unfold await, modify in Hyield. injection Hyield as <-.
      cbn. now rewrite Hflag, Hquiet.
    + unfold ret in Hyield. now injection Hyield as <-.
Qed.

End PitchFacts.

(** C8.  The whole-clip pitch sampling examines frames at the fixed stride
    of [4096 * 64] samples, at most 20 of them; the series it leaves holds
    exactly the detected frequencies [f] with [0 < f < 2000], in frame
    order, each paired with the time [offset / sampleRate] of its frame;
    the other detections are dropped and nothing is put in their place.
    The walk stops only at the cap or when no further frame fits.  With no
    cancellation and a [detectPitch] that returns, the sampling returns. *)
Theorem pitch_sampling (hasCancelBtn : bool) (clicks : nat -> bool)
    (detectPitch : list jsnum -> string + jsnum)
    (samples : list jsnum) (rate : jsnum) (w : World) :
  let run := pitchLoop hasCancelBtn clicks detectPitch maxFrames samples rate 0
               (mkPitchState [] [] 0) w in
  (forall w' st, run = (w', inr st) ->
     (frames st <= 20)%nat
     /\ exists detected : list jsnum,
          let offsets := frameOffsets 0 (frames st) in
          List.length detected = frames st
          /\ (forall k, (k < frames st)%nat ->
                nth_error offsets k = Some (Z.of_nat k * 262144))
          /\ Forall2 (examinedFrame detectPitch samples) offsets detected
          /\ pitches st = keptPitches detected
          /\ timestamps st = keptTimestamps rate offsets detected
          /\ Forall (fun f => jlt (Fin 0) f = true /\ jlt f (Fin 2000) = true)
                    (pitches st)
          /\ List.length (timestamps st) = List.length (pitches st)
          /\ (frames st = 20%nat
              \/ ~ (Z.of_nat (frames st) * 262144
                    < Z.of_nat (List.length samples) - 4096)))
  /\ ((forall frame, exists p, detectPitch frame = inr p) ->
      (forall k, (hasCancelBtn && clicks k)%bool = false) ->
      analysisCancelled w = false ->
      exists w' st, run = (w', inr st)).
Proof.
  intro run. split.
  - intros w' st Hrun. subst run.
    apply pitchLoop_spec in Hrun; [|lia].
    destruct Hrun as (detected & Hlen & Hframes & Hex & Hp & Ht & Hstop).
    cbn [frames pitches timestamps app Nat.add] in *.
    rewrite <- Hframes in *.
    split; [exact Hlen|].
    exists detected. cbv zeta.
    split; [now symmetry|].
    split; [intros k Hk; now rewrite frameOffsets_nth by assumption|].
    split; [exact Hex|]. split; [exact Hp|]. split; [exact Ht|].
    split; [rewrite Hp; apply keptPitches_in_range|].
    split.
    + rewrite Hp, Ht. apply kept_lengths. now rewrite frameOffsets_length.
    + destruct Hstop as [Hstop | Hstop]; [left; exact Hstop | right].
      unfold sampleSize in Hstop. lia.
  - intros Htotal Hquiet Hflag. subst run.
    destruct (pitchLoop_returns hasCancelBtn clicks detectPitch samples rate
                maxFrames 0 (mkPitchState [] [] 0) w Htotal Hquiet Hflag)
      as (w' & st' & Hrun & _).
    now exists w', st'.
Qed.

(** *** Cancellation *)

Section CancelFacts.

Variable clicks : nat -> bool.
Variable analyzeRhythm : list jsnum -> string + RhythmAnalysis.t.
Variable calculateTemporalFeatures : list jsnum -> string + (jsnum * jsnum).
Variable detectPolyrhythm : list jsnum -> string + (bool * string).
Variable calculateZCR : list jsnum -> string + jsnum.
Variable detectPitch : list jsnum -> string + jsnum.
Variable identifyScale : list jsnum -> string + ScaleAnalysis.t.
Variable getAllCultures : list Culture.t.
Variable now : string.
Variable destroyChart newChart : Chart -> string + unit.
Variable pitchLabels pitchSummary : list jsnum -> string + unit.
Variable undefinedSlice : string.

Let run := analyzeAudioFile true clicks analyzeRhythm
             calculateTemporalFeatures detectPolyrhythm calculateZCR
             detectPitch identifyScale getAllCultures now
             destroyChart newChart pitchLabels pitchSummary undefinedSlice.

Let rhythm := rhythmStage analyzeRhythm calculateTemporalFeatures
                detectPolyrhythm calculateZCR.

(** The rhythm stage only calls the analyzer: it leaves the world as it
    is. *)
Lemma rhythmStage_pure (samples : list jsnum) (w : World) :
  fst (rhythm samples w) = w.
Proof.
  unfold rhythm, rhythmStage, bind, call, ret.
  destruct (analyzeRhythm samples); [reflexivity|].
  destruct (calculateTemporalFeatures _); [reflexivity|].
  destruct (detectPolyrhythm _); [reflexivity|].
  destruct (calculateZCR samples); reflexivity.
Qed.

(** A click during the first suspension stops the run at the check
    before the rhythm stage. *)
Lemma cancel_before_rhythm (audioBuffer : AudioBuffer) (filename : string)
    (w : World) :
  clicks (suspensions w) = true ->
  run audioBuffer filename w
  = mkWorld true false (AnalysisFailed "Analysis cancelled")
            (currentAnalysisData w) None
            (S (suspensions w)).
Proof.
  intro Hclick. unfold run, analyzeAudioFile, analysisBody.
  unfold bind at 1, setCancelled, modify.
  unfold bind at 1, setCancelBtn, modify.
  unfold bind at 1, setPanel at 1, modify.
  unfold bind at 1, setPanel at 1, modify.
  unfold bind at 1, await at 1, modify.
  unfold bind at 1, checkCancelled at 1.
  cbn [analysisCancelled cancelBtnShown analysisResults currentAnalysisData
       culturalInsights suspensions orb andb].
  rewrite Hclick. reflexivity.
Qed.

(** A click during the second suspension, after a rhythm stage that
    returned, stops the run at the check before the pitch stage. *)
Lemma cancel_after_rhythm (audioBuffer : AudioBuffer) (filename : string)
    (w : World) (rhythmAnalysis : RhythmAnalysis.t) :
  clicks (suspensions w) = false ->
  clicks (S (suspensions w)) = true ->
  (forall w1, snd (rhythm (trimmedChannel audioBuffer) w1) = inr rhythmAnalysis) ->
  run audioBuffer filename w
  = mkWorld true false (AnalysisFailed "Analysis cancelled")
            (currentAnalysisData w) None
            (S (S (suspensions w))).
Proof.
  intros Hquiet Hclick Hrhythm.
  unfold run, analyzeAudioFile, analysisBody.
  unfold bind at 1, setCancelled, modify.
  unfold bind at 1, setCancelBtn, modify.
  unfold bind at 1, setPanel at 1, modify.
  unfold bind at 1, setPanel at 1, modify.
  unfold bind at 1, await at 1, modify.
  unfold bind at 1, checkCancelled at 1.
  cbn [analysisCancelled cancelBtnShown analysisResults currentAnalysisData
       culturalInsights suspensions orb andb].
  rewrite Hquiet.
  unfold bind at 1. fold rhythm.
  match goal with
  | |- context [rhythm ?s ?w0] =>
      pose proof (rhythmStage_pure s w0) as Hw;
      pose proof (Hrhythm w0) as Hr;
      destruct (rhythm s w0) as [w1 res]
  end.
  cbn [fst snd] in Hw, Hr. subst w1 res.
  unfold bind at 1, await at 1, modify.
  unfold bind at 1, checkCancelled at 1.
  cbn [analysisCancelled cancelBtnShown analysisResults currentAnalysisData
       culturalInsights suspensions orb andb].
  rewrite Hclick. reflexivity.
Qed.

End CancelFacts.

(** The display functions draw on the grid and write under the charts:
    they change nothing that the world records. *)
Lemma displayPitchAnalysis_pure (destroyChart newChart : Chart -> string + unit)
    (pitchLabels pitchSummary : list jsnum -> string + unit)
    (pitches timestamps : list jsnum) (w : World) :
  fst (displayPitchAnalysis destroyChart newChart pitchLabels pitchSummary
         pitches timestamps w) = w.
Proof.
  unfold displayPitchAnalysis, bind, call.
  destruct (destroyChart PitchChart); [reflexivity|].
  destruct (pitchLabels pitches); [reflexivity|].
  destruct (newChart PitchChart); reflexivity.
Qed.

Lemma displayRhythmAnalysis_pure (destroyChart newChart : Chart -> string + unit)
    (undefinedSlice : string) (rhythmAnalysis : RhythmAnalysis.t) (w : World) :
  fst (displayRhythmAnalysis destroyChart newChart undefinedSlice
         rhythmAnalysis w) = w.
Proof.
  unfold displayRhythmAnalysis, bind, call, throw.
  destruct (destroyChart RhythmChart); [reflexivity|].
  destruct (RhythmAnalysis.intervals rhythmAnalysis); reflexivity.
Qed.

Lemma displaySpectralAnalysis_pure (destroyChart newChart : Chart -> string + unit)
    (spectralAnalysis : SpectralAnalysis) (w : World) :
  fst (displaySpectralAnalysis destroyChart newChart spectralAnalysis w) = w.
Proof.
  unfold displaySpectralAnalysis, bind, call.
  destruct (destroyChart SpectralChart); reflexivity.
Qed.

(** Every run ends on the results grid or on the failure panel: the run
    has no third outcome. *)
Lemma run_outcomes (hasCancelBtn : bool) (clicks : nat -> bool)
    (analyzeRhythm : list jsnum -> string + RhythmAnalysis.t)
    (calculateTemporalFeatures : list jsnum -> string + (jsnum * jsnum))
    (detectPolyrhythm : list jsnum -> string + (bool * string))
    (calculateZCR : list jsnum -> string + jsnum)
    (detectPitch : list jsnum -> string + jsnum)
    (identifyScale : list jsnum -> string + ScaleAnalysis.t)
    (getAllCultures : list Culture.t) (now : string)
    (destroyChart newChart : Chart -> string + unit)
    (pitchLabels pitchSummary : list jsnum -> string + unit)
    (undefinedSlice : string)
    (audioBuffer : AudioBuffer) (filename : string) (w : World) :
  let w' := analyzeAudioFile hasCancelBtn clicks analyzeRhythm
              calculateTemporalFeatures detectPolyrhythm calculateZCR
              detectPitch identifyScale getAllCultures now
              destroyChart newChart pitchLabels pitchSummary undefinedSlice
              audioBuffer filename w in
  analysisResults w' = ResultsGrid \/ reportsFailure w'.
Proof.
  intro w'. subst w'. unfold analyzeAudioFile.
  match goal with
  | |- context [match ?body with pair _ _ => _ end] =>
      destruct body as [w1 [msg | []]] eqn:Hbody
  end.
  - right. exists msg. destruct hasCancelBtn; reflexivity.
  - left. revert Hbody. unfold analysisBody.
    repeat (unfold bind at 1;
            match goal with
            | |- context [match ?m ?w0 with pair _ _ => _ end] =>
                destruct (m w0) as [? [? | ?]] eqn:?
            end; [intro; discriminate|]).
    intro Hlast.
    repeat match goal with
           | H : setPanel ResultsGrid _ = (?w2, _) |- _ =>
               assert (analysisResults w2 = ResultsGrid)
                 by (unfold setPanel, modify in H; now injection H as <- _);
               clear H
           | H : setAnalysisData _ ?w0 = (?w2, _) |- _ =>
               assert (analysisResults w2 = analysisResults w0)
                 by (unfold setAnalysisData, modify in H;
                     now injection H as <- _);
               clear H
           | H : call _ ?w0 = (?w2, _) |- _ =>
               assert (w2 = w0) by (unfold call in H; now injection H as <- _);
               clear H
           | H : displayPitchAnalysis ?a ?b ?c ?d ?e ?f ?w0 = (?w2, _) |- _ =>
               assert (w2 = w0)
                 by (now rewrite <- (displayPitchAnalysis_pure a b c d e f w0), H);
               clear H
           | H : displayRhythmAnalysis ?a ?b ?c ?d ?w0 = (?w2, _) |- _ =>
               assert (w2 = w0)
                 by (now rewrite <- (displayRhythmAnalysis_pure a b c d w0), H);
               clear H
           | H : displaySpectralAnalysis ?a ?b ?c ?w0 = (?w2, _) |- _ =>
               assert (w2 = w0)
                 by (now rewrite <- (displaySpectralAnalysis_pure a b c w0), H);
               clear H
           | H : setupDownloadButtons ?w0 = (?w2, _) |- _ =>
               assert (w2 = w0)
                 by (unfold setupDownloadButtons, ret in H;
                     now injection H as <-);
               clear H
           | H : displayMusicalInsights _ _ _ _ ?w0 = (?w2, _) |- _ =>
               assert (analysisResults w2 = analysisResults w0)
                 by (unfold displayMusicalInsights, setInsights, modify in H;
                     now injection H as <- _);
               clear H
           end.
    assert (analysisResults w1 = ResultsGrid); [|assumption].
    destruct hasCancelBtn; unfold setCancelBtn, modify, ret in Hlast;
      injection Hlast as <-; cbn [analysisResults]; congruence.
Qed.

(** C2, as the code has it.  When the cancel button is clicked before the
    pitch stage begins (during the suspension before the rhythm stage, or
    during the one after a rhythm stage that returned), the run stops at the
    next check by throwing [Error('Analysis cancelled')]; the common
    handler shows the failure panel with that message and hides the
    button: the run ends on the outcome of a failed run.  No pitch,
    spectral, scale or cultural-match data is populated: the run stores no
    analysis data, and the panel, rewritten by the handler, lists no
    similar cultures. *)
Theorem cancel_before_pitch (clicks : nat -> bool)
    (analyzeRhythm : list jsnum -> string + RhythmAnalysis.t)
    (calculateTemporalFeatures : list jsnum -> string + (jsnum * jsnum))
    (detectPolyrhythm : list jsnum -> string + (bool * string))
    (calculateZCR : list jsnum -> string + jsnum)
    (detectPitch : list jsnum -> string + jsnum)
    (identifyScale : list jsnum -> string + ScaleAnalysis.t)
    (getAllCultures : list Culture.t) (now : string)
    (destroyChart newChart : Chart -> string + unit)
    (pitchLabels pitchSummary : list jsnum -> string + unit)
    (undefinedSlice : string)
    (audioBuffer : AudioBuffer) (filename : string) (w : World) :
  clicks (suspensions w) = true
  \/ (clicks (S (suspensions w)) = true
      /\ exists rhythmAnalysis, forall w1,
           snd (rhythmStage analyzeRhythm calculateTemporalFeatures
                  detectPolyrhythm calculateZCR
                  (trimmedChannel audioBuffer) w1) = inr rhythmAnalysis) ->
  let w' := analyzeAudioFile true clicks analyzeRhythm
              calculateTemporalFeatures detectPolyrhythm calculateZCR
              detectPitch identifyScale getAllCultures now
              destroyChart newChart pitchLabels pitchSummary undefinedSlice
              audioBuffer filename w in
  analysisResults w' = AnalysisFailed "Analysis cancelled"
  /\ reportsFailure w'
  /\ cancelBtnShown w' = false
  /\ currentAnalysisData w' = currentAnalysisData w
  /\ culturalInsights w' = None.
Proof.
  intros Hcancel w'.
  assert (Hw : exists n,
            w' = mkWorld true false (AnalysisFailed "Analysis cancelled")
                   (currentAnalysisData w) None n).
  { subst w'. destruct (clicks (suspensions w)) eqn:E0.
    - eexists. now apply cancel_before_rhythm.
    - destruct Hcancel as [H | (H1 & ra & Hra)]; [discriminate|].
      eexists.
      now apply (cancel_after_rhythm _ _ _ _ _ _ _ _ _ _ _ _ _ _ _ _ _ ra). }
  destruct Hw as [n ->]. cbn. repeat split.
  now exists "Analysis cancelled"%string.
Qed.

(** *** Concrete runs *)

(** C2, as stated, fails: a run cancelled before the pitch stage ends on
    the failure panel, the outcome of a failed run, and shows the same
    page as a run whose rhythm stage threw an error with that message. *)
Lemma cancelled_run_reports_failure :
  let w' := demoRun (fun k => Nat.eqb k 0) in
  analysisCancelled w' = true
  /\ reportsFailure w'
  /\ analysisResults w' = analysisResults (faultRun "Analysis cancelled")
  /\ cancelBtnShown w' = cancelBtnShown (faultRun "Analysis cancelled").
Proof.
  cbv zeta. split; [vm_compute; reflexivity|].
  split; [|split; vm_compute; reflexivity].
  exists "Analysis cancelled"%string. vm_compute. reflexivity.
Qed.

Lemma cancel_before_pitch_witness :
  let secondSuspension := fun k => Nat.eqb k (S (suspensions usedPage)) in
  let w' := runWith beatRhythm secondSuspension usedPage in
  analysisResults w' = AnalysisFailed "Analysis cancelled"
  /\ reportsFailure w'
  /\ cancelBtnShown w' = false
  /\ currentAnalysisData w' = currentAnalysisData usedPage
  /\ culturalInsights w' = None.
Proof.
  refine (cancel_before_pitch
            (fun k => Nat.eqb k (S (suspensions usedPage)))
            (fun _ => inr beatRhythm) (fun _ => inr (Fin 0, Fin 0))
            (fun _ => inr (false, EmptyString)) (fun _ => inr (Fin 0))
            (fun _ => inr (Fin 440)) (fun _ => inr sampleScale)
            [sampleCulture] "2026-01-01"
            (fun _ => inr tt) (fun _ => inr tt) (fun _ => inr tt)
            (fun _ => inr tt) sliceOfUndefined demoBuffer "clip.wav"
            usedPage _).
  right. split; [apply Nat.eqb_refl|].
  exists (RhythmAnalysis.mk (Fin 110) (Fin 12) (Fin (9 # 10))
            (Some [Fin 545; Fin 545])
            (Fin 0) (Fin 0) false EmptyString (Fin 0)).
  intro w1. reflexivity.
Defined.

Example completed_run_shows_results :
  let w' := demoRun (fun _ => false) in
  analysisResults w' = ResultsGrid
  /\ option_map d_pitches (currentAnalysisData w') = Some []
  /\ option_map (map score) (culturalInsights w') = Some [12].
Proof. cbv zeta. repeat split; vm_compute; reflexivity. Qed.

(** A run whose rhythm analysis has no [intervals] stores its data and
    then fails in [displayRhythmAnalysis]. *)
Example run_without_intervals_fails :
  let w' := runWith sampleRhythm (fun _ => false) freshPage in
  analysisResults w' = AnalysisFailed sliceOfUndefined
  /\ option_map d_pitches (currentAnalysisData w') = Some []
  /\ culturalInsights w' = None.
Proof. cbv zeta. repeat split; vm_compute; reflexivity. Qed.

Example fault_run_reports_failure :
  analysisResults (faultRun "no samples") = AnalysisFailed "no samples".
Proof. vm_compute. reflexivity. Qed.

Lemma pitch_sampling_witness :
  exists w' st,
    pitchLoop false (fun _ => false) (fun _ => inr (Fin 440)) maxFrames
      (repeat (Fin 0) 5000) (Fin 8000) 0 (mkPitchState [] [] 0) freshPage
    = (w', inr st).
Proof.
  refine (proj2 (pitch_sampling false (fun _ => false)
                   (fun _ => inr (Fin 440)) (repeat (Fin 0) 5000) (Fin 8000)
                   freshPage) _ _ _).
  - intro frame. now exists (Fin 440).
  - reflexivity.
  - reflexivity.
Defined.

Example pitch_sampling_keeps_in_range :
  snd (pitchLoop false (fun _ => false) (fun _ => inr (Fin 440)) maxFrames
         (repeat (Fin 0) 5000) (Fin 8000) 0 (mkPitchState [] [] 0) freshPage)
  = inr (mkPitchState [Fin 440] [Fin (0 # 8000)] 1).
Proof. vm_compute. reflexivity. Qed.

Example pitch_sampling_drops_out_of_range :
  snd (pitchLoop false (fun _ => false) (fun _ => inr (Fin 2000)) maxFrames
         (repeat (Fin 0) 5000) (Fin 8000) 0 (mkPitchState [] [] 0) freshPage)
  = inr (mkPitchState [] [] 1).
Proof. vm_compute. reflexivity. Qed.

(* ===================================================================== *)
(** * Further properties of the code *)
(* ===================================================================== *)

(** ** Cultural matching *)

Lemma StronglySorted_app_inv {A : Type} (R : A -> A -> Prop) (l1 l2 : list A)
    (a b : A) :
  StronglySorted R (l1 ++ l2) -> In a l1 -> In b l2 -> R a b.
Proof.
  induction l1 as [| x l1 IH]; intros Hs Ha Hb; [contradiction|].
  cbn [app] in Hs. apply StronglySorted_inv in Hs. destruct Hs as [Hl Hx].
  destruct Ha as [-> | Ha].
  - rewrite Forall_forall in Hx. apply Hx, in_or_app. now right.
  - now apply IH.
Qed.

Lemma culturalMatches_In (rhythmAnalysis : RhythmAnalysis.t)
    (scaleAnalysis : ScaleAnalysis.t) (allCultures : list Culture.t)
    (m : Match) :
  In m (culturalMatches rhythmAnalysis scaleAnalysis allCultures)
  <-> In (culture m) allCultures
      /\ score m = cultureScore rhythmAnalysis scaleAnalysis (culture m)
      /\ 0 < score m.
Proof.
  rewrite culturalMatches_filter. cbv zeta. rewrite in_map_iff. split.
  - intros (c & <- & Hc). apply filter_In in Hc. destruct Hc as [Hin Hpos].
    apply Z.ltb_lt in Hpos. cbn [culture score]. auto.
  - intros (Hin & Hs & Hpos). exists (culture m). split.
    + destruct m as [c s]. cbn [culture score] in *. now subst s.
    + apply filter_In. split; [exact Hin|]. apply Z.ltb_lt. now rewrite <- Hs.
Qed.

(** X1.  The five listed cultures are the best five: a culture of the
    table with a positive score is either listed with that score, or the
    list is full and every listed match scores at least as much. *)
Theorem topMatches_best_five (rhythmAnalysis : RhythmAnalysis.t)
    (scaleAnalysis : ScaleAnalysis.t) (allCultures : list Culture.t)
    (c : Culture.t) :
  In c allCultures ->
  0 < cultureScore rhythmAnalysis scaleAnalysis c ->
  let result := topMatches rhythmAnalysis scaleAnalysis allCultures in
  In (mkMatch c (cultureScore rhythmAnalysis scaleAnalysis c)) result
  \/ (List.length result = 5%nat
      /\ Forall (fun m => cultureScore rhythmAnalysis scaleAnalysis c <= score m)
                result).
Proof.
  intros Hin Hpos result. subst result. rewrite topMatches_firstn.
  set (m := mkMatch c (cultureScore rhythmAnalysis scaleAnalysis c)).
  set (sorted := sortBy byScoreDesc
                   (culturalMatches rhythmAnalysis scaleAnalysis allCultures)).
  assert (Hm : In m sorted).
  { apply (proj2 (sortBy_In score m _)).
    apply culturalMatches_In. cbn [culture score]. auto. }
  assert (Hsorted : StronglySorted (fun a b => score b <= score a) sorted)
    by apply (sortBy_sorted score).
  rewrite <- (firstn_skipn 5 sorted) in Hm, Hsorted.
  apply in_app_or in Hm. destruct Hm as [Hm | Hm]; [now left | right].
  split.
  - rewrite length_firstn. apply Nat.min_l.
    destruct (Nat.le_gt_cases 5 (List.length sorted)) as [H | H]; [exact H|].
    rewrite skipn_all2 in Hm by lia. contradiction.
  - apply Forall_forall. intros a Ha.
    exact (StronglySorted_app_inv _ _ _ a m Hsorted Ha Hm).
Qed.

Lemma topMatches_best_five_witness :
  In (mkMatch sampleCulture (cultureScore sampleRhythm sampleScale sampleCulture))
     (topMatches sampleRhythm sampleScale [slowCulture; sampleCulture])
  \/ (List.length (topMatches sampleRhythm sampleScale [slowCulture; sampleCulture])
      = 5%nat
      /\ Forall (fun m => cultureScore sampleRhythm sampleScale sampleCulture
                          <= score m)
                (topMatches sampleRhythm sampleScale [slowCulture; sampleCulture])).
Proof.
  apply (topMatches_best_five sampleRhythm sampleScale
           [slowCulture; sampleCulture] sampleCulture).
  - right. left. reflexivity.
  - vm_compute. reflexivity.
Defined.

(** X2.  Every listed match has a score from 1 to 20, and 20 is reached:
    the text [score/10] can show up to [20/10]. *)
Theorem listed_scores_from_1_to_20 (rhythmAnalysis : RhythmAnalysis.t)
    (scaleAnalysis : ScaleAnalysis.t) (allCultures : list Culture.t) :
  Forall (fun m => 1 <= score m <= 20)
         (topMatches rhythmAnalysis scaleAnalysis allCultures)
  /\ exists rhythmAnalysis' scaleAnalysis' culture',
       cultureScore rhythmAnalysis' scaleAnalysis' culture' = 20.
Proof.
  split.
  - apply Forall_forall. intros m Hm.
    rewrite topMatches_firstn in Hm. apply firstn_subset in Hm.
    apply (proj1 (sortBy_In score m _)) in Hm.
    apply culturalMatches_In in Hm. destruct Hm as (_ & Hs & Hpos).
    pose proof (cultureScore_range rhythmAnalysis scaleAnalysis (culture m)).
    lia.
  - exists sampleRhythm, (ScaleAnalysis.mk "Major Pentatonic Minor" (Fin 1)),
      (Culture.mk "Sample tradition" "*"
         (Characteristics.mk "100-120"
            "Steady, regular pulse under complex polyrhythmic layers"
            "Pentatonic, major and minor modes")).
    vm_compute. reflexivity.
Qed.

(** *** Tempo texts *)

Lemma split_no_separator (s : string) :
  includes s "-" = false -> split "-" s = [s].
Proof.
  induction s as [| c s IH]; intro H; [reflexivity|].
  cbn [includes prefix] in H. cbn [split].
  destruct (Ascii.eqb_spec c "-") as [-> | Hc].
  - destruct (ascii_dec "-" "-") as [_ | E]; [|now elim E].
    destruct s; discriminate H.
  - destruct (ascii_dec "-" c) as [E | _]; [now symmetry in E|].
    cbn [orb] in H. now rewrite (IH H).
Qed.

(** X3.  A tempo text with no hyphen (a single number, or a word such
    as [Variable]) has no readable midpoint: the culture earns no tempo
    points, whatever tempo was detected, and its score is made of the
    descriptor points alone. *)
Theorem tempo_without_hyphen_earns_nothing (rhythmAnalysis : RhythmAnalysis.t)
    (scaleAnalysis : ScaleAnalysis.t) (culture : Culture.t) :
  includes (Characteristics.tempo (Culture.characteristics culture)) "-" = false ->
  avgTempo (Culture.characteristics culture) = NaN
  /\ tempoPoints rhythmAnalysis (Culture.characteristics culture) = 0
  /\ cultureScore rhythmAnalysis scaleAnalysis culture
     = descriptorPoints rhythmAnalysis scaleAnalysis culture.
Proof.
  intro H.
  assert (Havg : avgTempo (Culture.characteristics culture) = NaN).
  { unfold avgTempo. rewrite (split_no_separator _ H). cbn [map numAt nth].
    destruct (parseInt _); reflexivity. }
  assert (Hpts : tempoPoints rhythmAnalysis (Culture.characteristics culture) = 0)
    by (apply tempoPoints_unreadable; now left).
  repeat split; [exact Havg | exact Hpts|].
  rewrite cultureScore_split, Hpts. reflexivity.
Qed.

Lemma tempo_without_hyphen_earns_nothing_witness :
  cultureScore sampleRhythm sampleScale
    (Culture.mk "Single tempo" "*"
       (Characteristics.mk "110" "Steady" "Minor")) = 4.
Proof.
  rewrite (proj2 (proj2 (tempo_without_hyphen_earns_nothing
                           sampleRhythm sampleScale
                           (Culture.mk "Single tempo" "*"
                              (Characteristics.mk "110" "Steady" "Minor"))
                           eq_refl))).
  reflexivity.
Defined.

Lemma parseDigits_uint_then (d : Decimal.uint) (acc : nat) (tail : string) :
  parseDigits 10 (Some (Z.of_nat acc))
    (String.append (DecimalString.NilEmpty.string_of_uint d) tail)
  = parseDigits 10 (Some (Z.of_nat (Nat.of_uint_acc d acc))) tail.
Proof.
  revert acc.
  induction d as [| d IH | d IH | d IH | d IH | d IH | d IH | d IH | d IH
                  | d IH | d IH]; intro acc; [reflexivity | ..];
    cbn [DecimalString.NilEmpty.string_of_uint String.append parseDigits
         Nat.of_uint_acc];
    match goal with
    | |- context [digitVal ?c] =>
        let v := eval vm_compute in (digitVal c) in
        change (digitVal c) with v
    end;
    cbv iota;
    match goal with
    | |- context [(?x <? 10)] => change (x <? 10) with true
    end;
    cbv iota; rewrite <- IH; do 2 f_equal;
    rewrite Nat.tail_mul_spec; lia.
Qed.

(** [parseInt] stops at the space after the digits. *)
Lemma parseInt_decimal_then_space (n : nat) (rest : string) :
  parseInt (String.append (decimal n) (String " " rest)) = ofZ (Z.of_nat n).
Proof.
  destruct (decimal_uint n) as (d & Hd & -> & <-).
  assert (Hnext : forall d' c1 tail,
            String.append (DecimalString.NilEmpty.string_of_uint d')
                          (String " " rest) = String c1 tail ->
            (Ascii.eqb c1 "x" || Ascii.eqb c1 "X")%bool = false).
  { intros d' c1 tail Heq.
    destruct d'; cbn in Heq; injection Heq as <- _; reflexivity. }
  assert (Hstop : forall acc : nat,
            parseDigits 10 (Some (Z.of_nat acc)) (String " " rest)
            = Some (Z.of_nat acc)) by reflexivity.
  unfold Nat.of_uint.
  destruct d as [| d | d | d | d | d | d | d | d | d | d];
    [contradiction | ..];
    cbn [DecimalString.NilEmpty.string_of_uint String.append];
    (rewrite parseInt_plain;
     [ cbn [parseDigits];
       match goal with
       | |- context [digitVal ?c] =>
           let v := eval vm_compute in (digitVal c) in
           change (digitVal c) with v
       end;
       cbv iota;
       match goal with
       | |- context [(?x <? 10)] => change (x <? 10) with true
       end;
       cbv iota;
       match goal with
       | |- context [parseDigits 10 (Some ?z) (String.append _ _)] =>
           change z with (Z.of_nat (Z.to_nat z))
       end;
       rewrite parseDigits_uint_then, Hstop, Z.mul_1_l; reflexivity
     | reflexivity | reflexivity | reflexivity
     | intros c1 tail Heq; rewrite (Hnext _ _ _ Heq);
       now rewrite andb_false_r ]).
Qed.

Lemma append_assoc (a b c : string) :
  String.append (String.append a b) c = String.append a (String.append b c).
Proof.
  induction a as [| x a IH]; [reflexivity|]. cbn. now rewrite IH.
Qed.

Lemma split_first_piece (s : string) :
  exists piece pieces, split "-" s = piece :: pieces.
Proof.
  induction s as [| c s (piece & pieces & IH)]; cbn [split].
  - now exists EmptyString, [].
  - destruct (Ascii.eqb c "-"); [now eexists; eexists|].
    rewrite IH. now eexists; eexists.
Qed.

Lemma split_range_with_unit (lo hi : nat) (suffix : string) :
  exists piece pieces,
    split "-" (String.append (rangeText lo hi) (String " " suffix))
    = decimal lo :: String.append (decimal hi) (String " " piece) :: pieces.
Proof.
  unfold rangeText. rewrite append_assoc. cbn [String.append].
  destruct (decimal_uint lo) as (dl & _ & -> & _).
  destruct (decimal_uint hi) as (dh & _ & -> & _).
  rewrite split_uint. cbn [split].
  change (Ascii.eqb "-" "-") with true. cbv iota.
  rewrite split_uint. cbn [split].
  change (Ascii.eqb " " "-") with false. cbv iota.
  destruct (split_first_piece suffix) as (piece & pieces & ->).
  rewrite append_empty_r. now exists piece, pieces.
Qed.

(** X4.  A tempo range written [lo-hi] is read as its midpoint
    [(lo + hi) / 2], and text after the range, set off by a space (a unit
    such as [BPM]), does not change it. *)
Theorem avgTempo_range_with_unit (lo hi : nat) (suffix rhythm scales : string) :
  let mid := Fin ((inject_Z (Z.of_nat lo) + inject_Z (Z.of_nat hi)) / 2) in
  avgTempo (Characteristics.mk (rangeText lo hi) rhythm scales) = mid
  /\ avgTempo (Characteristics.mk
                 (String.append (rangeText lo hi) (String " " suffix))
                 rhythm scales) = mid.
Proof.
  intro mid. split; [apply avgTempo_midpoint|].
  unfold avgTempo. cbn [Characteristics.tempo].
  destruct (split_range_with_unit lo hi suffix) as (piece & pieces & ->).
  cbn [map numAt nth].
  rewrite parseInt_decimal, parseInt_decimal_then_space. reflexivity.
Qed.

(** ** Spectral analysis *)

Lemma windowLoop_frame_lengths (remaining : nat) (channelData : list jsnum)
    (i : Z) (acc : list (list jsnum)) :
  0 <= i ->
  Forall (fun fft => List.length fft = 1024%nat) acc ->
  Forall (fun fft => List.length fft = 1024%nat)
         (windowLoop remaining channelData i acc).
Proof.
  revert i acc.
  induction remaining as [| k IH]; intros i acc Hi Hacc; [exact Hacc|].
  cbn [windowLoop]. unfold fftSize.
  destruct (i <? Z.of_nat (List.length channelData) - 2048) eqn:E;
    [|exact Hacc].
  apply Z.ltb_lt in E. apply IH; [lia|].
  apply Forall_app. split; [exact Hacc|].
  constructor; [|constructor].
  rewrite performFFT_length, slice_window_length by lia. reflexivity.
Qed.

Lemma accumulate_length (avgSpectrum spec : list jsnum) :
  (List.length spec <= List.length avgSpectrum)%nat ->
  List.length (accumulate avgSpectrum spec) = List.length avgSpectrum.
Proof.
  revert spec. induction avgSpectrum as [| a avg IH]; intros spec Hlen.
  - destruct spec; [reflexivity | cbn in Hlen; lia].
  - destruct spec as [| x spec]; [reflexivity|].
    cbn [accumulate List.length] in *. rewrite IH; lia.
Qed.

Lemma fold_accumulate_length (spectrum : list (list jsnum))
    (avgSpectrum : list jsnum) :
  List.length avgSpectrum = 1024%nat ->
  Forall (fun fft => List.length fft = 1024%nat) spectrum ->
  List.length (fold_left accumulate spectrum avgSpectrum) = 1024%nat.
Proof.
  intros Hlen Hframes. revert avgSpectrum Hlen.
  induction Hframes as [| fft spectrum Hl Hrest IH]; intros avg Hlen;
    [exact Hlen|].
  cbn [fold_left]. apply IH. rewrite accumulate_length; lia.
Qed.

(** X5.  The averaged spectrum always has 1024 bins, whatever the samples
    are; for a clip of at most 2048 samples, which fills no window, every
    bin is [NaN] (the sum 0 divided by the window count 0). *)
Theorem analyzeSpectrum_bins (channelData : list jsnum) (sampleRate : jsnum) :
  List.length (spectrum (analyzeSpectrum channelData sampleRate)) = 1024%nat
  /\ ((List.length channelData <= 2048)%nat ->
      spectrum (analyzeSpectrum channelData sampleRate) = repeat NaN 1024).
Proof.
  split.
  - unfold analyzeSpectrum. cbn [spectrum]. unfold averageSpectrum.
    rewrite length_map. apply fold_accumulate_length.
    + now rewrite repeat_length.
    + apply windowLoop_frame_lengths; [lia | constructor].
  - intro Hshort. unfold analyzeSpectrum. cbn [spectrum].
    rewrite windowLoop_short by exact Hshort.
    unfold averageSpectrum. cbn [fold_left List.length].
    change (Z.to_nat (fftSize / 2)) with 1024%nat.
    generalize 1024%nat. intro n.
    induction n as [| n IH]; [reflexivity|].
    cbn [repeat map]. now rewrite IH.
Qed.

Lemma analyzeSpectrum_bins_witness :
  spectrum (analyzeSpectrum [Fin 1; Fin (-1)] (Fin 44100)) = repeat NaN 1024.
Proof.
  apply (proj2 (analyzeSpectrum_bins [Fin 1; Fin (-1)] (Fin 44100))).
  cbn [List.length]. lia.
Defined.

Lemma window_prefix_ext (d1 d2 : list jsnum) (i : nat) :
  (i + 2048 <= List.length d1)%nat ->
  List.length d1 = List.length d2 ->
  (forall j, (j < 1024)%nat -> nth (i + j) d1 NaN = nth (i + j) d2 NaN) ->
  performFFT (firstn 2048 (skipn i d1)) = performFFT (firstn 2048 (skipn i d2)).
Proof.
  intros Hlen Heq Hnth. unfold performFFT.
  rewrite !length_firstn, !length_skipn, <- Heq.
  replace (Nat.min 2048 (List.length d1 - i)) with 2048%nat by lia.
  change (Nat.div2 (2048 + 1)) with 1024%nat.
  rewrite !firstn_firstn. change (Nat.min 1024 2048) with 1024%nat.
  f_equal. apply (nth_ext _ _ NaN NaN).
  - rewrite !length_firstn, !length_skipn. lia.
  - intros j Hj. rewrite length_firstn, length_skipn in Hj.
    rewrite !nth_firstn.
    destruct (j <? 1024)%nat eqn:E; [|reflexivity].
    apply Nat.ltb_lt in E. rewrite !nth_skipn. now apply Hnth.
Qed.

Lemma windowLoop_ext (d1 d2 : list jsnum) (remaining k : nat)
    (acc : list (list jsnum)) :
  List.length d1 = List.length d2 ->
  (forall k' j, (k <= k' < k + remaining)%nat -> (j < 1024)%nat ->
     nth (spectrumSample k' j) d1 NaN = nth (spectrumSample k' j) d2 NaN) ->
  windowLoop remaining d1 (fftSize * 32 * Z.of_nat k) acc
  = windowLoop remaining d2 (fftSize * 32 * Z.of_nat k) acc.
Proof.
  intros Hlen. revert k acc.
  induction remaining as [| r IH]; intros k acc Hnth; [reflexivity|].
  cbn [windowLoop]. rewrite <- Hlen.
  destruct (fftSize * 32 * Z.of_nat k <? Z.of_nat (List.length d1) - fftSize)
    eqn:E; [|reflexivity].
  apply Z.ltb_lt in E. unfold fftSize in E.
  rewrite !slice_window by (unfold fftSize; lia).
  change (Z.to_nat fftSize) with 2048%nat.
  rewrite (window_prefix_ext d1 d2 (Z.to_nat (fftSize * 32 * Z.of_nat k))).
  - replace (fftSize * 32 * Z.of_nat k + fftSize * 32)
      with (fftSize * 32 * Z.of_nat (S k)) by lia.
    apply IH. intros k' j Hk' Hj. apply Hnth; lia.
  - unfold fftSize. lia.
  - exact Hlen.
  - intros j Hj. specialize (Hnth k j ltac:(lia) Hj).
    unfold spectrumSample in Hnth.
    replace (Z.to_nat (fftSize * 32 * Z.of_nat k) + j)%nat
      with (Z.to_nat (fftSize * 32 * Z.of_nat k + Z.of_nat j))
      by (unfold fftSize; lia).
    exact Hnth.
Qed.

(** X6.  [analyzeSpectrum] reads only the first 1024 samples of each
    window, and a window starts every 65536 samples, at most 50 times:
    two channels of the same length that agree on those samples get the
    same analysis. *)
Theorem analyzeSpectrum_samples_read (d1 d2 : list jsnum) (sampleRate : jsnum) :
  List.length d1 = List.length d2 ->
  (forall k j, (k < 50)%nat -> (j < 1024)%nat ->
     nth (spectrumSample k j) d1 NaN = nth (spectrumSample k j) d2 NaN) ->
  analyzeSpectrum d1 sampleRate = analyzeSpectrum d2 sampleRate.
Proof.
  intros Hlen Hnth. unfold analyzeSpectrum.
  assert (H : windowLoop maxWindows d1 0 [] = windowLoop maxWindows d2 0 []).
  { change 0 with (fftSize * 32 * Z.of_nat 0).
    apply windowLoop_ext; [exact Hlen|].
    intros k j Hk Hj. apply Hnth; [|exact Hj]. unfold maxWindows in Hk. lia. }
  now rewrite H.
Qed.

Lemma analyzeSpectrum_samples_read_witness :
  analyzeSpectrum (repeat (Fin 1) 1024 ++ repeat (Fin 5) 2000) (Fin 44100)
  = analyzeSpectrum (repeat (Fin 1) 1024 ++ repeat (Fin 7) 2000) (Fin 44100).
Proof.
  apply analyzeSpectrum_samples_read.
  - rewrite !length_app, !repeat_length. reflexivity.
  - intros k j Hk Hj. unfold spectrumSample.
    destruct k as [| k].
    + replace (Z.to_nat (fftSize * 32 * Z.of_nat 0 + Z.of_nat j)) with j by lia.
      rewrite !app_nth1 by (rewrite repeat_length; exact Hj). reflexivity.
    + rewrite !nth_overflow; [reflexivity | |];
        rewrite length_app, !repeat_length; unfold fftSize; lia.
Defined.

(** ** The analysis run *)

Lemma examined_offsets_in_range (detectPitch : list jsnum -> string + jsnum)
    (samples : list jsnum) (n : nat) (i : Z) (detected : list jsnum) :
  Forall2 (examinedFrame detectPitch samples) (frameOffsets i n) detected ->
  forall k, (k < n)%nat ->
    i + Z.of_nat k * 262144 < Z.of_nat (List.length samples) - 4096.
Proof.
  revert i detected. induction n as [| n IH]; intros i detected H k Hk; [lia|].
  cbn [frameOffsets] in H. inversion H as [| off p offs ps Hex Hrest]; subst.
  destruct k as [| k].
  - destruct Hex as [Hoff _]. unfold sampleSize in Hoff. lia.
  - specialize (IH _ _ Hrest k ltac:(lia)). unfold sampleSize in IH. lia.
Qed.

Lemma trimmedChannel_length_le (audioBuffer : AudioBuffer) (r : Q) :
  sampleRate audioBuffer = Fin r -> (0 < r)%Q ->
  Z.of_nat (List.length (trimmedChannel audioBuffer)) <= Qfloor (r * 15).
Proof.
  intros Hr Hpos.
  assert (Hfloor : 0 <= Qfloor (r * 15)).
  { change 0 with (Qfloor 0). apply Qfloor_resp_le. lra. }
  unfold trimmedChannel. rewrite (trimmedSamples_value _ r Hr).
  rewrite slice_prefix by lia. rewrite length_firstn. lia.
Qed.

(** X7.  The pitch loop runs on the trimmed channel, so the number of
    frames it examines is bounded by the 15 seconds kept: frame [k] starts
    at sample [k * 262144] and must start more than 4096 samples before
    [floor(sampleRate * 15)].  At a sample rate of 48000 Hz or less the
    loop examines at most 3 frames and keeps at most 3 pitches; the cap of
    20 frames is not reached. *)
Theorem pitch_frames_within_trim (hasCancelBtn : bool) (clicks : nat -> bool)
    (detectPitch : list jsnum -> string + jsnum)
    (audioBuffer : AudioBuffer) (r : Q) (w w' : World) (st : PitchState) :
  sampleRate audioBuffer = Fin r -> (0 < r)%Q ->
  pitchLoop hasCancelBtn clicks detectPitch maxFrames
    (trimmedChannel audioBuffer) (Fin r) 0 (mkPitchState [] [] 0) w
  = (w', inr st) ->
  (frames st = 0%nat
   \/ (Z.of_nat (frames st) - 1) * 262144 < Qfloor (r * 15) - 4096)
  /\ (List.length (pitches st) <= frames st)%nat
  /\ ((r <= 48000)%Q -> (frames st <= 3)%nat).
Proof.
  intros Hr Hpos Hrun.
  destruct (pitchLoop_spec hasCancelBtn clicks detectPitch
              (trimmedChannel audioBuffer) (Fin r) maxFrames 0
              (mkPitchState [] [] 0) st w w' ltac:(lia) Hrun)
    as (detected & Hspec).
  cbv zeta in Hspec.
  destruct Hspec as (_ & Hframes & Hex & Hpitches & _ & _).
  cbn [frames pitches app] in Hframes, Hpitches.
  pose proof (trimmedChannel_length_le audioBuffer r Hr Hpos) as Hlen.
  pose proof (examined_offsets_in_range _ _ _ _ _ Hex) as Hoff.
  assert (Hbound : frames st = 0%nat
                   \/ (Z.of_nat (frames st) - 1) * 262144
                      < Qfloor (r * 15) - 4096).
  { destruct (frames st) as [| n] eqn:E; [now left | right].
    specialize (Hoff n ltac:(lia)). lia. }
  split; [exact Hbound|]. split.
  - rewrite Hpitches, Hframes. unfold keptPitches. apply filter_length_le.
  - intro Hrate.
    assert (Hcap : Qfloor (r * 15) <= 720000).
    { change 720000 with (Qfloor (inject_Z 720000)).
      apply Qfloor_resp_le. change (inject_Z 720000) with (48000 * 15)%Q. lra. }
    destruct Hbound as [-> | Hb]; lia.
Qed.

Lemma pitch_frames_within_trim_witness :
  let st := mkPitchState [Fin 440; Fin 440]
              [Fin (0 / 44100); Fin (262144 / 44100)] 2 in
  (frames st = 0%nat
   \/ (Z.of_nat (frames st) - 1) * 262144 < Qfloor (44100 * 15) - 4096)
  /\ (List.length (pitches st) <= frames st)%nat
  /\ ((44100 <= 48000)%Q -> (frames st <= 3)%nat).
Proof.
  assert (Hr : (0 < 44100)%Q) by reflexivity.
  refine (pitch_frames_within_trim true (fun _ => false)
            (fun _ => inr (Fin 440)) longBuffer 44100
            freshPage freshPage _ eq_refl Hr _).
  vm_compute. reflexivity.
Defined.

Lemma call_returns {A : Type} (r : string + A) (w w' : World) (a : A) :
  call r w = (w', inr a) -> w' = w /\ r = inr a.
Proof. unfold call. intro H. injection H as <- ->. now split. Qed.

Lemma displayPitchAnalysis_returns (destroyChart newChart : Chart -> string + unit)
    (pitchLabels pitchSummary : list jsnum -> string + unit)
    (pitches timestamps : list jsnum) (w w' : World) :
  displayPitchAnalysis destroyChart newChart pitchLabels pitchSummary
    pitches timestamps w = (w', inr tt) ->
  w' = w /\ destroyChart PitchChart = inr tt /\ newChart PitchChart = inr tt.
Proof.
  unfold displayPitchAnalysis, bind, call.
  destruct (destroyChart PitchChart) as [|[]]; [discriminate|].
  destruct (pitchLabels pitches); [discriminate|].
  destruct (newChart PitchChart) as [|[]]; [discriminate|].
  destruct (pitchSummary pitches); [discriminate|].
  intro H. injection H as <-. auto.
Qed.

Lemma displayRhythmAnalysis_drawn (destroyChart newChart : Chart -> string + unit)
    (undefinedSlice : string) (rhythmAnalysis : RhythmAnalysis.t)
    (w w' : World) :
  displayRhythmAnalysis destroyChart newChart undefinedSlice rhythmAnalysis w
  = (w', inr tt) ->
  w' = w /\ destroyChart RhythmChart = inr tt /\ newChart RhythmChart = inr tt
  /\ exists intervals, RhythmAnalysis.intervals rhythmAnalysis = Some intervals.
Proof.
  unfold displayRhythmAnalysis, bind, call, throw.
  destruct (destroyChart RhythmChart) as [|[]]; [discriminate|].
  destruct (RhythmAnalysis.intervals rhythmAnalysis) as [l|]; [|discriminate].
  destruct (newChart RhythmChart) as [|[]]; [discriminate|].
  intro H. injection H as <-. repeat split. now exists l.
Qed.

Lemma displaySpectralAnalysis_returns (destroyChart newChart : Chart -> string + unit)
    (spectralAnalysis : SpectralAnalysis) (w w' : World) :
  displaySpectralAnalysis destroyChart newChart spectralAnalysis w
  = (w', inr tt) ->
  w' = w /\ destroyChart SpectralChart = inr tt
  /\ newChart SpectralChart = inr tt.
Proof.
  unfold displaySpectralAnalysis, bind, call.
  destruct (destroyChart SpectralChart) as [|[]]; [discriminate|].
  destruct (newChart SpectralChart) as [|[]]; [discriminate|].
  intro H. injection H as <-. auto.
Qed.

(** X8.  When a run ends on the results grid, the calls that draw the
    three charts have returned (so that the rhythm analysis has its
    intervals), and the stored analysis (the data of the report and the
    downloads) and the list of similar cultures are those of this run. *)
Theorem completed_run_stores_analysis (hasCancelBtn : bool) (clicks : nat -> bool)
    (analyzeRhythm : list jsnum -> string + RhythmAnalysis.t)
    (calculateTemporalFeatures : list jsnum -> string + (jsnum * jsnum))
    (detectPolyrhythm : list jsnum -> string + (bool * string))
    (calculateZCR : list jsnum -> string + jsnum)
    (detectPitch : list jsnum -> string + jsnum)
    (identifyScale : list jsnum -> string + ScaleAnalysis.t)
    (getAllCultures : list Culture.t) (now : string)
    (destroyChart newChart : Chart -> string + unit)
    (pitchLabels pitchSummary : list jsnum -> string + unit)
    (undefinedSlice : string)
    (audioBuffer : AudioBuffer) (filename : string) (w : World) :
  let w' := analyzeAudioFile hasCancelBtn clicks analyzeRhythm
              calculateTemporalFeatures detectPolyrhythm calculateZCR
              detectPitch identifyScale getAllCultures now
              destroyChart newChart pitchLabels pitchSummary undefinedSlice
              audioBuffer filename w in
  analysisResults w' = ResultsGrid ->
  exists d scaleAnalysis,
    currentAnalysisData w' = Some d
    /\ d_filename d = filename
    /\ d_duration d = duration audioBuffer
    /\ d_sampleRate d = sampleRate audioBuffer
    /\ d_spectral d
       = analyzeSpectrum (trimmedChannel audioBuffer) (sampleRate audioBuffer)
    /\ List.length (d_timestamps d) = List.length (d_pitches d)
    /\ Forall (fun f => jlt (Fin 0) f = true /\ jlt f (Fin 2000) = true)
              (d_pitches d)
    /\ identifyScale (d_pitches d) = inr scaleAnalysis
    /\ culturalInsights w'
       = Some (topMatches (d_rhythm d) scaleAnalysis getAllCultures)
    /\ (hasCancelBtn = true -> cancelBtnShown w' = false)
    /\ (forall chart, destroyChart chart = inr tt /\ newChart chart = inr tt)
    /\ (exists intervals,
          RhythmAnalysis.intervals (d_rhythm d) = Some intervals).
Proof.
  intro w'. subst w'. unfold analyzeAudioFile.
  match goal with
  | |- context [match ?body with pair _ _ => _ end] =>
      destruct body as [w1 [msg | []]] eqn:Hbody
  end.
  - intro H. destruct hasCancelBtn; discriminate H.
  - intros _. revert Hbody. unfold analysisBody.
    repeat (unfold bind at 1;
            match goal with
            | |- context [match ?m ?w0 with pair _ _ => _ end] =>
                destruct (m w0) as [? [? | ?]] eqn:?
            end; [intro; discriminate|]).
    intro Hlast.
    repeat match goal with
           | u : unit |- _ => destruct u
           end.
    repeat match goal with
           | H : displayPitchAnalysis _ _ _ _ _ _ _ = _ |- _ =>
               apply displayPitchAnalysis_returns in H;
               destruct H as (-> & Hd1 & Hn1)
           | H : displayRhythmAnalysis _ _ _ _ _ = _ |- _ =>
               apply displayRhythmAnalysis_drawn in H;
               destruct H as (-> & Hd2 & Hn2 & Hintervals)
           | H : displaySpectralAnalysis _ _ _ _ = _ |- _ =>
               apply displaySpectralAnalysis_returns in H;
               destruct H as (-> & Hd3 & Hn3)
           | H : call (identifyScale _) _ = _ |- _ =>
               apply call_returns in H; destruct H as (-> & Hscale)
           | H : setupDownloadButtons _ = _ |- _ =>
               unfold setupDownloadButtons, ret in H; injection H as <-
           | H : displayMusicalInsights _ _ _ _ _ = _ |- _ =>
               unfold displayMusicalInsights, setInsights, modify in H;
               injection H as <-
           | H : setAnalysisData _ _ = _ |- _ =>
               unfold setAnalysisData, modify in H; injection H as <-
           end.
    match goal with
    | H : pitchLoop _ _ _ _ _ _ _ _ _ = _ |- _ =>
        destruct (pitchLoop_spec _ _ _ _ _ _ 0 _ _ _ _ (Z.le_refl 0) H)
          as (detected & Hspec)
    end.
    cbv zeta in Hspec.
    destruct Hspec as (_ & _ & Hex & Hpitches & Hstamps & _).
    cbn [pitches timestamps app] in Hpitches, Hstamps.
    match type of Hlast with
    | _ ?wl = _ =>
        assert (H1 : currentAnalysisData w1 = currentAnalysisData wl
                     /\ culturalInsights w1 = culturalInsights wl
                     /\ (hasCancelBtn = true -> cancelBtnShown w1 = false))
    end.
    { destruct hasCancelBtn; unfold setCancelBtn, modify, ret in Hlast;
        injection Hlast as <-; cbn; repeat split; intro; discriminate. }
    destruct H1 as (Hdata & Hins & Hbtn).
    rewrite Hdata, Hins.
    cbn [currentAnalysisData culturalInsights cancelBtnShown].
    eexists. eexists. split; [reflexivity|].
    cbn [d_filename d_duration d_sampleRate d_spectral d_timestamps d_pitches
         d_rhythm].
    repeat split; try assumption; try reflexivity.
    + rewrite Hpitches, Hstamps. apply kept_lengths.
      apply Forall2_length in Hex. exact Hex.
    + rewrite Hpitches. apply keptPitches_in_range.
    + destruct chart; assumption.
    + destruct chart; assumption.
Qed.

Lemma completed_run_stores_analysis_witness :
  let w' := demoRun (fun _ => false) in
  exists d,
    currentAnalysisData w' = Some d
    /\ d_filename d = "clip.wav"%string
    /\ d_duration d = duration demoBuffer
    /\ culturalInsights w'
       = Some (topMatches (d_rhythm d) sampleScale [sampleCulture])
    /\ (exists intervals,
          RhythmAnalysis.intervals (d_rhythm d) = Some intervals).
Proof.
  destruct (completed_run_stores_analysis true (fun _ => false)
              (fun _ => inr beatRhythm) (fun _ => inr (Fin 0, Fin 0))
              (fun _ => inr (false, EmptyString)) (fun _ => inr (Fin 0))
              (fun _ => inr (Fin 440)) (fun _ => inr sampleScale)
              [sampleCulture] "2026-01-01"
              (fun _ => inr tt) (fun _ => inr tt) (fun _ => inr tt)
              (fun _ => inr tt) sliceOfUndefined demoBuffer "clip.wav"
              freshPage)
    as (d & scaleAnalysis & Hd & Hname & Hduration & _ & _ & _ & _
        & Hscale & Hinsights & _ & _ & Hintervals).
  { vm_compute. reflexivity. }
  injection Hscale as <-.
  exists d. repeat split; assumption.
Defined.

(* ===================================================================== *)
(** ** Note names *)
(* ===================================================================== *)

Lemma sameFrequencyb_sound (f g : frequency) :
  sameFrequencyb f g = true -> sameFrequency f g.
Proof.
  destruct f as [[| | | x] | [| | | x]], g as [[| | | y] | [| | | y]];
    cbn; try discriminate; apply Qeq_bool_eq.
Qed.

Lemma rangeZ_In (lo : Z) (count : nat) (z : Z) :
  lo <= z < lo + Z.of_nat count -> In z (rangeZ lo count).
Proof.
  intro H. unfold rangeZ. apply in_map_iff.
  exists (Z.to_nat (z - lo)). split; [lia|].
  apply in_seq. lia.
Qed.

(** X9.  Round trip of the two note functions: for the 120 semitones from
    C0 to B9 ([halfSteps] from -57 to 62 around A4), the name that
    [frequencyToNote] builds is read by [noteToFrequency] as the frequency
    [440 * 2^(halfSteps / 12)] of that semitone. *)
Theorem note_name_round_trip (halfSteps : Z) :
  -57 <= halfSteps <= 62 ->
  sameFrequency (noteToFrequency (noteOfHalfSteps halfSteps)) (toneOf halfSteps).
Proof.
  intro H. apply sameFrequencyb_sound.
  assert (Hall : forallb (fun h => sameFrequencyb
                                     (noteToFrequency (noteOfHalfSteps h))
                                     (toneOf h))
                         (rangeZ (-57) 120) = true)
    by (vm_compute; reflexivity).
  rewrite forallb_forall in Hall. apply Hall, rangeZ_In. lia.
Qed.

Lemma note_name_round_trip_witness :
  sameFrequency (noteToFrequency (noteOfHalfSteps 3)) (toneOf 3).
Proof.
  apply (note_name_round_trip 3). lia.
Defined.

Lemma elementAt_noteNames_nonpos (r : Z) :
  -12 < r <= 0 ->
  elementAt noteNames r = if r =? 0 then Some "C"%string else None.
Proof.
  intro H. unfold elementAt.
  destruct (r <? 0) eqn:E.
  - apply Z.ltb_lt in E. destruct (r =? 0) eqn:E0; [|reflexivity].
    apply Z.eqb_eq in E0. lia.
  - apply Z.ltb_ge in E. assert (r = 0) by lia. subst r. reflexivity.
Qed.

(** X10.  Below C0 ([halfSteps < -57]) [frequencyToNote] has no note
    name: the octave is negative and the index [(halfSteps + 57) % 12] is
    negative too, so that the array has no such element and
    [undefined + octave] is [NaN], which is what the display shows; only
    the Cs, where the remainder is 0, keep their name ([C-1], [C-2]). *)
Theorem note_below_C0_is_NaN (halfSteps : Z) :
  halfSteps < -57 ->
  let octave := (halfSteps + 57) / 12 in
  octave < 0
  /\ noteOfHalfSteps halfSteps
     = if Z.rem (halfSteps + 57) 12 =? 0
       then String.append "C" (showZ octave)
       else "NaN"%string.
Proof.
  intros H octave. split.
  - subst octave. apply Z.div_lt_upper_bound; lia.
  - unfold noteOfHalfSteps. fold octave.
    rewrite elementAt_noteNames_nonpos.
    + now destruct (Z.rem (halfSteps + 57) 12 =? 0).
    + pose proof (Z.rem_bound_pos_neg (halfSteps + 57) 12) as Hr.
      lia.
Qed.

Lemma note_below_C0_is_NaN_witness :
  noteOfHalfSteps (-58) = "NaN"%string
  /\ noteOfHalfSteps (-69) = "C-1"%string.
Proof.
  assert (H : -58 < -57) by lia.
  assert (H' : -69 < -57) by lia.
  split.
  - exact (proj2 (note_below_C0_is_NaN (-58) H)).
  - exact (proj2 (note_below_C0_is_NaN (-69) H')).
Defined.

Lemma matchHere_needs_digit (s : string) :
  anyChar isDigit s = false -> matchHere s = None.
Proof.
  intro H. destruct s as [| c [| a [| d rest]]]; cbn in *; try reflexivity.
  - destruct (isNoteLetter c); reflexivity.
  - apply orb_false_elim in H. destruct H as [_ H].
    apply orb_false_elim in H. destruct H as [Ha _].
    rewrite Ha. destruct (isNoteLetter c); reflexivity.
  - apply orb_false_elim in H. destruct H as [_ H].
    apply orb_false_elim in H. destruct H as [Ha H].
    apply orb_false_elim in H. destruct H as [Hd _].
    rewrite Ha, Hd, andb_false_r. destruct (isNoteLetter c); reflexivity.
Qed.

Lemma matchNote_needs_digit (s : string) :
  anyChar isDigit s = false -> matchNote s = None.
Proof.
  induction s as [| c s IH]; intro H; [reflexivity|].
  cbn [matchNote]. rewrite (matchHere_needs_digit _ H).
  cbn [anyChar] in H. apply orb_false_elim in H. now apply IH.
Qed.

Lemma matchNote_needs_letter (s : string) :
  anyChar isNoteLetter s = false -> matchNote s = None.
Proof.
  induction s as [| c s IH]; intro H; [reflexivity|].
  cbn [anyChar] in H. apply orb_false_elim in H. destruct H as [Hc Hs].
  cbn [matchNote matchHere]. rewrite Hc. now apply IH.
Qed.

Lemma digit_value (d : ascii) :
  isDigit d = true -> exists n, parseInt (String d EmptyString) = ofZ n.
Proof.
  intro H. unfold parseInt. cbn [skipSpaces].
  assert (Hs : isSpace d = false).
  { unfold isDigit, isSpace, between in *.
    apply andb_true_iff in H. destruct H as [H1 H2].
    apply Nat.leb_le in H1. apply Nat.leb_le in H2.
    apply orb_false_iff. split.
    - apply andb_false_iff. right. apply Nat.leb_gt. lia.
    - apply Nat.eqb_neq. lia. }
  rewrite Hs.
  assert (Hm : Ascii.eqb d "-" = false /\ Ascii.eqb d "+" = false).
  { split; apply Ascii.eqb_neq; intros ->; discriminate H. }
  destruct Hm as [-> ->].
  cbn [parseDigits]. unfold digitVal.
  change (between 48 57 d) with (isDigit d). rewrite H.
  assert (Hlt : (Z.of_nat (nat_of_ascii d - 48) <? 10) = true).
  { apply Z.ltb_lt. unfold isDigit, between in H.
    apply andb_true_iff in H. destruct H as [_ H2].
    apply Nat.leb_le in H2. lia. }
  rewrite Hlt. eexists. reflexivity.
Qed.

(** X11.  Names [noteToFrequency] cannot read.  A text with no digit, or
    with none of the capital letters A to G, gives the default 440 Hz.  The
    accidentals that [noteMap] does not list (C flat, F flat, E sharp,
    B sharp) give [NaN], whatever the octave. *)
Theorem noteToFrequency_unreadable :
  (forall s, anyChar isDigit s = false -> noteToFrequency s = Hertz (Fin 440))
  /\ (forall s, anyChar isNoteLetter s = false ->
        noteToFrequency s = Hertz (Fin 440))
  /\ (forall name d rest,
        In name ["Cb"; "Fb"; "E#"; "B#"]%string -> isDigit d = true ->
        noteToFrequency (String.append name (String d rest)) = A4Pow2 NaN).
Proof.
  split; [|split].
  - intros s H. unfold noteToFrequency. now rewrite matchNote_needs_digit.
  - intros s H. unfold noteToFrequency. now rewrite matchNote_needs_letter.
  - intros name d rest Hname Hd.
    destruct (digit_value d Hd) as [n Hn].
    assert (Hmatch : matchNote (String.append name (String d rest))
                     = Some (name, d)).
    { cbn in Hname.
      destruct Hname as [<- | [<- | [<- | [<- | []]]]];
        cbn [String.append matchNote matchHere];
        destruct rest; cbn; rewrite Hd; reflexivity. }
    unfold noteToFrequency. rewrite Hmatch, Hn.
    assert (Hmap : numProp noteMap name = NaN).
    { cbn in Hname.
      destruct Hname as [<- | [<- | [<- | [<- | []]]]]; reflexivity. }
    rewrite Hmap. reflexivity.
Qed.

(** X12.  [noteToFrequency] reads one digit of the octave: what follows
    the first digit after the note is ignored, so a name such as [A10] is
    read as [A1]. *)
Theorem noteToFrequency_reads_one_digit (letter digit : ascii) (rest : string) :
  isNoteLetter letter = true -> isDigit digit = true ->
  noteToFrequency (String letter (String digit rest))
  = noteToFrequency (String letter (String digit EmptyString))
  /\ forall accidental, isAccidental accidental = true ->
       noteToFrequency (String letter (String accidental (String digit rest)))
       = noteToFrequency
           (String letter (String accidental (String digit EmptyString))).
Proof.
  intros Hl Hd. split.
  - unfold noteToFrequency. cbn [matchNote matchHere]. rewrite Hl, Hd.
    destruct rest as [| e rest]; [reflexivity|].
    assert (Hacc : isAccidental digit = false).
    { unfold isAccidental. apply orb_false_iff.
      split; apply Ascii.eqb_neq; intros ->; discriminate Hd. }
    rewrite Hacc. reflexivity.
  - intros accidental Ha. unfold noteToFrequency.
    cbn [matchNote matchHere]. rewrite Hl, Ha, Hd. reflexivity.
Qed.

Lemma noteToFrequency_reads_one_digit_witness :
  noteToFrequency "A10" = noteToFrequency "A1".
Proof.
  exact (proj1 (noteToFrequency_reads_one_digit "A" "1" "0" eq_refl eq_refl)).
Defined.

(* ===================================================================== *)
(** ** Live pitch *)
(* ===================================================================== *)

Lemma lastn_all {A : Type} (n : nat) (l : list A) :
  (List.length l <= n)%nat -> lastn n l = l.
Proof.
  intro H. unfold lastn. replace (List.length l - n)%nat with 0%nat by lia.
  reflexivity.
Qed.

Lemma lastn_cons {A : Type} (n : nat) (a : A) (l : list A) :
  (n <= List.length l)%nat -> lastn n (a :: l) = lastn n l.
Proof.
  intro H. unfold lastn. cbn [List.length].
  replace (S (List.length l) - n)%nat with (S (List.length l - n)) by lia.
  reflexivity.
Qed.

Lemma pitchHistory_fold (readings acc : list jsnum) :
  (List.length acc <= 100)%nat ->
  fold_left detectPitchLoop readings acc
  = lastn 100 (acc ++ keptPitches readings).
Proof.
  revert acc. induction readings as [| p rs IH]; intros acc Hacc.
  - cbn [fold_left keptPitches filter]. rewrite app_nil_r.
    symmetry. now apply lastn_all.
  - cbn [fold_left]. unfold detectPitchLoop at 2.
    change (jgt p (Fin 0) && jlt p (Fin 2000))%bool with (accepted p).
    unfold keptPitches. cbn [filter]. fold (keptPitches rs).
    destruct (accepted p).
    + cbv zeta. rewrite length_app. cbn [List.length].
      destruct (100 <? List.length acc + 1)%nat eqn:E.
      * apply Nat.ltb_lt in E.
        destruct acc as [| a acc]; [cbn in E; lia|].
        cbn [app tl]. cbn [List.length] in Hacc, E.
        rewrite IH by (rewrite length_app; cbn [List.length]; lia).
        rewrite <- app_assoc. cbn [app].
        symmetry. apply lastn_cons.
        rewrite length_app. cbn [List.length]. lia.
      * apply Nat.ltb_ge in E.
        rewrite IH by (rewrite length_app; cbn [List.length]; lia).
        now rewrite <- app_assoc.
    + now apply IH.
Qed.

(** X13.  The pitch history holds the last 100 accepted readings, oldest
    first: the readings with [0 < pitch < 2000], in the order they came,
    of which all but the last 100 are dropped. *)
Theorem pitchHistory_last_100 (readings : list jsnum) :
  historyAfter readings = lastn 100 (keptPitches readings)
  /\ (List.length (historyAfter readings) <= 100)%nat
  /\ Forall (fun f => jlt (Fin 0) f = true /\ jlt f (Fin 2000) = true)
            (historyAfter readings).
Proof.
  assert (H : historyAfter readings = lastn 100 (keptPitches readings)).
  { unfold historyAfter. rewrite pitchHistory_fold by (cbn; lia).
    reflexivity. }
  split; [exact H|]. rewrite H. split.
  - unfold lastn. rewrite length_skipn. lia.
  - apply Forall_forall. intros f Hf. unfold lastn in Hf.
    apply skipn_subset in Hf.
    pose proof (keptPitches_in_range readings) as Hk.
    rewrite Forall_forall in Hk. now apply Hk.
Qed.

(* ===================================================================== *)
(** ** Composer *)
(* ===================================================================== *)









(** The rounding at work: for a note at [x = 54] on a canvas 800 wide
    the duration in ms is 570 in exact arithmetic and a little above 570
    in doubles, so that the code sets the timer to 621 ms where the exact
    delay is 620 ms. *)
Example reenable_delay_rounding :
  let time := SFmul prec emax (SFdiv prec emax (doubleOfZ 54) (doubleOfZ 800))
                    (doubleOfZ 4) in
  let seconds := SFadd prec emax time
                   (SFdiv prec emax (doubleOfZ 3) (doubleOfZ 10)) in
  let ms := SFmul prec emax seconds (doubleOfZ 1000) in
  SFltb (doubleOfZ 570) ms = true
  /\ SFltb ms (doubleOfZ 571) = true
  /\ Composer.reenableDelay (Composer.mkCanvas (Fin 800) (Fin 400))
       [Composer.mkNote (Fin 54) (Fin 100)] ~= ofZ 620.
Proof. cbv zeta. repeat split; vm_compute; reflexivity. Qed.

(* ===================================================================== *)
(** ** Teacher dashboard *)
(* ===================================================================== *)

Lemma handle_session (p : Dashboard.Page) (s : Dashboard.Session)
    (interval : bool) (e : Dashboard.PageEvent) :
  sessionOn p s interval ->
  exists s',
    sessionOn (Dashboard.handle p e) s' interval
    /\ Dashboard.className s' = Dashboard.className s
    /\ Dashboard.studentCount s' = Dashboard.studentCount s
    /\ Dashboard.startTime s' = Dashboard.startTime s
    /\ Dashboard.tracksAnalyzed (Dashboard.activities s')
       = Dashboard.tracksAnalyzed (Dashboard.activities s)
    /\ Dashboard.gamesPlayed (Dashboard.activities s')
       = Dashboard.gamesPlayed (Dashboard.activities s) + gameCount [e]
    /\ Dashboard.quizzesTaken (Dashboard.activities s')
       = Dashboard.quizzesTaken (Dashboard.activities s) + quizCount [e]
    /\ Dashboard.totalTimeSeconds (Dashboard.activities s')
       = Dashboard.totalTimeSeconds (Dashboard.activities s)
         + (if interval then tickCount [e] else 0)
    /\ Z.of_nat (List.length (Dashboard.events s'))
       = Z.of_nat (List.length (Dashboard.events s))
         + gameCount [e] + quizCount [e].
Proof.
  intros [Hs Ht].
  destruct e as [| now | now | now]; cbn [Dashboard.handle];
    unfold Dashboard.timerTick, Dashboard.trackDashboardActivity,
           Dashboard.saveDashboardSession;
    rewrite ?Ht, Hs; destruct interval; cbn;
    (eexists; split; [split; try reflexivity; eassumption|]); cbn;
    rewrite ?length_app; cbn; repeat split; lia.
Qed.

Lemma count_cons (count : list Dashboard.PageEvent -> Z)
    (test : Dashboard.PageEvent -> bool) (e : Dashboard.PageEvent)
    (es : list Dashboard.PageEvent) :
  (forall l, count l = Z.of_nat (List.length (filter test l))) ->
  count (e :: es) = count [e] + count es.
Proof.
  intro H. rewrite !H. cbn [filter]. destruct (test e); cbn [List.length]; lia.
Qed.

Lemma handle_events_session (es : list Dashboard.PageEvent)
    (p : Dashboard.Page) (s : Dashboard.Session) (interval : bool) :
  sessionOn p s interval ->
  exists s',
    sessionOn (fold_left Dashboard.handle es p) s' interval
    /\ Dashboard.className s' = Dashboard.className s
    /\ Dashboard.studentCount s' = Dashboard.studentCount s
    /\ Dashboard.startTime s' = Dashboard.startTime s
    /\ Dashboard.tracksAnalyzed (Dashboard.activities s')
       = Dashboard.tracksAnalyzed (Dashboard.activities s)
    /\ Dashboard.gamesPlayed (Dashboard.activities s')
       = Dashboard.gamesPlayed (Dashboard.activities s) + gameCount es
    /\ Dashboard.quizzesTaken (Dashboard.activities s')
       = Dashboard.quizzesTaken (Dashboard.activities s) + quizCount es
    /\ Dashboard.totalTimeSeconds (Dashboard.activities s')
       = Dashboard.totalTimeSeconds (Dashboard.activities s)
         + (if interval then tickCount es else 0)
    /\ Z.of_nat (List.length (Dashboard.events s'))
       = Z.of_nat (List.length (Dashboard.events s))
         + gameCount es + quizCount es.
Proof.
  revert p s. induction es as [| e es IH]; intros p s Hrun.
  - exists s. cbn. destruct interval; repeat split; try apply Hrun; lia.
  - destruct (handle_session p s interval e Hrun)
      as (s1 & Hrun1 & Hc & Hn & Ht & Ha & Hg & Hq & Hs & He).
    destruct (IH _ _ Hrun1)
      as (s' & Hrun' & Hc' & Hn' & Ht' & Ha' & Hg' & Hq' & Hs' & He').
    exists s'. cbn [fold_left]. split; [exact Hrun'|].
    rewrite (count_cons gameCount _ e es (fun l => eq_refl)).
    rewrite (count_cons quizCount _ e es (fun l => eq_refl)).
    rewrite (count_cons tickCount _ e es (fun l => eq_refl)).
    destruct interval; repeat split; try congruence; lia.
Qed.

(** X16.  The counters of a session follow the page: from the click on
    Start, the seconds counted are the interval ticks, the games played
    are the starts of the rhythm game, the quizzes taken are the starts of
    the quiz and of the extended quiz, and the event log has one entry for
    each of them.  No handler reports an analysed track: [tracksAnalyzed]
    stays 0. *)
Theorem dashboard_counters_follow_page (classNameInput studentCountInput : option string)
    (now : string) (p0 : Dashboard.Page) (es : list Dashboard.PageEvent) :
  let p := fold_left Dashboard.handle es
             (Dashboard.startSession classNameInput studentCountInput now p0) in
  exists s,
    Dashboard.dashboardSession p = Some s
    /\ Dashboard.startTime s = now
    /\ Dashboard.tracksAnalyzed (Dashboard.activities s) = 0
    /\ Dashboard.gamesPlayed (Dashboard.activities s) = gameCount es
    /\ Dashboard.quizzesTaken (Dashboard.activities s) = quizCount es
    /\ Dashboard.totalTimeSeconds (Dashboard.activities s) = tickCount es
    /\ Z.of_nat (List.length (Dashboard.events s))
       = gameCount es + quizCount es.
Proof.
  intro p. subst p.
  set (start := Dashboard.startSession classNameInput studentCountInput now p0).
  assert (Hrun : exists s0,
            sessionOn start s0 true
            /\ Dashboard.startTime s0 = now
            /\ Dashboard.activities s0 = Dashboard.mkActivities 0 0 0 0
            /\ Dashboard.events s0 = []).
  { eexists. split; [split; reflexivity|]. cbn. repeat split. }
  destruct Hrun as (s0 & Hrun & Hnow & Hact & Hev).
  destruct (handle_events_session es start s0 true Hrun)
    as (s & [Hs _] & _ & _ & Ht & Ha & Hg & Hq & Hsec & He).
  exists s. rewrite Hact in *. rewrite Hev in *. cbn in *.
  repeat split; try assumption; try congruence; lia.
Qed.


(** X18.  The session duration is shown as hours, minutes and seconds
    that add up to the seconds counted, with minutes and seconds below 60.
    The average time on task is a dash when no activity was counted, and
    otherwise the minutes and seconds of the seconds per activity, rounded
    down. *)
Theorem session_duration_parts (a : Dashboard.Activities) :
  0 <= Dashboard.totalTimeSeconds a ->
  0 <= Dashboard.tracksAnalyzed a -> 0 <= Dashboard.gamesPlayed a ->
  0 <= Dashboard.quizzesTaken a ->
  let totalSec := Dashboard.totalTimeSeconds a in
  let totalActivities :=
    Dashboard.tracksAnalyzed a + Dashboard.gamesPlayed a
    + Dashboard.quizzesTaken a in
  (let '(hours, mins, secs) := Dashboard.durationParts totalSec in
   hours * 3600 + mins * 60 + secs = totalSec
   /\ 0 <= hours /\ 0 <= mins < 60 /\ 0 <= secs < 60)
  /\ match Dashboard.avgTimeOnTask a with
     | None => totalActivities = 0
     | Some (avgMin, avgSecRem) =>
         0 < totalActivities
         /\ avgMin * 60 + avgSecRem = totalSec / totalActivities
         /\ 0 <= avgMin /\ 0 <= avgSecRem < 60
     end.
Proof.
  intros H Ht Hg Hq totalSec totalActivities. split.
  - unfold Dashboard.durationParts. cbv zeta.
    rewrite !Z.rem_mod_nonneg by lia.
    pose proof (Z.div_mod totalSec 3600 ltac:(lia)) as H1.
    pose proof (Z.mod_pos_bound totalSec 3600 ltac:(lia)) as B1.
    pose proof (Z.div_mod (totalSec mod 3600) 60 ltac:(lia)) as H2.
    pose proof (Z.mod_pos_bound (totalSec mod 3600) 60 ltac:(lia)) as B2.
    pose proof (Z.div_mod totalSec 60 ltac:(lia)) as H3.
    pose proof (Z.mod_pos_bound totalSec 60 ltac:(lia)) as B3.
    assert (0 <= totalSec / 3600) by (apply Z.div_pos; lia).
    assert (0 <= totalSec mod 3600 / 60) by (apply Z.div_pos; lia).
    assert (totalSec mod 3600 / 60 < 60)
      by (apply Z.div_lt_upper_bound; lia).
    lia.
  - unfold Dashboard.avgTimeOnTask. cbv zeta.
    fold totalSec. fold totalActivities.
    destruct (0 <? totalActivities) eqn:E.
    + apply Z.ltb_lt in E.
      assert (Havg : 0 <= totalSec / totalActivities)
        by (apply Z.div_pos; lia).
      set (avgSec := totalSec / totalActivities) in *.
      rewrite Z.rem_mod_nonneg by lia.
      pose proof (Z.div_mod avgSec 60 ltac:(lia)) as H1.
      pose proof (Z.mod_pos_bound avgSec 60 ltac:(lia)) as B1.
      assert (0 <= avgSec / 60) by (apply Z.div_pos; lia).
      lia.
    + apply Z.ltb_ge in E. subst totalActivities. lia.
Qed.

Lemma session_duration_parts_witness :
  (1 * 3600 + 2 * 60 + 5 = 3725 /\ 0 <= 1 /\ 0 <= 2 < 60 /\ 0 <= 5 < 60)
  /\ (0 < 0 + 1 + 2 /\ 20 * 60 + 41 = 3725 / (0 + 1 + 2)
      /\ 0 <= 20 /\ 0 <= 41 < 60).
Proof.
  assert (H0 : 0 <= 0) by lia.
  assert (H1 : 0 <= 1) by lia.
  assert (H2 : 0 <= 2) by lia.
  assert (H3 : 0 <= 3725) by lia.
  exact (session_duration_parts (Dashboard.mkActivities 0 1 2 3725)
           H3 H0 H1 H2).
Defined.

(* ===================================================================== *)
(** ** The quizzes *)
(* ===================================================================== *)


Section QuizFacts.

Variable questions : list Quiz.Question.

Lemma showQuestion_invariant (st : Quiz.State) :
  (Quiz.timers st <= 1)%nat ->
  (Quiz.currentQuestion st + Quiz.timers st <= List.length questions)%nat ->
  0 <= Quiz.score st <= Z.of_nat (Quiz.currentQuestion st + Quiz.timers st) ->
  quizInvariant questions (Quiz.showQuestion questions st).
Proof.
  intros Ht Hq Hs. unfold Quiz.showQuestion.
  destruct (nth_error questions (Quiz.currentQuestion st)) as [q |] eqn:E;
    unfold quizInvariant; cbn; repeat split; auto; lia.
Qed.

Lemma step_invariant (st : Quiz.State) (e : Quiz.Event) :
  quizInvariant questions st ->
  match e with
  | Quiz.Answer _ => Quiz.timers st = 0%nat
  | _ => True
  end ->
  quizInvariant questions (Quiz.step questions st e).
Proof.
  intros Hinv Hpatient.
  pose proof Hinv as (Ht & Hq & Hs & Hscreen).
  destruct e as [| answer |]; cbn [Quiz.step].
  - destruct (Quiz.screen st) eqn:E; [|exact Hinv..].
    now apply showQuestion_invariant.
  - destruct (Quiz.screen st) as [| q | s t] eqn:E; try exact Hinv.
    destruct (answer <? List.length (Quiz.options q))%nat; [|exact Hinv].
    assert (Hlt : (Quiz.currentQuestion st < List.length questions)%nat).
    { apply nth_error_Some. rewrite Hscreen. discriminate. }
    unfold quizInvariant. cbn. rewrite Hpatient in *.
    destruct (Z.of_nat answer =? Quiz.correct q); cbn; rewrite ?E; repeat split; auto; lia.
  - destruct (Quiz.timers st) as [| pending] eqn:E.
    + exact Hinv.
    + apply showQuestion_invariant; cbn; lia.
Qed.

Lemma run_invariant (es : list Quiz.Event) (st : Quiz.State) :
  quizInvariant questions st -> answersOnce questions st es = true ->
  quizInvariant questions (fold_left (Quiz.step questions) es st).
Proof.
  revert st. induction es as [| e es IH]; intros st Hinv Hp; [exact Hinv|].
  cbn [answersOnce] in Hp. apply andb_true_iff in Hp. destruct Hp as [He Hp].
  cbn [fold_left]. apply IH; [|exact Hp].
  apply step_invariant; [exact Hinv|].
  destruct e; auto. now apply Nat.eqb_eq.
Qed.

End QuizFacts.

(** X19.  When the user answers each question once (no option is clicked
    while the timer to the next question is pending), the score never
    exceeds the number of questions reached, and the closing line shows a
    score between 0 and the number of questions. *)
Theorem quiz_score_bounded (questions : list Quiz.Question)
    (es : list Quiz.Event) :
  answersOnce questions Quiz.initial es = true ->
  let st := Quiz.run questions es in
  0 <= Quiz.score st <= Z.of_nat (List.length questions)
  /\ (Quiz.timers st <= 1)%nat
  /\ forall s t, Quiz.screen st = Quiz.Complete s t ->
       t = List.length questions /\ 0 <= s <= Z.of_nat t.
Proof.
  intros Hp st.
  assert (Hinit : quizInvariant questions Quiz.initial)
    by (unfold quizInvariant; cbn; repeat split; lia).
  pose proof (run_invariant questions es Quiz.initial Hinit Hp) as Hinv.
  fold (Quiz.run questions es) in Hinv. fold st in Hinv.
  destruct Hinv as (Ht & Hq & Hs & Hscreen).
  split; [lia|]. split; [exact Ht|].
  intros s t E. rewrite E in Hscreen. destruct Hscreen as [-> ->]. lia.
Qed.

Lemma quiz_score_bounded_witness :
  Quiz.screen (Quiz.run Quiz.questions
                 [Quiz.Start; Quiz.Answer 0; Quiz.Timeout; Quiz.Answer 0;
                  Quiz.Timeout; Quiz.Answer 1; Quiz.Timeout])
  = Quiz.Complete 2 3
  /\ 0 <= 2 <= Z.of_nat 3.
Proof.
  split; [reflexivity|].
  refine (proj2 (proj2 (proj2 (quiz_score_bounded Quiz.questions
                  [Quiz.Start; Quiz.Answer 0; Quiz.Timeout; Quiz.Answer 0;
                   Quiz.Timeout; Quiz.Answer 1; Quiz.Timeout] eq_refl))
            2 3%nat eq_refl)).
Defined.

Lemma hasty_answers (clicks : nat) (s : Z) (t : nat) :
  let q0 := Quiz.mkQuestion "Which instrument is central to Indian classical music?"
              ["Sitar"; "Guitar"; "Piano"; "Trumpet"]%string 0 in
  fold_left (Quiz.step Quiz.questions) (repeat (Quiz.Answer 0) clicks)
            (Quiz.mkState 0 s (Quiz.Asking q0) t)
  = Quiz.mkState 0 (s + Z.of_nat clicks) (Quiz.Asking q0) (t + clicks).
Proof.
  intro q0. revert s t. induction clicks as [| k IH]; intros s t.
  - cbn [repeat fold_left]. f_equal; lia.
  - cbn [repeat fold_left]. cbn [Quiz.step Quiz.screen].
    change (0 <? List.length (Quiz.options q0))%nat with true.
    change (Z.of_nat 0 =? Quiz.correct q0) with true. cbv iota.
    cbn [Quiz.currentQuestion Quiz.score Quiz.timers].
    rewrite IH. f_equal; lia.
Qed.

Lemma hasty_timeouts (questions : list Quiz.Question) (k cq : nat) (sc : Z)
    (scr : Quiz.Screen) (t : nat) :
  (k <= t)%nat ->
  let st' := fold_left (Quiz.step questions) (repeat Quiz.Timeout (S k))
               (Quiz.mkState cq sc scr (S t)) in
  Quiz.currentQuestion st' = (cq + S k)%nat
  /\ Quiz.score st' = sc
  /\ Quiz.timers st' = (t - k)%nat
  /\ Quiz.screen st'
     = match nth_error questions (cq + S k) with
       | Some q => Quiz.Asking q
       | None => Quiz.Complete sc (List.length questions)
       end.
Proof.
  revert cq scr t. induction k as [| k IH]; intros cq scr t Hk st'.
  - subst st'. cbn [repeat fold_left Quiz.step Quiz.timers].
    unfold Quiz.showQuestion.
    cbn [Quiz.currentQuestion Quiz.score Quiz.timers].
    replace (cq + 1)%nat with (S cq) by lia.
    destruct (nth_error questions (S cq)); cbn; repeat split; lia.
  - destruct t as [| t]; [lia|].
    subst st'. change (repeat Quiz.Timeout (S (S k)))
      with (Quiz.Timeout :: repeat Quiz.Timeout (S k)).
    cbn [fold_left]. cbn [Quiz.step Quiz.timers].
    unfold Quiz.showQuestion.
    cbn [Quiz.currentQuestion Quiz.score Quiz.timers Quiz.screen].
    replace (cq + S (S k))%nat with (S cq + S k)%nat by lia.
    replace (S t - S k)%nat with (t - k)%nat by lia.
    destruct (nth_error questions (S cq)); apply IH; lia.
Qed.

(** X20.  The option buttons stay active during the second before the
    next question appears, and every click is counted and sets its own
    timer: a user who clicks the right answer of the first question three
    times or more ends the quiz without seeing the other questions, on
    the closing line [Quiz Complete! Score: clicks/3].  Three clicks give
    full marks, and from four clicks on the score is above the number of
    questions. *)
Theorem quiz_counts_repeated_clicks (clicks : nat) :
  (3 <= clicks)%nat ->
  let st := Quiz.run Quiz.questions (hastyClicks clicks) in
  Quiz.score st = Z.of_nat clicks
  /\ Quiz.screen st = Quiz.Complete (Z.of_nat clicks) 3
  /\ ((3 < clicks)%nat ->
      Z.of_nat (List.length Quiz.questions) < Quiz.score st).
Proof.
  intros H st. subst st. unfold Quiz.run, hastyClicks.
  cbn [fold_left]. rewrite fold_left_app.
  change (Quiz.step Quiz.questions Quiz.initial Quiz.Start)
    with (Quiz.mkState 0 0
            (Quiz.Asking (Quiz.mkQuestion
               "Which instrument is central to Indian classical music?"
               ["Sitar"; "Guitar"; "Piano"; "Trumpet"]%string 0)) 0).
  rewrite hasty_answers. cbn [Nat.add Z.add].
  destruct clicks as [| k]; [lia|].
  pose proof (hasty_timeouts Quiz.questions k 0 (Z.of_nat (S k))
                (Quiz.Asking (Quiz.mkQuestion
                   "Which instrument is central to Indian classical music?"
                   ["Sitar"; "Guitar"; "Piano"; "Trumpet"]%string 0)) k
                (Nat.le_refl k)) as Ht.
  cbv zeta in Ht. destruct Ht as (_ & Hs & _ & Hscr).
  split; [exact Hs|]. split.
  - rewrite Hscr.
    assert (E : nth_error Quiz.questions (0 + S k) = None).
    { apply nth_error_None. cbn. lia. }
    rewrite E. reflexivity.
  - intro Hmore. rewrite Hs. cbn [Quiz.questions List.length]. lia.
Qed.

Lemma quiz_counts_repeated_clicks_witness :
  let st := Quiz.run Quiz.questions (hastyClicks 4) in
  Quiz.score st = 4
  /\ Quiz.screen st = Quiz.Complete 4 3
  /\ ((3 < 4)%nat -> Z.of_nat (List.length Quiz.questions) < Quiz.score st).
Proof.
  assert (H : (3 <= 4)%nat) by lia.
  exact (quiz_counts_repeated_clicks 4 H).
Defined.

Section ExtendedQuizFacts.

Variable questions : list ExtendedQuiz.Question.

Lemma extended_showQuestion_invariant (cq : nat) (sc : Z)
    (scr : ExtendedQuiz.Screen) :
  (cq <= List.length questions)%nat -> 0 <= sc <= Z.of_nat cq ->
  extendedQuizInvariant questions
    (ExtendedQuiz.showQuestion questions
       (ExtendedQuiz.mkState cq sc scr 0 [] [])).
Proof.
  intros Hq Hs. unfold ExtendedQuiz.showQuestion.
  cbn [ExtendedQuiz.currentQ ExtendedQuiz.score ExtendedQuiz.timers
       ExtendedQuiz.addXP ExtendedQuiz.addAchievement].
  destruct (nth_error questions cq) as [q |] eqn:E;
    unfold extendedQuizInvariant; cbn.
  - repeat split; auto; lia.
  - destruct (sc =? Z.of_nat (List.length questions));
      repeat split; auto; lia.
Qed.

Lemma extended_step_invariant (st : ExtendedQuiz.State)
    (e : ExtendedQuiz.Event) :
  extendedQuizInvariant questions st ->
  extendedQuizInvariant questions (ExtendedQuiz.step questions st e).
Proof.
  intro Hinv. pose proof Hinv as (Hq & Hs & Hscreen).
  destruct st as [cq sc scr t xp ach].
  cbn [ExtendedQuiz.currentQ ExtendedQuiz.score ExtendedQuiz.timers
       ExtendedQuiz.screen ExtendedQuiz.addXP ExtendedQuiz.addAchievement] in *.
  destruct e as [| answer |]; cbn [ExtendedQuiz.step ExtendedQuiz.screen].
  - destruct scr as [| q d | s n]; try exact Hinv.
    destruct Hscreen as (-> & -> & -> & ->).
    apply extended_showQuestion_invariant; lia.
  - destruct scr as [| q [|] | s n]; try exact Hinv.
    destruct Hscreen as (Hnth & -> & -> & ->).
    assert (Hlt : (cq < List.length questions)%nat).
    { apply nth_error_Some. rewrite Hnth. discriminate. }
    destruct (answer <? List.length (ExtendedQuiz.options q))%nat;
      [|exact Hinv].
    destruct (Z.of_nat answer =? ExtendedQuiz.correct q).
    + unfold extendedQuizInvariant. cbn. repeat split; auto; lia.
    + destruct (ExtendedQuiz.hasCorrectButton q); [|exact Hinv].
      unfold extendedQuizInvariant. cbn. repeat split; auto; lia.
  - cbn [ExtendedQuiz.timers]. destruct t as [| pending]; [exact Hinv|].
    cbn [ExtendedQuiz.currentQ ExtendedQuiz.score ExtendedQuiz.screen
         ExtendedQuiz.addXP ExtendedQuiz.addAchievement].
    destruct scr as [| q d | s n].
    + destruct Hscreen as (_ & Ht & _). discriminate.
    + destruct Hscreen as (Hnth & Ht & -> & ->).
      destruct d; [|discriminate]. injection Ht as ->.
      apply extended_showQuestion_invariant; lia.
    + destruct Hscreen as (_ & _ & Ht & _). discriminate.
Qed.

Lemma extended_run_invariant (es : list ExtendedQuiz.Event)
    (st : ExtendedQuiz.State) :
  extendedQuizInvariant questions st ->
  extendedQuizInvariant questions
    (fold_left (ExtendedQuiz.step questions) es st).
Proof.
  revert st. induction es as [| e es IH]; intros st Hinv; [exact Hinv|].
  cbn [fold_left]. apply IH. now apply extended_step_invariant.
Qed.

End ExtendedQuizFacts.

(** X21.  In the extended quiz the buttons are disabled after a click, so
    whatever the user does the score stays between 0 and the number of
    questions.  [addXP] is called once, when the quiz completes, with 10
    points per right answer, and the achievement [perfect_quiz] is given
    exactly when every question was answered right; before that the
    tracker is not called.  A quiz with no question completes at once and
    gives the achievement. *)
Theorem extended_quiz_score_and_xp (questions : list ExtendedQuiz.Question)
    (es : list ExtendedQuiz.Event) :
  let st := ExtendedQuiz.run questions es in
  let total := List.length questions in
  0 <= ExtendedQuiz.score st <= Z.of_nat total
  /\ (forall s t, ExtendedQuiz.screen st = ExtendedQuiz.Complete s t ->
        t = total /\ 0 <= s <= Z.of_nat total
        /\ ExtendedQuiz.addXP st = [s * 10]
        /\ (In "perfect_quiz"%string (ExtendedQuiz.addAchievement st)
            <-> s = Z.of_nat total))
  /\ ((forall s t, ExtendedQuiz.screen st <> ExtendedQuiz.Complete s t) ->
        ExtendedQuiz.addXP st = [] /\ ExtendedQuiz.addAchievement st = [])
  /\ (questions = [] ->
        ExtendedQuiz.addAchievement
          (ExtendedQuiz.run questions [ExtendedQuiz.Start])
        = ["perfect_quiz"%string]).
Proof.
  intros st total.
  assert (Hinit : extendedQuizInvariant questions ExtendedQuiz.initial)
    by (unfold extendedQuizInvariant; cbn; repeat split; lia).
  pose proof (extended_run_invariant questions es _ Hinit) as Hinv.
  fold (ExtendedQuiz.run questions es) in Hinv. fold st in Hinv.
  destruct Hinv as (Hq & Hs & Hscreen). fold total in Hq, Hscreen.
  split; [lia|]. split; [|split].
  - intros s t E. rewrite E in Hscreen.
    destruct Hscreen as (-> & -> & Ht & Hxp & Hach).
    split; [reflexivity|]. split; [lia|]. split; [exact Hxp|].
    rewrite Hach.
    destruct (ExtendedQuiz.score st =? Z.of_nat total) eqn:Eq.
    + apply Z.eqb_eq in Eq. split; [auto | intros _; now left].
    + apply Z.eqb_neq in Eq. split; [intros [] | contradiction].
  - intro Hnot. destruct (ExtendedQuiz.screen st) as [| q d | s t] eqn:E.
    + tauto.
    + tauto.
    + exfalso. now apply (Hnot s t).
  - intros ->. reflexivity.
Qed.

(* ===================================================================== *)
(** ** The words of the insights, the spectral panel and the report *)
(* ===================================================================== *)



Lemma last_push (l : list string) (x : string) :
  lastSuggestion (push l x) = x.
Proof. unfold lastSuggestion, push. apply last_last. Qed.

Lemma lastSuggestion_timbre (rhythmAnalysis : RhythmAnalysis.t)
    (scaleAnalysis : ScaleAnalysis.t) (spectralAnalysis : SpectralAnalysis) :
  lastSuggestion
    (getSuggestedMusicalUses rhythmAnalysis scaleAnalysis spectralAnalysis)
  = (if jgt (brightness spectralAnalysis) (Fin (6 # 10))
     then "Bright instrumentation (cymbals, strings, synths)"
     else "Warm instrumentation (bass, woodwinds, mellow tones)")%string.
Proof.
  unfold getSuggestedMusicalUses. cbv zeta.
  destruct (jgt (brightness spectralAnalysis) (Fin (6 # 10)));
    apply last_push.
Qed.

(** X23.  The timbre words agree with each other: the report, the
    spectral panel and the insights call the same analysis bright (above
    0.6) or balanced (above 0.4), and the suggested uses name bright
    instruments exactly then.  The sentence under the spectral chart uses
    another threshold: for a brightness above 0.5 and up to 0.6 it speaks
    of bright instruments while the panel says balanced and the suggested
    uses name warm instruments. *)
Theorem timbre_words_agree (rhythmAnalysis : RhythmAnalysis.t)
    (scaleAnalysis : ScaleAnalysis.t) (data : AnalysisData) :
  let s := d_spectral data in
  let uses := getSuggestedMusicalUses rhythmAnalysis scaleAnalysis s in
  reportTimbre data = spectralTimbre s
  /\ (spectralTimbre s = "Bright"%string
      <-> timbreCategory s = "Bright/Shimmering"%string)
  /\ (spectralTimbre s = "Balanced"%string
      <-> timbreCategory s = "Balanced"%string)
  /\ (spectralTimbre s = "Bright"%string
      <-> lastSuggestion uses
          = "Bright instrumentation (cymbals, strings, synths)"%string)
  /\ forall b, brightness s = Fin b -> (5 # 10 < b)%Q -> (b <= 6 # 10)%Q ->
       spectralTimbre s = "Balanced"%string
       /\ spectralSentence s
          = "High-frequency content suggests presence of cymbals, strings, or bright instruments"%string
       /\ lastSuggestion uses
          = "Warm instrumentation (bass, woodwinds, mellow tones)"%string.
Proof.
  intros s uses. subst uses.
  rewrite lastSuggestion_timbre.
  unfold reportTimbre, spectralTimbre, timbreCategory, spectralSentence.
  fold s.
  split; [reflexivity|].
  destruct (jgt (brightness s) (Fin (6 # 10))) eqn:E6;
    destruct (jgt (brightness s) (Fin (4 # 10))) eqn:E4;
    (split; [split; (reflexivity || discriminate)|]);
    (split; [split; (reflexivity || discriminate)|]);
    (split; [split; (reflexivity || discriminate)|]);
    intros b Hb H5 H6; rewrite Hb in *; unfold jgt in *;
    try (apply jlt_Fin in E6; lra);
    try (apply jlt_Fin_false in E4; lra).
  assert (E5 : jlt (Fin (5 # 10)) (Fin b) = true) by (apply jlt_Fin; lra).
  rewrite E5. repeat split.
Qed.

Lemma zero_over_any_rate (sampleRate : jsnum) (q : Q) :
  (0 < q)%Q ->
  jgt (jdiv (Fin 0) (jdiv sampleRate (Fin 2))) (Fin q) = false.
Proof.
  intro Hq. unfold jgt.
  destruct sampleRate as [| | | r]; cbn [jdiv]; try reflexivity.
  - cbn [jlt]. apply negb_false_iff, Qle_bool_iff. lra.
  - cbn [jlt]. apply negb_false_iff, Qle_bool_iff. lra.
  - replace (Qeq_bool 2 0) with false by reflexivity.
    destruct (Qeq_bool (r / 2) 0); [reflexivity|].
    cbn [jlt]. apply negb_false_iff, Qle_bool_iff.
    assert (H : (0 / (r / 2) == 0)%Q) by (unfold Qdiv; apply Qmult_0_l).
    rewrite H. lra.
Qed.

(** X24.  A clip of at most 2048 samples, which fills no window of the
    spectral analysis, is always described as dark and low in energy,
    whatever it holds and whatever the sample rate: the insights say
    [Dark/Warm] and [Low Energy], the spectral panel says [Dark] and
    speaks of low frequencies, and the suggested uses name warm
    instruments. *)
Theorem short_clip_is_dark (channelData : list jsnum) (sampleRate : jsnum)
    (rhythmAnalysis : RhythmAnalysis.t) (scaleAnalysis : ScaleAnalysis.t) :
  (List.length channelData <= 2048)%nat ->
  let s := analyzeSpectrum channelData sampleRate in
  timbreCategory s = "Dark/Warm"%string
  /\ spectralTimbre s = "Dark"%string
  /\ energyLevel s = "Low Energy"%string
  /\ spectralSentence s
     = "Low-frequency dominant, suggests drums, bass, or darker timbres"%string
  /\ lastSuggestion (getSuggestedMusicalUses rhythmAnalysis scaleAnalysis s)
     = "Warm instrumentation (bass, woodwinds, mellow tones)"%string.
Proof.
  intros Hlen s.
  assert (Hb : forall q, (0 < q)%Q -> jgt (brightness s) (Fin q) = false).
  { intros q Hq. subst s. unfold analyzeSpectrum.
    rewrite windowLoop_short by assumption.
    rewrite averageSpectrum_empty. cbv zeta. cbn [brightness].
    rewrite centroid_nan. now apply zero_over_any_rate. }
  assert (Hr : rolloff s = Fin 0).
  { subst s. unfold analyzeSpectrum.
    rewrite windowLoop_short by assumption.
    rewrite averageSpectrum_empty. cbv zeta. cbn [rolloff].
    apply rolloff_nan. }
  rewrite lastSuggestion_timbre.
  unfold timbreCategory, spectralTimbre, energyLevel, spectralSentence.
  rewrite !Hb by reflexivity. rewrite Hr. repeat split.
Qed.

Lemma short_clip_is_dark_witness :
  timbreCategory (analyzeSpectrum [Fin 1; Fin (-1)] (Fin 44100))
  = "Dark/Warm"%string.
Proof.
  refine (proj1 (short_clip_is_dark [Fin 1; Fin (-1)] (Fin 44100)
                   sampleRhythm sampleScale _)).
  cbn [List.length]. lia.
Defined.

Lemma downsample_spec (spectrum : list jsnum) (remaining j : nat)
    (labels data : list jsnum) :
  let n := List.length spectrum in
  let count := ((n + 7) / 8 - j)%nat in
  (count <= remaining)%nat ->
  downsample remaining spectrum (8 * j) labels data
  = (labels ++ map (chartLabel n) (chartBins j count),
     data ++ map (numAt spectrum) (chartBins j count)).
Proof.
  intros n count. subst count.
  revert j labels data.
  induction remaining as [| r IH]; intros j labels data Hc.
  - replace ((n + 7) / 8 - j)%nat with 0%nat by lia.
    cbn. now rewrite !app_nil_r.
  - cbn [downsample]. fold n.
    pose proof (Nat.div_mod_eq (n + 7) 8) as Hdm.
    pose proof (Nat.mod_upper_bound (n + 7) 8 ltac:(lia)) as Hmod.
    destruct (8 * j <? n)%nat eqn:E.
    + apply Nat.ltb_lt in E.
      replace (8 * j + 8)%nat with (8 * S j)%nat by lia.
      rewrite IH by lia.
      assert (Hcount : ((n + 7) / 8 - j = S ((n + 7) / 8 - S j))%nat) by lia.
      rewrite Hcount. unfold chartBins. cbn [seq map].
      unfold push, chartLabel. rewrite <- !app_assoc. reflexivity.
    + apply Nat.ltb_ge in E.
      replace ((n + 7) / 8 - j)%nat with 0%nat by lia.
      cbn. now rewrite !app_nil_r.
Qed.

Lemma analyzeSpectrum_length (channelData : list jsnum) (sampleRate : jsnum) :
  List.length (spectrum (analyzeSpectrum channelData sampleRate)) = 1024%nat.
Proof.
  unfold analyzeSpectrum. cbn [spectrum]. unfold averageSpectrum.
  rewrite length_map. apply fold_accumulate_length.
  - now rewrite repeat_length.
  - apply windowLoop_frame_lengths; [lia | constructor].
Qed.

Lemma firstn_seq_min (k start len : nat) :
  firstn k (seq start len) = seq start (Nat.min k len).
Proof.
  revert start len. induction k as [| k IH]; intros start len; [reflexivity|].
  destruct len as [| len]; [reflexivity|].
  cbn [seq firstn Nat.min]. now rewrite IH.
Qed.

Lemma chartPoints_spec (spectralAnalysis : SpectralAnalysis) :
  let n := List.length (spectrum spectralAnalysis) in
  let count := Nat.min 50 ((n + 7) / 8) in
  chartPoints spectralAnalysis
  = (map (chartLabel n) (chartBins 0 count),
     map (numAt (spectrum spectralAnalysis)) (chartBins 0 count)).
Proof.
  intros n count.
  unfold chartPoints. fold n.
  pose proof (downsample_spec (spectrum spectralAnalysis) n 0 [] []) as H.
  cbv zeta in H. fold n in H. rewrite Nat.sub_0_r in H.
  change (8 * 0)%nat with 0%nat in H.
  rewrite H by (pose proof (Nat.div_mod_eq (n + 7) 8);
                pose proof (Nat.mod_upper_bound (n + 7) 8 ltac:(lia)); lia).
  cbn [app]. rewrite !slice_prefix by lia.
  change (Z.to_nat 50) with 50%nat.
  rewrite !firstn_map. unfold chartBins. rewrite !firstn_map, firstn_seq_min.
  reflexivity.
Qed.

Lemma label_matches_rate (r : Q) (i : nat) :
  (0 < i)%nat ->
  chartLabel 1024 i ~= binFreq 1024 (Fin r) i <-> (r == 44100)%Q.
Proof.
  intro Hi. unfold chartLabel, binFreq, ofNat, ofZ. cbn [jmul jdiv].
  change (Qeq_bool (inject_Z (Z.of_nat 1024)) 0) with false.
  change (Qeq_bool (inject_Z (Z.of_nat (1024 * 2))) 0) with false.
  cbv iota. cbn [jeq].
  change (inject_Z (Z.of_nat 1024)) with 1024%Q.
  change (inject_Z (Z.of_nat (1024 * 2))) with 2048%Q.
  assert (Hpos : (0 < inject_Z (Z.of_nat i))%Q).
  { change 0%Q with (inject_Z 0). rewrite <- Zlt_Qlt. lia. }
  set (I := inject_Z (Z.of_nat i)) in *. clearbody I.
  split; intro H.
  - assert (H1 : (I * 22050 * 2 == I * r)%Q).
    { assert (E1 : (I * 22050 * 2 == I * 22050 / 1024 * 2048)%Q) by field.
      assert (E2 : (I * r == I * r / 2048 * 2048)%Q) by field.
      rewrite E1, E2, H. reflexivity. }
    assert (H2 : (I * (r - 44100) == 0)%Q) by lra.
    apply Qmult_integral in H2. destruct H2 as [H2 | H2]; lra.
  - rewrite H. field.
Qed.

(** X25.  The spectral chart draws every eighth bin and at most 50 points.
    The averaged spectrum has 1024 bins, so the chart shows bins 0, 8, ...,
    392 and leaves out the bins above; bin [i] is labelled
    [i * 22050 / 1024] Hz whatever the sample rate of the file, which is
    the frequency of the bin only at 44100 Hz. *)
Theorem chart_draws_every_eighth_bin (channelData : list jsnum)
    (sampleRate : jsnum) :
  let s := analyzeSpectrum channelData sampleRate in
  chartPoints s
  = (map (chartLabel 1024) (chartBins 0 50),
     map (numAt (spectrum s)) (chartBins 0 50))
  /\ (forall i, In i (chartBins 0 50) -> (i <= 392)%nat)
  /\ (forall r i, (0 < i)%nat ->
        chartLabel 1024 i ~= binFreq 1024 (Fin r) i <-> (r == 44100)%Q).
Proof.
  intro s. split; [|split].
  - rewrite chartPoints_spec. subst s.
    rewrite analyzeSpectrum_length. reflexivity.
  - intros i Hi. unfold chartBins in Hi. apply in_map_iff in Hi.
    destruct Hi as (k & <- & Hk). apply in_seq in Hk. lia.
  - apply label_matches_rate.
Qed.

(* ===================================================================== *)
(** ** The recorder *)
(* ===================================================================== *)

Lemma recordingScore_range (rhythmAnalysis : RhythmAnalysis.t)
    (culture : Culture.t) :
  0 <= Recording.recordingScore rhythmAnalysis culture <= 5.
Proof.
  unfold Recording.recordingScore. cbv zeta.
  set (regularity := RhythmAnalysis.regularity rhythmAnalysis).
  assert (Hex : jgt regularity (Fin (7 # 10)) = true ->
                jlt regularity (Fin (5 # 10)) = false).
  { unfold jgt. destruct regularity as [| | | q]; try discriminate.
    - reflexivity.
    - intro H. apply jlt_Fin in H. apply jlt_Fin_false. lra. }
  destruct (jgt regularity (Fin (7 # 10)));
    [rewrite (Hex eq_refl)|]; cbn [andb];
    repeat match goal with
           | |- context [if ?c then _ else _] => destruct c
           end; lia.
Qed.

Lemma recording_matches_In (rhythmAnalysis : RhythmAnalysis.t)
    (allCultures : list Culture.t) (m : Match) :
  In m (Recording.matches rhythmAnalysis allCultures) ->
  In (culture m) allCultures
  /\ score m = Recording.recordingScore rhythmAnalysis (culture m)
  /\ 0 < score m.
Proof.
  unfold Recording.matches.
  assert (H : forall acc,
            In m (fold_left
                    (fun matches culture =>
                       let score := Recording.recordingScore rhythmAnalysis culture in
                       if 0 <? score then matches ++ [mkMatch culture score]
                       else matches) allCultures acc) ->
            In m acc
            \/ (In (culture m) allCultures
                /\ score m = Recording.recordingScore rhythmAnalysis (culture m)
                /\ 0 < score m)).
  { induction allCultures as [| c cs IH]; intros acc Hin; [now left|].
    cbn [fold_left] in Hin. apply IH in Hin. cbv zeta in Hin.
    destruct Hin as [Hin | (H1 & H2 & H3)].
    - destruct (0 <? Recording.recordingScore rhythmAnalysis c) eqn:E;
        [|now left].
      apply in_app_or in Hin. destruct Hin as [Hin | [<- | []]]; [now left|].
      right. cbn [culture score]. apply Z.ltb_lt in E.
      repeat split; [now left | exact E].
    - right. repeat split; [now right | assumption..]. }
  intro Hin. apply H in Hin. destruct Hin as [[] | Hin]. exact Hin.
Qed.

(** X26.  The similar cultures of a recording: at most three are listed,
    best first, each from the table with a score from 1 to 5.  The rhythm
    points for a regular rhythm (regularity above 0.7) and for a complex
    one (regularity below 0.5) exclude each other, so the text [score/7]
    never shows 6 or 7.  When [analyzeRhythm] throws, the recording is
    matched as tempo 0 and regularity 0: every culture whose rhythm text
    holds [complex] still scores at least 2. *)
Theorem recording_scores_at_most_5 (result : string + RhythmAnalysis.t)
    (allCultures : list Culture.t) :
  let top := Recording.topMatches (Recording.rhythmOf result) allCultures in
  (List.length top <= 3)%nat
  /\ StronglySorted (fun a b => score b <= score a) top
  /\ Forall (fun m => In (culture m) allCultures /\ 1 <= score m <= 5) top
  /\ Forall (fun m => In (Recording.matchScoreText m)
                         ["1/7"; "2/7"; "3/7"; "4/7"; "5/7"]%string) top
  /\ (forall message culture,
        result = inl message ->
        includes (Characteristics.rhythm (Culture.characteristics culture))
                 "complex" = true ->
        2 <= Recording.recordingScore (Recording.rhythmOf result) culture).
Proof.
  intro top. subst top. unfold Recording.topMatches.
  rewrite slice_prefix by lia. change (Z.to_nat 3) with 3%nat.
  assert (Hscores : Forall (fun m => In (culture m) allCultures
                                     /\ 1 <= score m <= 5)
                      (firstn 3 (sortBy byScoreDesc
                                   (Recording.matches (Recording.rhythmOf result)
                                      allCultures)))).
  { apply Forall_forall. intros m Hm. apply firstn_subset in Hm.
    apply (proj1 (sortBy_In score m _)) in Hm.
    apply recording_matches_In in Hm. destruct Hm as (Hin & Hs & Hpos).
    pose proof (recordingScore_range (Recording.rhythmOf result) (culture m)).
    split; [exact Hin | lia]. }
  split; [|split; [|split; [|split]]].
  - rewrite length_firstn. lia.
  - apply firstn_StronglySorted. apply (sortBy_sorted score).
  - exact Hscores.
  - eapply Forall_impl; [|exact Hscores].
    intros m [_ Hm]. unfold Recording.matchScoreText.
    assert (Hcases : score m = 1 \/ score m = 2 \/ score m = 3
                     \/ score m = 4 \/ score m = 5) by lia.
    destruct Hcases as [-> | [-> | [-> | [-> | ->]]]]; cbn; tauto.
  - intros message culture -> Hcomplex.
    cbn [Recording.rhythmOf]. unfold Recording.recordingScore. cbv zeta.
    rewrite Hcomplex.
    change (RhythmAnalysis.regularity Recording.defaultRhythm) with (Fin 0).
    change (jgt (Fin 0) (Fin (7 # 10))) with false.
    change (jlt (Fin 0) (Fin (5 # 10))) with true.
    cbn [andb].
    repeat match goal with
           | |- context [if ?c then _ else _] => destruct c
           end; lia.
Qed.

(* ===================================================================== *)
(** ** The pitch panel *)
(* ===================================================================== *)

Lemma bump_countIn (h : Histogram) (n k : Z) :
  countIn (bump h n) k = countIn h k + (if k =? n then 1 else 0).
Proof.
  induction h as [| [key c] h IH]; cbn [bump countIn].
  - rewrite Z.eqb_sym. destruct (k =? n); lia.
  - destruct (key =? n) eqn:E; cbn [countIn].
    + apply Z.eqb_eq in E. subst key.
      destruct (n =? k) eqn:E2.
      * rewrite Z.eqb_sym, E2. reflexivity.
      * rewrite Z.eqb_sym, E2. lia.
    + destruct (key =? k) eqn:E2; [|exact IH].
      apply Z.eqb_eq in E2. subst key. rewrite E. lia.
Qed.

Lemma bump_keys (h : Histogram) (n k : Z) :
  In k (map fst (bump h n)) <-> k = n \/ In k (map fst h).
Proof.
  induction h as [| [key c] h IH]; cbn [bump map fst In].
  - intuition.
  - destruct (key =? n) eqn:E; cbn [map fst In].
    + apply Z.eqb_eq in E. subst key. intuition.
    + rewrite IH. intuition.
Qed.

Lemma bump_tidy (h : Histogram) (n : Z) : tidy h -> tidy (bump h n).
Proof.
  intros [Hnd Hpos]. induction h as [| [key c] h IH]; cbn [bump].
  - split; [repeat constructor; auto | repeat constructor; cbn; lia].
  - cbn [map fst] in Hnd. inversion Hnd as [| ? ? Hnotin Hnd']; subst.
    inversion Hpos as [| ? ? Hc Hpos']; subst. cbn [snd] in Hc.
    destruct (key =? n) eqn:E.
    + split; [exact Hnd|]. constructor; [cbn; lia | exact Hpos'].
    + destruct (IH Hnd' Hpos') as [IH1 IH2].
      split.
      * cbn [map fst]. constructor; [|exact IH1].
        rewrite bump_keys. apply Z.eqb_neq in E. intuition.
      * constructor; [exact Hc | exact IH2].
Qed.

Lemma tidy_In_countIn (h : Histogram) (k c : Z) :
  tidy h -> (In (k, c) h <-> (countIn h k = c /\ 0 < c)).
Proof.
  intros [Hnd Hpos]. induction h as [| [key c'] h IH]; cbn [countIn In].
  - split; [contradiction | lia].
  - cbn [map fst] in Hnd. inversion Hnd as [| ? ? Hnotin Hnd']; subst.
    inversion Hpos as [| ? ? Hc Hpos']; subst. cbn [snd] in Hc.
    specialize (IH Hnd' Hpos').
    destruct (key =? k) eqn:E.
    + apply Z.eqb_eq in E. subst key. split.
      * intros [Heq | Hin]; [injection Heq as <-; lia|].
        exfalso. apply Hnotin. apply in_map_iff. now exists (k, c).
      * intros [<- _]. now left.
    + apply Z.eqb_neq in E. rewrite <- IH. split.
      * intros [Heq | Hin]; [injection Heq as Hk _; contradiction | exact Hin].
      * auto.
Qed.

Lemma fold_bump (notes : list Z) (h : Histogram) :
  tidy h ->
  tidy (fold_left bump notes h)
  /\ forall k, countIn (fold_left bump notes h) k
               = countIn h k + occurrences notes k.
Proof.
  revert h. induction notes as [| n notes IH]; intros h Ht.
  - split; [exact Ht|]. intro k. unfold occurrences. cbn. lia.
  - cbn [fold_left]. destruct (IH (bump h n) (bump_tidy h n Ht)) as [IH1 IH2].
    split; [exact IH1|]. intro k. rewrite IH2, bump_countIn.
    unfold occurrences. cbn [count_occ].
    destruct (Z.eq_dec n k) as [-> | Hne].
    + rewrite Z.eqb_refl. lia.
    + destruct (k =? n) eqn:E; [apply Z.eqb_eq in E; congruence | lia].
Qed.

Lemma insertBy_In_any {A : Type} (cmp : A -> A -> Z) (x y : A) (l : list A) :
  In y (insertBy cmp x l) <-> y = x \/ In y l.
Proof.
  induction l as [| z l IH]; cbn [insertBy].
  - cbn. intuition.
  - destruct (cmp x z <=? 0); cbn [In]; [intuition|].
    rewrite IH. intuition.
Qed.

Lemma sortBy_In_any {A : Type} (cmp : A -> A -> Z) (y : A) (l : list A) :
  In y (sortBy cmp l) <-> In y l.
Proof.
  induction l as [| x l IH]; cbn [sortBy]; [reflexivity|].
  rewrite insertBy_In_any, IH. cbn. intuition.
Qed.

Lemma sortBy_keys_ascending (l : list (Z * Z)) :
  NoDup (map fst l) ->
  StronglySorted (fun a b => fst a < fst b) (sortBy byKeyAsc l).
Proof.
  induction l as [| x l IH]; intro Hnd; [constructor|].
  cbn [map] in Hnd. inversion Hnd as [| ? ? Hnotin Hnd']; subst.
  specialize (IH Hnd'). cbn [sortBy].
  assert (Hx : Forall (fun z => fst z <> fst x) (sortBy byKeyAsc l)).
  { apply Forall_forall. intros z Hz Heq. apply Hnotin.
    apply sortBy_In_any in Hz. rewrite <- Heq. now apply in_map. }
  induction IH as [| z s Hs IHs Hz]; cbn [insertBy].
  - repeat constructor.
  - inversion Hx as [| ? ? Hzx Hx']; subst.
    unfold byKeyAsc at 1. destruct (fst x - fst z <=? 0) eqn:E.
    + apply Z.leb_le in E. constructor; [now constructor|].
      constructor; [lia|].
      rewrite Forall_forall in *. intros b Hb. specialize (Hz b Hb). lia.
    + apply Z.leb_gt in E. constructor; [now apply IHs|].
      rewrite Forall_forall in *. intros b Hb.
      apply insertBy_In_any in Hb. destruct Hb as [-> | Hb]; [lia | auto].
Qed.

Lemma StronglySorted_filter {A : Type} (R : A -> A -> Prop) (f : A -> bool)
    (l : list A) :
  StronglySorted R l -> StronglySorted R (filter f l).
Proof.
  induction 1 as [| a l Hl IH Ha]; cbn [filter]; [constructor|].
  destruct (f a); [|exact IH].
  constructor; [exact IH|].
  rewrite Forall_forall in *. intros b Hb. apply filter_In in Hb.
  now apply Ha.
Qed.

Lemma entries_In (h : Histogram) (e : Z * Z) : In e (entries h) <-> In e h.
Proof.
  unfold entries. rewrite in_app_iff, sortBy_In_any, !filter_In.
  destruct (isArrayIndex (fst e)); cbn; intuition discriminate.
Qed.

Lemma entries_index_keys (h : Histogram) :
  Forall (fun e => isArrayIndex (fst e) = true) h ->
  entries h = sortBy byKeyAsc h.
Proof.
  intro H. unfold entries.
  assert (H1 : filter (fun e => isArrayIndex (fst e)) h = h).
  { induction H as [| e h He Hh IH]; [reflexivity|].
    cbn [filter]. now rewrite He, IH. }
  assert (H2 : filter (fun e => negb (isArrayIndex (fst e))) h = []).
  { clear H1. induction H as [| e h He Hh IH]; [reflexivity|].
    cbn [filter]. rewrite He. exact IH. }
  now rewrite H1, H2, app_nil_r.
Qed.

Section PitchDisplayFacts.

Variable frequencyToMidiNote : jsnum -> Z.
Variable pitches : list jsnum.

Let notes := midiNotes frequencyToMidiNote pitches.
Let h := histogramOf frequencyToMidiNote pitches.

Lemma histogram_counts (k c : Z) :
  In (k, c) h <-> (c = occurrences notes k /\ 0 < c).
Proof.
  assert (Ht : tidy []) by (split; constructor).
  destruct (fold_bump notes [] Ht) as [Htidy Hcount].
  fold h in Htidy, Hcount. cbn [countIn] in Hcount.
  rewrite (tidy_In_countIn h k c Htidy), Hcount. intuition lia.
Qed.

Lemma histogram_tidy : tidy h.
Proof.
  assert (Ht : tidy []) by (split; constructor).
  exact (proj1 (fold_bump notes [] Ht)).
Qed.

Lemma occurrences_pos (k : Z) : 0 < occurrences notes k <-> In k notes.
Proof.
  unfold occurrences. rewrite (count_occ_In Z.eq_dec). lia.
Qed.

Lemma sorted_head (k c : Z) (rest : list (Z * Z)) :
  sortedNotes frequencyToMidiNote pitches = (k, c) :: rest ->
  exists rest', sortBy byCountDesc (entries h) = (k, c) :: rest'.
Proof.
  unfold sortedNotes. fold h. rewrite slice_prefix by lia.
  destruct (sortBy byCountDesc (entries h)) as [| e s]; [discriminate|].
  cbn. intro H. injection H as -> _. now exists s.
Qed.

End PitchDisplayFacts.

Lemma NoDup_keys_filter (f : Z * Z -> bool) (l : list (Z * Z)) :
  NoDup (map fst l) -> NoDup (map fst (filter f l)).
Proof.
  induction l as [| e l IH]; intro H; [constructor|].
  cbn [map] in H. inversion H as [| ? ? Hnotin Hnd]; subst.
  cbn [filter]. destruct (f e); [|now apply IH].
  cbn [map]. constructor; [|now apply IH].
  intro Hin. apply Hnotin. apply in_map_iff in Hin.
  destruct Hin as (x & Hx & Hin). apply filter_In in Hin.
  apply in_map_iff. exists x. now split.
Qed.

(** X27.  The note shown as the most common one is a mode of the detected
    notes: it occurs among them, and no note occurs more often.  Among
    the notes that occur as often, those that are array indices (the
    whole numbers from 0 up, as the MIDI notes of audible pitches are)
    come first and in ascending order, since [Object.entries] lists such
    keys so before the stable sort by count: when one of them is an array
    index, the lowest such note is shown.  [N/A] is shown exactly when no
    pitch was detected. *)
Theorem most_common_note_is_mode (frequencyToMidiNote : jsnum -> Z)
    (pitches : list jsnum) :
  let notes := midiNotes frequencyToMidiNote pitches in
  (mostCommonNote frequencyToMidiNote pitches = None <-> pitches = [])
  /\ forall k, mostCommonNote frequencyToMidiNote pitches = Some k ->
       In k notes
       /\ (forall n, occurrences notes n <= occurrences notes k)
       /\ (forall n, occurrences notes n = occurrences notes k ->
             isArrayIndex n = true ->
             isArrayIndex k = true /\ k <= n).
Proof.
  intro notes.
  set (h := histogramOf frequencyToMidiNote pitches).
  assert (Hsome : forall k, mostCommonNote frequencyToMidiNote pitches = Some k ->
            exists c rest', sortBy byCountDesc (entries h) = (k, c) :: rest').
  { intros k Hk. unfold mostCommonNote in Hk.
    destruct (sortedNotes frequencyToMidiNote pitches) as [| [k' c] rest] eqn:E;
      [discriminate|].
    injection Hk as ->. exists c.
    exact (sorted_head frequencyToMidiNote pitches k c rest E). }
  split.
  - split.
    + intro Hnone. destruct pitches as [| p ps]; [reflexivity|].
      exfalso.
      set (n := frequencyToMidiNote p).
      assert (Hin : In n notes) by (subst notes; now left).
      apply occurrences_pos in Hin.
      assert (He : In (n, occurrences notes n)
                      (sortBy byCountDesc (entries h))).
      { apply sortBy_In_any, entries_In.
        apply histogram_counts. split; [reflexivity | exact Hin]. }
      unfold mostCommonNote, sortedNotes in Hnone. fold h in Hnone.
      rewrite slice_prefix in Hnone by lia.
      destruct (sortBy byCountDesc (entries h)) as [| [k c] s];
        [contradiction | discriminate].
    + intros ->. reflexivity.
  - intros k Hk. destruct (Hsome k Hk) as (c & rest' & Hsorted).
    assert (Hkc : In (k, c) h).
    { apply entries_In, (sortBy_In_any byCountDesc). rewrite Hsorted. now left. }
    apply histogram_counts in Hkc. destruct Hkc as [Hc Hpos].
    fold notes in Hc.
    pose proof (sortBy_sorted snd (entries h)) as Hdesc.
    change (fun a b : Z * Z => snd b - snd a) with byCountDesc in Hdesc.
    rewrite Hsorted in Hdesc. apply StronglySorted_inv in Hdesc.
    destruct Hdesc as [_ Hhead]. rewrite Forall_forall in Hhead.
    assert (Hmember : forall n, 0 < occurrences notes n ->
              n = k \/ In (n, occurrences notes n) rest').
    { intros n Hn.
      assert (He : In (n, occurrences notes n)
                      (sortBy byCountDesc (entries h))).
      { apply sortBy_In_any, entries_In.
        apply histogram_counts. split; [reflexivity | exact Hn]. }
      rewrite Hsorted in He. destruct He as [He | He]; [|now right].
      left. now injection He as ->. }
    split; [|split].
    + apply occurrences_pos. fold notes. lia.
    + intro n. destruct (Z_lt_le_dec 0 (occurrences notes n)) as [Hn | Hn];
        [|lia].
      destruct (Hmember n Hn) as [-> | Hin]; [lia|].
      specialize (Hhead _ Hin). cbn [snd] in Hhead. lia.
    + intros n Hn Hidx.
      set (indexed := sortBy byKeyAsc
                        (filter (fun e => isArrayIndex (fst e)) h)).
      pose proof (sortBy_filter snd (entries h) c) as Hstable.
      change (fun a b : Z * Z => snd b - snd a) with byCountDesc in Hstable.
      rewrite Hsorted in Hstable. cbn [filter snd] in Hstable.
      rewrite Z.eqb_refl in Hstable.
      unfold entries in Hstable. fold indexed in Hstable.
      rewrite filter_app in Hstable.
      assert (Hasc : StronglySorted (fun a b => fst a < fst b)
                       (filter (fun a => snd a =? c) indexed)).
      { apply StronglySorted_filter, sortBy_keys_ascending, NoDup_keys_filter.
        exact (proj1 (histogram_tidy frequencyToMidiNote pitches)). }
      assert (Hnc : In (n, c) (filter (fun a => snd a =? c) indexed)).
      { apply filter_In. split; [|cbn [snd]; apply Z.eqb_refl].
        apply sortBy_In_any, filter_In. split; [|exact Hidx].
        apply histogram_counts. fold notes. split; lia. }
      destruct (filter (fun a => snd a =? c) indexed) as [| e rest] eqn:Ef;
        [contradiction|].
      cbn [app] in Hstable. injection Hstable as He _. subst e.
      split.
      * assert (Hk' : In (k, c) indexed).
        { assert (H' : In (k, c) (filter (fun a => snd a =? c) indexed))
            by (rewrite Ef; now left).
          now apply filter_In in H'. }
        apply sortBy_In_any, filter_In in Hk'. exact (proj2 Hk').
      * destruct Hnc as [Heq | Hin]; [injection Heq as ->; lia|].
        apply StronglySorted_inv in Hasc. destruct Hasc as [_ Hfirst].
        rewrite Forall_forall in Hfirst.
        specialize (Hfirst _ Hin). cbn [fst] in Hfirst. lia.
Qed.

(** Negative notes are no array indices: [Object.entries] lists them
    after the others, in the order of their first detection. *)
Example negative_notes_come_last :
  let note := fun p => match p with Fin q => Qfloor q | _ => 0 end in
  mostCommonNote note [Fin (-5); Fin (-5); Fin 3; Fin 3] = Some 3
  /\ mostCommonNote note [Fin (-5); Fin (-7); Fin (-7); Fin (-5)] = Some (-5).
Proof. cbv zeta. split; vm_compute; reflexivity. Qed.

(** X28.  A clip of at most 4096 samples has no pitch: the pitch loop
    examines no frame, whatever the detector would return, and the pitch
    panel is drawn for no pitch at all: the average is [NaN] (0 divided
    by 0), the range runs from [Infinity] to [-Infinity], and the most
    common note is [N/A]. *)
Theorem short_clip_has_no_pitch (hasCancelBtn : bool) (clicks : nat -> bool)
    (detectPitch : list jsnum -> string + jsnum)
    (frequencyToMidiNote : jsnum -> Z)
    (samples : list jsnum) (rate : jsnum) (w : World) :
  (List.length samples <= 4096)%nat ->
  exists st,
    pitchLoop hasCancelBtn clicks detectPitch maxFrames samples rate 0
      (mkPitchState [] [] 0) w = (w, inr st)
    /\ frames st = 0%nat
    /\ avgPitch (pitches st) = NaN
    /\ pitchRange (pitches st) = (PInf, NInf)
    /\ mostCommonNote frequencyToMidiNote (pitches st) = None.
Proof.
  intro Hlen. exists (mkPitchState [] [] 0).
  split; [|repeat split].
  generalize maxFrames. intro remaining.
  destruct remaining as [| remaining]; [reflexivity|].
  cbn [pitchLoop]. unfold sampleSize.
  destruct (0 <? Z.of_nat (List.length samples) - 4096) eqn:E.
  - apply Z.ltb_lt in E. lia.
  - reflexivity.
Qed.

Lemma short_clip_has_no_pitch_witness :
  exists st,
    pitchLoop true (fun _ => false) (fun _ => inr (Fin 440)) maxFrames
      (trimmedChannel demoBuffer) (Fin 2) 0 (mkPitchState [] [] 0) freshPage
    = (freshPage, inr st)
    /\ frames st = 0%nat
    /\ avgPitch (pitches st) = NaN
    /\ pitchRange (pitches st) = (PInf, NInf)
    /\ mostCommonNote (fun _ => 69) (pitches st) = None.
Proof.
  apply short_clip_has_no_pitch.
  change (List.length (trimmedChannel demoBuffer)) with 30%nat. lia.
Defined.

(* ===================================================================== *)
(** ** Dark mode *)
(* ===================================================================== *)

Lemma click_invariant (p : DarkMode.Page) :
  DarkMode.bodyClass p = DarkMode.isDarkMode p ->
  let p' := DarkMode.click p in
  DarkMode.bodyClass p' = DarkMode.isDarkMode p'
  /\ DarkMode.showsSun p' = DarkMode.isDarkMode p'
  /\ DarkMode.isDarkMode p' = negb (DarkMode.isDarkMode p)
  /\ DarkMode.darkMode p' = Some (DarkMode.ofBool (DarkMode.isDarkMode p')).
Proof.
  intro H. unfold DarkMode.click. cbn. rewrite H. repeat split.
Qed.

Lemma isTrue_ofBool (b : bool) :
  DarkMode.isTrue (Some (DarkMode.ofBool b)) = b.
Proof. destruct b; reflexivity. Qed.

Lemma visit_spec (stored : option string) (clicks : nat) :
  let p := DarkMode.visit stored clicks in
  DarkMode.isDarkMode p = xorb (DarkMode.isTrue stored) (Nat.odd clicks)
  /\ DarkMode.bodyClass p = DarkMode.isDarkMode p
  /\ DarkMode.showsSun p = DarkMode.isDarkMode p
  /\ DarkMode.darkMode p
     = match clicks with
       | O => stored
       | S _ => Some (DarkMode.ofBool (DarkMode.isDarkMode p))
       end.
Proof.
  induction clicks as [| n IH].
  - unfold DarkMode.visit, DarkMode.initializeDarkMode, DarkMode.loaded.
    cbn [Nat.iter nat_rect DarkMode.darkMode]. cbn [Nat.odd].
    destruct (DarkMode.isTrue stored) eqn:E; cbn; repeat split.
  - cbv zeta in IH. destruct IH as (Hmode & Hbody & Hsun & Hstore).
    unfold DarkMode.visit in *. cbn [Nat.iter nat_rect].
    set (p := Nat.iter n DarkMode.click _) in *.
    destruct (click_invariant p Hbody) as (H1 & H2 & H3 & H4).
    cbv zeta. change (nat_rect _ _ _ n) with p.
    repeat split; try assumption.
    rewrite H3, Hmode, Nat.odd_succ, <- Nat.negb_odd.
    destruct (DarkMode.isTrue stored), (Nat.odd n); reflexivity.
Qed.

(** X29.  Dark mode survives a reload.  During a visit the class of the
    body and the button follow [isDarkMode], which is the stored mode
    flipped once per click; and a page loaded again with what the visit
    left in the storage comes up in the mode the visit ended in. *)
Theorem dark_mode_survives_reload (stored : option string) (clicks : nat) :
  let p := DarkMode.visit stored clicks in
  let again := DarkMode.visit (DarkMode.darkMode p) 0 in
  DarkMode.bodyClass p = DarkMode.isDarkMode p
  /\ DarkMode.isDarkMode p = xorb (DarkMode.isTrue stored) (Nat.odd clicks)
  /\ DarkMode.isDarkMode again = DarkMode.isDarkMode p
  /\ DarkMode.bodyClass again = DarkMode.bodyClass p
  /\ DarkMode.showsSun again = DarkMode.showsSun p.
Proof.
  intros p again.
  destruct (visit_spec stored clicks) as (Hmode & Hbody & Hsun & Hstore).
  fold p in Hmode, Hbody, Hsun, Hstore.
  destruct (visit_spec (DarkMode.darkMode p) 0) as (Hmode' & Hbody' & Hsun' & _).
  fold again in Hmode', Hbody', Hsun'. cbn [Nat.odd] in Hmode'.
  rewrite xorb_false_r in Hmode'.
  assert (Hsame : DarkMode.isTrue (DarkMode.darkMode p) = DarkMode.isDarkMode p).
  { rewrite Hstore. destruct clicks as [| n].
    - rewrite Hmode. cbn [Nat.odd]. now rewrite xorb_false_r.
    - apply isTrue_ofBool. }
  repeat split; congruence.
Qed.

(* ===================================================================== *)
(** ** The start of a teacher session *)
(* ===================================================================== *)

Lemma parseInt_whole (s : string) :
  parseInt s = NaN \/ exists z, parseInt s = ofZ z.
Proof.
  unfold parseInt.
  repeat match goal with
         | |- context [let '(_, _) := ?x in _] => destruct x
         end.
  destruct (parseDigits _ _ _) as [n |]; [right | left]; eauto.
Qed.

Lemma numberOr_whole (z : Z) (fallback : jsnum) :
  Dashboard.numberOr (ofZ z) fallback = if z =? 0 then fallback else ofZ z.
Proof.
  unfold Dashboard.numberOr, ofZ.
  destruct (Qeq_bool (inject_Z z) 0) eqn:E.
  - apply Qeq_bool_iff in E. change 0%Q with (inject_Z 0) in E.
    rewrite inject_Z_injective in E. subst z. reflexivity.
  - destruct (z =? 0) eqn:Ez; [|reflexivity].
    apply Z.eqb_eq in Ez. subst z. discriminate E.
Qed.

Lemma digitVal_nonneg (c : ascii) (d : Z) : digitVal c = Some d -> 0 <= d.
Proof.
  unfold digitVal.
  destruct (JsString.between 48 57 c); [intro H; injection H as <-; lia|].
  destruct (JsString.between 97 122 c); [intro H; injection H as <-; lia|].
  destruct (JsString.between 65 90 c); [intro H; injection H as <-; lia|].
  discriminate.
Qed.

Lemma parseDigits_some_bound (radix : Z) (s : string) (a n : Z) :
  1 < radix -> 0 <= a ->
  parseDigits radix (Some a) s = Some n ->
  0 <= n < (a + 1) * radix ^ Z.of_nat (String.length s).
Proof.
  intro Hr. revert a. induction s as [| c rest IH]; intros a Ha H.
  - cbn in H. injection H as <-. cbn. lia.
  - assert (Hpow : radix ^ Z.of_nat (String.length (String c rest))
                   = radix * radix ^ Z.of_nat (String.length rest)).
    { cbn [String.length]. rewrite Nat2Z.inj_succ, Z.pow_succ_r by lia.
      reflexivity. }
    assert (Hp : 0 < radix ^ Z.of_nat (String.length rest))
      by (apply Z.pow_pos_nonneg; lia).
    assert (Hstop : Some a = Some n ->
              0 <= n < (a + 1) * radix ^ Z.of_nat (String.length (String c rest))).
    { intro E. injection E as <-. rewrite Hpow. nia. }
    cbn [parseDigits] in H.
    destruct (digitVal c) as [d |] eqn:Ed; [|now apply Hstop].
    destruct (d <? radix) eqn:E; [|now apply Hstop].
    apply Z.ltb_lt in E. pose proof (digitVal_nonneg c d Ed) as Hd.
    apply IH in H; [|nia]. rewrite Hpow. nia.
Qed.

Lemma parseDigits_bound (radix : Z) (s : string) (n : Z) :
  1 < radix ->
  parseDigits radix None s = Some n ->
  0 <= n < radix ^ Z.of_nat (String.length s).
Proof.
  intros Hr H. destruct s as [| c rest]; [discriminate|].
  cbn [parseDigits] in H.
  destruct (digitVal c) as [d |] eqn:Ed; [|discriminate].
  destruct (d <? radix) eqn:E; [|discriminate].
  apply Z.ltb_lt in E. pose proof (digitVal_nonneg c d Ed) as Hd.
  apply parseDigits_some_bound in H; [|lia|lia].
  cbn [String.length]. rewrite Nat2Z.inj_succ, Z.pow_succ_r by lia.
  assert (Hp : 0 < radix ^ Z.of_nat (String.length rest))
    by (apply Z.pow_pos_nonneg; lia).
  nia.
Qed.

Lemma skipSpaces_length (s : string) :
  (String.length (skipSpaces s) <= String.length s)%nat.
Proof.
  induction s as [| c rest IH]; [cbn; lia|].
  cbn [skipSpaces]. destruct (isSpace c); cbn [String.length]; lia.
Qed.

Lemma parseInt_short (s : string) :
  (String.length s <= 15)%nat ->
  parseInt s = NaN
  \/ exists z, parseInt s = ofZ z /\ - 2 ^ 53 < z < 2 ^ 53.
Proof.
  intro Hlen. unfold parseInt.
  pose proof (skipSpaces_length s) as H1.
  set (s1 := skipSpaces s) in *.
  set (signed := match s1 with
                 | String c rest =>
                     if Ascii.eqb c "-" then (-1, rest)
                     else if Ascii.eqb c "+" then (1, rest) else (1, s1)
                 | EmptyString => (1, s1)
                 end).
  assert (Hs : (fst signed = 1 \/ fst signed = -1)
               /\ (String.length (snd signed) <= 15)%nat).
  { subst signed. destruct s1 as [| c rest]; [cbn; split; [auto | lia]|].
    cbn [String.length] in H1.
    destruct (Ascii.eqb c "-"); [cbn; split; [auto | lia]|].
    destruct (Ascii.eqb c "+"); cbn; split; auto; lia. }
  destruct signed as [sign s2]. cbn [fst snd] in Hs.
  destruct Hs as [Hsign H2].
  set (based := match s2 with
                | String c0 (String c1 rest) =>
                    if (Ascii.eqb c0 "0"
                        && (Ascii.eqb c1 "x" || Ascii.eqb c1 "X"))%bool
                    then (16, rest) else (10, s2)
                | _ => (10, s2)
                end).
  assert (Hb : (fst based = 10 /\ (String.length (snd based) <= 15)%nat)
               \/ (fst based = 16 /\ (String.length (snd based) <= 13)%nat)).
  { subst based. destruct s2 as [| c0 [| c1 rest]]; [left; now split..|].
    cbn [String.length] in H2.
    destruct (Ascii.eqb c0 "0" && (Ascii.eqb c1 "x" || Ascii.eqb c1 "X"))%bool;
      [right | left]; cbn; split; auto; lia. }
  destruct based as [radix s3]. cbn [fst snd] in Hb.
  destruct (parseDigits radix None s3) as [n |] eqn:E; [right | now left].
  exists (sign * n). split; [reflexivity|].
  assert (Hn : 0 <= n < 2 ^ 53).
  { destruct Hb as [[-> H3] | [-> H3]];
      apply parseDigits_bound in E; try lia.
    - assert (10 ^ Z.of_nat (String.length s3) <= 10 ^ 15)
        by (apply Z.pow_le_mono_r; lia).
      assert (10 ^ 15 < 2 ^ 53) by reflexivity. lia.
    - assert (16 ^ Z.of_nat (String.length s3) <= 16 ^ 13)
        by (apply Z.pow_le_mono_r; lia).
      assert (16 ^ 13 < 2 ^ 53) by reflexivity. lia. }
  destruct Hsign as [-> | ->]; lia.
Qed.

(** X30.  What the click on Start makes of its inputs: the session is
    stored at once and the class name is never empty.  For a count typed
    in at most 15 ASCII characters the student count is a whole number
    other than 0 and below [2^53], which a double holds exactly: the
    count read by [parseInt] when it is not 0 (a negative count is
    kept), and the default 25 when the input is missing, unreadable or
    0. *)
Theorem session_start_defaults (classNameInput studentCountInput : option string)
    (now : string) (p : Dashboard.Page) :
  plainCount studentCountInput ->
  exists s,
    Dashboard.dashboardSession
      (Dashboard.startSession classNameInput studentCountInput now p) = Some s
    /\ Dashboard.teacherDashboard
         (Dashboard.startSession classNameInput studentCountInput now p) = Some s
    /\ Dashboard.className s <> EmptyString
    /\ (exists z, z <> 0 /\ - 2 ^ 53 < z < 2 ^ 53
                  /\ Dashboard.studentCount s = ofZ z)
    /\ (forall z, Dashboard.parseIntOf studentCountInput = ofZ z -> z <> 0 ->
          Dashboard.studentCount s = ofZ z)
    /\ (Dashboard.parseIntOf studentCountInput = NaN
        \/ Dashboard.parseIntOf studentCountInput = ofZ 0 ->
        Dashboard.studentCount s = ofZ 25).
Proof.
  intro Hplain.
  unfold Dashboard.startSession, Dashboard.saveDashboardSession.
  cbn [Dashboard.dashboardSession Dashboard.dashboardTimer
       Dashboard.teacherDashboard].
  eexists. split; [reflexivity|]. split; [reflexivity|].
  cbn [Dashboard.className Dashboard.studentCount].
  split; [|split; [|split]].
  - destruct classNameInput as [[| c text] |]; discriminate.
  - assert (Hn : Dashboard.parseIntOf studentCountInput = NaN
                 \/ exists z, Dashboard.parseIntOf studentCountInput = ofZ z
                              /\ - 2 ^ 53 < z < 2 ^ 53).
    { destruct studentCountInput as [text |]; [|now left].
      apply parseInt_short. exact (proj1 Hplain). }
    destruct Hn as [-> | (z & -> & Hz)].
    + exists 25. split; [lia|]. split; [lia | reflexivity].
    + rewrite numberOr_whole. destruct (z =? 0) eqn:E.
      * exists 25. split; [lia|]. split; [lia | reflexivity].
      * exists z. apply Z.eqb_neq in E. now split.
  - intros z -> Hz. rewrite numberOr_whole.
    destruct (z =? 0) eqn:E; [apply Z.eqb_eq in E; contradiction | reflexivity].
  - intros [-> | ->]; reflexivity.
Qed.

Lemma session_start_defaults_witness :
  exists s,
    Dashboard.dashboardSession
      (Dashboard.startSession (Some EmptyString) (Some " -12 pupils"%string)
         "2026-01-01" (Dashboard.loaded None)) = Some s
    /\ Dashboard.className s = "Untitled Class"%string
    /\ Dashboard.studentCount s = ofZ (-12).
Proof.
  assert (Hplain : plainCount (Some " -12 pupils"%string)).
  { split; [cbn; lia | reflexivity]. }
  destruct (session_start_defaults (Some EmptyString)
              (Some " -12 pupils"%string) "2026-01-01" (Dashboard.loaded None) Hplain)
    as (s & Hs & _ & _ & _ & Hcount & _).
  exists s. split; [exact Hs|].
  vm_compute in Hs. injection Hs as <-. split; reflexivity.
Defined.
